(** * Session-scoped retrieval memory of n8n-nodes-miniagent

    A shallow embedding of [src/nodes/MiniAgent/VectorStore.ts] and
    [src/nodes/MiniAgent/RAGMemory.ts], and the properties of the
    specification checked against it.

    Conventions of the embedding.
    - A JavaScript [number] used as a coordinate, a distance or a score is a
      real number ([R]): rounding, overflow and NaN are outside that model.
      Where a property depends on them, for [cosineDistance] of a vector
      with itself, the function is read a second time over an interface of
      the arithmetic ([Num]), with the doubles and the reals rounded after
      every operation as instances. A [number] used as a count, a dimension
      or a time stamp is an integer ([Z]).
    - A string is the sequence of the bytes of its UTF-8 encoding
      ([string]); the white space that [trim] removes is told by its
      encodings.
    - A [Map] whose iteration order is observable is an association list in
      insertion order; a [Map] or object only read by key is a [gmap].
    - A method that can throw returns a [Result]; a method that mutates its
      receiver is a state transformer over the receiver.
    - The calls on one session run one after the other (section 5 of the
      specification leaves their serialisation to the caller), and
      [Date.now()] does not advance within one call.
    - [BM25Index.ts] and [HybridSearch.ts] are imported by the two files but
      are not among the sources: the keyword index and the fusion are
      interfaces, and the fusion is also modelled from the specification.
    - [buildContextMessages] (number formatting) and
      [getEmbeddingDimensions] (a table) are left out. *)

From Stdlib Require Import Reals Lra Lia ZArith List String Ascii Permutation Sorted.
From stdpp Require Import gmap strings pretty.
From Stdlib Require PrimFloat FloatOps Uint63.
Import ListNotations.

(** * Part I: the program *)

(** ** Results of calls that may throw *)

Inductive SearchMode := ModeVector | ModeKeyword | ModeHybrid.

Inductive FusionMethod := Rrf | Weighted.

(** The [Error] values thrown in the two files, one constructor per message,
    and the run-time errors of the language. *)
Inductive Error :=
| DimensionMismatch (expected : Z) (got : nat)
| QueryDimensionMismatch (expected : Z) (got : nat)
| QueryVectorRequired (mode : SearchMode)
| KeywordsRequired (mode : SearchMode)
| EmbeddingsUnsupported
| ProviderError (msg : string)
| TypeError (msg : string).

Inductive Result (A : Type) :=
| Ok (a : A)
| Throw (e : Error).
Arguments Ok {A} a.
Arguments Throw {A} e.

(** State transformers that may throw: the state is returned in both cases,
    so what a failed call leaves behind is part of its meaning. *)
Definition M (S A : Type) : Type := S -> Result A * S.

Definition ret {S A} (a : A) : M S A := fun s => (Ok a, s).

Definition throw {S A} (e : Error) : M S A := fun s => (Throw e, s).

Definition bind {S A B} (c : M S A) (k : A -> M S B) : M S B :=
  fun s => match c s with
           | (Ok a, s') => k a s'
           | (Throw e, s') => (Throw e, s')
           end.

Definition gets {S A} (f : S -> A) : M S A := fun s => (Ok (f s), s).

Definition modify {S} (f : S -> S) : M S unit := fun s => (Ok tt, f s).

Definition liftResult {S A} (r : Result A) : M S A := fun s => (r, s).

Notation "x <- c ;; k" := (bind c (fun x => k))
  (at level 100, c at next level, right associativity).
Notation "c ;;; k" := (bind c (fun _ => k))
  (at level 100, right associativity).

(** ** Objects and insertion-ordered maps *)

#[local] Unset Elimination Schemes.
(** Values held under the keys of an object ([unknown] in the source). *)
Inductive JsonValue :=
| JUndefined
| JNull
| JBool (b : bool)
| JNumber (r : R)
| JString (s : string)
| JArray (items : list JsonValue)
| JObject (fields : list (string * JsonValue)).
#[local] Set Elimination Schemes.

Module OMap.
(** A [Map] (or an object) in insertion order. [set] on a key already
    present replaces the value in place; on a new key it appends. *)
Section Ops.
Context {V : Type}.

Fixpoint get (key : string) (m : list (string * V)) : option V :=
  match m with
  | [] => None
  | (k, v) :: m' => if String.eqb k key then Some v else get key m'
  end.

Fixpoint set (key : string) (v : V) (m : list (string * V)) : list (string * V) :=
  match m with
  | [] => [(key, v)]
  | (k, w) :: m' =>
      if String.eqb k key then (k, v) :: m' else (k, w) :: set key v m'
  end.

Fixpoint delete (key : string) (m : list (string * V)) : list (string * V) :=
  match m with
  | [] => []
  | (k, w) :: m' =>
      if String.eqb k key then m' else (k, w) :: delete key m'
  end.

Definition has (key : string) (m : list (string * V)) : bool :=
  match get key m with Some _ => true | None => false end.

Definition keys (m : list (string * V)) : list string := map fst m.

Definition values (m : list (string * V)) : list V := map snd m.

(** [{...a, ...b}]: the keys of [b] are set one by one on a copy of [a]. *)
Definition spread (a b : list (string * V)) : list (string * V) :=
  fold_left (fun acc kv => set (fst kv) (snd kv) acc) b a.
End Ops.
End OMap.

Definition Metadata : Type := list (string * JsonValue).

(** ** VectorStore.ts *)

Inductive DistanceMetric := Cosine | Euclidean | Dot.

Definition DistanceMetric_eqb (a b : DistanceMetric) : bool :=
  match a, b with
  | Cosine, Cosine | Euclidean, Euclidean | Dot, Dot => true
  | _, _ => false
  end.

Record VectorStoreOptions := {
  opt_dimensions : Z;
  opt_distance : option DistanceMetric
}.

Record VectorDocument := {
  doc_id : string;
  doc_content : string;
  doc_vector : list R;
  doc_metadata : option Metadata
}.

Record SearchResult := {
  sr_id : string;
  sr_content : string;
  sr_distance : R;
  sr_similarity : R;
  sr_metadata : option Metadata
}.

(** [metadata] is an object or [null] ([None]); [norm] is absent ([None])
    unless the store's metric is cosine. *)
Record StoredDocument := {
  sd_id : string;
  sd_content : string;
  sd_vector : list R;
  sd_metadata : option Metadata;
  sd_norm : option R
}.

Record BM25SearchResult := {
  bm_id : string;
  bm_score : R;
  bm_metadata : option Metadata
}.

(** [BM25Index.ts] is not part of the sources at hand: the keyword index is
    taken as an interface, with the constructor and the four methods that
    [VectorStore] calls. *)
Class BM25 := {
  BM25Index : Type;
  bm25_new : list string -> BM25Index;
  bm25_addDocument : BM25Index -> string -> Metadata -> BM25Index;
  bm25_removeDocument : BM25Index -> string -> BM25Index;
  bm25_clear : BM25Index -> BM25Index;
  bm25_search : BM25Index -> string -> Z -> list BM25SearchResult
}.

Section Numeric.
Local Open Scope R_scope.

(** The loop of [cosineDistance]: index [i] runs over [a]; the callers
    pass vectors of equal length, so [b[i]] is defined at each step. *)
Definition cosineDistance (a b : list R) (normA normB : option R) : R :=
  let needNormA := match normA with None => true | Some _ => false end in
  let needNormB := match normB with None => true | Some _ => false end in
  let '(dot, nA, nB) :=
    fold_left
      (fun '(dot, nA, nB) '(ai, bi) =>
         (dot + ai * bi,
          if needNormA then nA + ai * ai else nA,
          if needNormB then nB + bi * bi else nB))
      (combine a b)
      (0, default 0 normA, default 0 normB) in
  let nA := if needNormA then sqrt nA else nA in
  let nB := if needNormB then sqrt nB else nB in
  let denom := nA * nB in
  if Req_dec_T denom 0 then 1
  else
    let similarity := Rmax (-1) (Rmin 1 (dot / denom)) in
    1 - similarity.

Definition euclideanDistance (a b : list R) : R :=
  sqrt (fold_left (fun sum '(ai, bi) => let diff := ai - bi in sum + diff * diff)
          (combine a b) 0).

Definition dotProductDistance (a b : list R) : R :=
  - fold_left (fun dot '(ai, bi) => dot + ai * bi) (combine a b) 0.

Definition computeNorm (vector : list R) : R :=
  sqrt (fold_left (fun sum x => sum + x * x) vector 0).

(** The [switch] of [calculateDistance]; its [default] branch is the
    cosine branch again. *)
Definition calculateDistance (metric : DistanceMetric)
    (a b : list R) (normA normB : option R) : R :=
  match metric with
  | Cosine => cosineDistance a b normA normB
  | Euclidean => euclideanDistance a b
  | Dot => dotProductDistance a b
  end.

(** The similarity [search] derives from a distance. *)
Definition similarityOf (metric : DistanceMetric) (distance : R) : R :=
  match metric with
  | Cosine => 1 - distance
  | Dot => - distance
  | Euclidean => 1 / (1 + distance)
  end.
End Numeric.

(** ** The arithmetic of [number] *)

(** The numbers of the program are IEEE 754 doubles. Where a property
    depends on the rounding ([cosineDistance] of a vector with itself),
    the function is read over an interface of the operations it uses: the
    four operations of arithmetic, [Math.sqrt], [Math.max], [Math.min], the
    test [x === 0], and the number that arithmetic on [undefined] gives. *)
Module Num.

Class Arithmetic := {
  number : Type;
  n_zero : number;
  n_one : number;
  n_minus_one : number;
  n_add : number -> number -> number;
  n_sub : number -> number -> number;
  n_mul : number -> number -> number;
  n_div : number -> number -> number;
  n_sqrt : number -> number;
  n_max : number -> number -> number;
  n_min : number -> number -> number;
  n_is_zero : number -> bool;
  n_nan : number
}.

Section Generic.
Context `{arith : Arithmetic}.

(** The loop of [cosineDistance]: [i] runs over [a], and [b[i]] is
    [undefined], in arithmetic not a number, where [b] is shorter. *)
Fixpoint cosine_loop (needNormA needNormB : bool) (a b : list number)
    (acc : number * number * number) : number * number * number :=
  match a with
  | [] => acc
  | ai :: a' =>
      let bi := hd n_nan b in
      let '(dot, nA, nB) := acc in
      cosine_loop needNormA needNormB a' (tl b)
        (n_add dot (n_mul ai bi),
         if needNormA then n_add nA (n_mul ai ai) else nA,
         if needNormB then n_add nB (n_mul bi bi) else nB)
  end.

Definition cosineDistance (a b : list number) (normA normB : option number) : number :=
  let needNormA := match normA with None => true | Some _ => false end in
  let needNormB := match normB with None => true | Some _ => false end in
  let '(dot, nA, nB) :=
    cosine_loop needNormA needNormB a b (n_zero, default n_zero normA, default n_zero normB) in
  let nA := if needNormA then n_sqrt nA else nA in
  let nB := if needNormB then n_sqrt nB else nB in
  let denom := n_mul nA nB in
  if n_is_zero denom then n_one
  else
    let similarity := n_max n_minus_one (n_min n_one (n_div dot denom)) in
    n_sub n_one similarity.

Definition computeNorm (vector : list number) : number :=
  n_sqrt (fold_left (fun sum x => n_add sum (n_mul x x)) vector n_zero).

(** [similarity = 1 - distance], as [search] derives it under the cosine
    metric. *)
Definition similarity (distance : number) : number := n_sub n_one distance.
End Generic.

(** The doubles themselves. [Math.max] and [Math.min] answer [NaN] when an
    argument is [NaN], and take [+0] for larger than [-0]. *)
Definition max64 (x y : PrimFloat.float) : PrimFloat.float :=
  if PrimFloat.is_nan x || PrimFloat.is_nan y then PrimFloat.nan
  else if PrimFloat.ltb x y then y
  else if PrimFloat.ltb y x then x
  else if PrimFloat.get_sign x then y else x.

Definition min64 (x y : PrimFloat.float) : PrimFloat.float :=
  if PrimFloat.is_nan x || PrimFloat.is_nan y then PrimFloat.nan
  else if PrimFloat.ltb x y then x
  else if PrimFloat.ltb y x then y
  else if PrimFloat.get_sign x then x else y.

Definition Binary64 : Arithmetic :=
  {| number := PrimFloat.float;
     n_zero := PrimFloat.of_uint63 (Uint63.of_Z 0);
     n_one := PrimFloat.of_uint63 (Uint63.of_Z 1);
     n_minus_one := PrimFloat.opp (PrimFloat.of_uint63 (Uint63.of_Z 1));
     n_add := PrimFloat.add;
     n_sub := PrimFloat.sub;
     n_mul := PrimFloat.mul;
     n_div := PrimFloat.div;
     n_sqrt := PrimFloat.sqrt;
     n_max := max64;
     n_min := min64;
     n_is_zero := fun x => PrimFloat.eqb x (PrimFloat.of_uint63 (Uint63.of_Z 0));
     n_nan := PrimFloat.nan |}.

(** The double of an integer times a power of two. *)
Definition double (mantissa exponent : Z) : PrimFloat.float :=
  FloatOps.Z.ldexp
    (if (mantissa <? 0)%Z
     then PrimFloat.opp (PrimFloat.of_uint63 (Uint63.of_Z (- mantissa)))
     else PrimFloat.of_uint63 (Uint63.of_Z mantissa))
    exponent.

(** Real numbers on which every operation is followed by the rounding
    [rnd]: the doubles as long as no operation overflows and [b] is not
    shorter than [a], since the reals have neither infinities nor a value
    that is not a number. *)
Definition Rounded (rnd : R -> R) : Arithmetic :=
  {| number := R;
     n_zero := 0%R;
     n_one := 1%R;
     n_minus_one := (-1)%R;
     n_add := fun x y => rnd (x + y)%R;
     n_sub := fun x y => rnd (x - y)%R;
     n_mul := fun x y => rnd (x * y)%R;
     n_div := fun x y => rnd (x / y)%R;
     n_sqrt := fun x => rnd (sqrt x);
     n_max := Rmax;
     n_min := Rmin;
     n_is_zero := fun x => if Req_dec_T x 0 then true else false;
     n_nan := 0%R |}.
End Num.

(** ** Arrays *)

Section Arrays.
Context {A : Type}.

(** [Array.prototype.sort] with a comparator: a stable sort. An element
    [x] that came before [y] stays before it unless [compare x y > 0]. *)
Fixpoint sort_insert (compare : A -> A -> R) (x : A) (l : list A) : list A :=
  match l with
  | [] => [x]
  | y :: l' =>
      if Rlt_dec 0 (compare x y) then y :: sort_insert compare x l'
      else x :: y :: l'
  end.

Definition array_sort (compare : A -> A -> R) (l : list A) : list A :=
  fold_right (sort_insert compare) [] l.

(** [l.slice(0, end)]: a negative [end] counts from the end of [l]. *)
Definition slice0 (stop : Z) (l : list A) : list A :=
  let len := Z.of_nat (length l) in
  let final := if (stop <? 0)%Z then Z.max (len + stop) 0 else Z.min stop len in
  firstn (Z.to_nat final) l.
End Arrays.

Section VectorStoreClass.
Context `{bm25 : BM25}.

Record VectorStore := {
  documents : list (string * StoredDocument);
  dimensions : Z;
  distance : DistanceMetric;
  bm25Index : option BM25Index
}.

Definition with_documents (docs : list (string * StoredDocument)) (s : VectorStore) :=
  {| documents := docs; dimensions := dimensions s;
     distance := distance s; bm25Index := bm25Index s |}.

Definition with_bm25Index (idx : option BM25Index) (s : VectorStore) :=
  {| documents := documents s; dimensions := dimensions s;
     distance := distance s; bm25Index := idx |}.

(** [new VectorStore(options)]: [options.distance || 'cosine']. *)
Definition new_VectorStore (options : VectorStoreOptions) : VectorStore :=
  {| documents := [];
     dimensions := opt_dimensions options;
     distance := default Cosine (opt_distance options);
     bm25Index := None |}.

Definition size (s : VectorStore) : Z := Z.of_nat (length (documents s)).

(** The object handed to [BM25Index.addDocument]:
    [{ content: doc.content, ...doc.metadata }]. *)
Definition bm25_fields (content : string) (metadata : option Metadata) : Metadata :=
  OMap.spread [("content"%string, JString content)] (default [] metadata).

Definition add (doc : VectorDocument) : M VectorStore unit :=
  fun s =>
    if negb (Z.of_nat (length (doc_vector doc)) =? dimensions s)%Z then
      throw (DimensionMismatch (dimensions s) (length (doc_vector doc))) s
    else
      let norm :=
        if DistanceMetric_eqb (distance s) Cosine
        then Some (computeNorm (doc_vector doc)) else None in
      let stored :=
        {| sd_id := doc_id doc;
           sd_content := doc_content doc;
           sd_vector := doc_vector doc;
           sd_metadata := doc_metadata doc;
           sd_norm := norm |} in
      let s1 := with_documents (OMap.set (doc_id doc) stored (documents s)) s in
      let s2 :=
        match bm25Index s1 with
        | Some idx =>
            with_bm25Index
              (Some (bm25_addDocument idx (doc_id doc)
                       (bm25_fields (doc_content doc) (doc_metadata doc)))) s1
        | None => s1
        end in
      ret tt s2.

Fixpoint addMany (docs : list VectorDocument) : M VectorStore unit :=
  match docs with
  | [] => ret tt
  | doc :: docs' => add doc ;;; addMany docs'
  end.

Definition remove (id : string) : M VectorStore bool :=
  fun s =>
    let deleted := OMap.has id (documents s) in
    let s1 := with_documents (OMap.delete id (documents s)) s in
    let s2 :=
      match bm25Index s1 with
      | Some idx => if deleted then with_bm25Index (Some (bm25_removeDocument idx id)) s1 else s1
      | None => s1
      end in
    ret deleted s2.

Definition clear : M VectorStore unit :=
  fun s =>
    let s1 := with_documents [] s in
    let s2 :=
      match bm25Index s1 with
      | Some idx => with_bm25Index (Some (bm25_clear idx)) s1
      | None => s1
      end in
    ret tt s2.

(** The index [configureBM25] builds: a new one, fed with the stored
    documents in their order. *)
Definition build_index (textFields : list string) (s : VectorStore) : BM25Index :=
  fold_left
    (fun idx doc =>
       bm25_addDocument idx (sd_id doc) (bm25_fields (sd_content doc) (sd_metadata doc)))
    (OMap.values (documents s))
    (bm25_new textFields).

Definition configureBM25 (textFields : list string) : M VectorStore unit :=
  fun s => ret tt (with_bm25Index (Some (build_index textFields s)) s).

(** One turn of the loop of [search] over [documents.values()]. *)
Definition search_step (metric : DistanceMetric) (queryVector : list R)
    (queryNorm : option R) (minSimilarity : R)
    (results : list SearchResult) (doc : StoredDocument) : list SearchResult :=
  let distance := calculateDistance metric queryVector (sd_vector doc) queryNorm (sd_norm doc) in
  let similarity := similarityOf metric distance in
  if Rlt_dec similarity minSimilarity then results
  else results ++ [ {| sr_id := sd_id doc;
                       sr_content := sd_content doc;
                       sr_distance := distance;
                       sr_similarity := similarity;
                       sr_metadata := sd_metadata doc |} ].

Definition by_distance (a b : SearchResult) : R := (sr_distance a - sr_distance b)%R.

Definition search (queryVector : list R) (k : Z) (minSimilarity : R)
    (s : VectorStore) : Result (list SearchResult) :=
  if negb (Z.of_nat (length queryVector) =? dimensions s)%Z then
    Throw (QueryDimensionMismatch (dimensions s) (length queryVector))
  else if (size s =? 0)%Z then Ok []
  else
    let queryNorm :=
      if DistanceMetric_eqb (distance s) Cosine
      then Some (computeNorm queryVector) else None in
    let results :=
      fold_left (search_step (distance s) queryVector queryNorm minSimilarity)
        (OMap.values (documents s)) [] in
    let results := array_sort by_distance results in
    Ok (slice0 (Z.min k (Z.of_nat (length results))) results).

(** [keywordSearch] configures the keyword index on first use. *)
Definition keywordSearch (query : string) (k : Z) : M VectorStore (list BM25SearchResult) :=
  fun s =>
    match bm25Index s with
    | Some idx => ret (bm25_search idx query k) s
    | None =>
        let idx := build_index ["content"%string] s in
        ret (bm25_search idx query k) (with_bm25Index (Some idx) s)
    end.

Definition get (id : string) (s : VectorStore) : option VectorDocument :=
  match OMap.get id (documents s) with
  | None => None
  | Some doc =>
      Some {| doc_id := sd_id doc;
              doc_content := sd_content doc;
              doc_vector := sd_vector doc;
              doc_metadata := sd_metadata doc |}
  end.

Record ExportedStore := {
  ex_dimensions : Z;
  ex_distance : DistanceMetric;
  ex_documents : list VectorDocument
}.

Definition export (s : VectorStore) : ExportedStore :=
  {| ex_dimensions := dimensions s;
     ex_distance := distance s;
     ex_documents :=
       map (fun doc => {| doc_id := sd_id doc;
                          doc_content := sd_content doc;
                          doc_vector := sd_vector doc;
                          doc_metadata := sd_metadata doc |})
         (OMap.values (documents s)) |}.

(** [VectorStore.import(data)]: a fresh store, then [add] for each
    document; a throwing [add] aborts the import. *)
Definition import (data : ExportedStore) : Result VectorStore :=
  let store := new_VectorStore {| opt_dimensions := ex_dimensions data;
                                  opt_distance := Some (ex_distance data) |} in
  match addMany (ex_documents data) store with
  | (Ok _, store') => Ok store'
  | (Throw e, _) => Throw e
  end.
End VectorStoreClass.

(** ** Hybrid search *)

Record VectorSearchResult := {
  vr_id : string;
  vr_distance : R;
  vr_similarity : R;
  vr_metadata : option Metadata
}.

Record HybridSearchResult := {
  hr_id : string;
  hr_score : R;
  hr_vectorSimilarity : option R;
  hr_keywordScore : option R;
  hr_metadata : option Metadata
}.

Record FusionParams := {
  fp_alpha : option R
}.

(** [HybridSearch.ts] is not part of the sources at hand either: the store
    and the memory take [hybridFusion] as an interface. *)
Class HybridSearch := {
  hybridFusion :
    list VectorSearchResult -> list BM25SearchResult -> Z -> FusionMethod ->
    FusionParams -> list HybridSearchResult
}.

Record HybridSearchOptions := {
  hs_mode : SearchMode;
  hs_k : Z;
  hs_queryVector : option (list R);
  hs_keywords : option string;
  hs_alpha : option R;
  hs_fusionMethod : option FusionMethod
}.

Section VectorStoreHybrid.
Context `{bm25 : BM25} `{fusion : HybridSearch}.

(** [{ ...r.metadata, content }]. *)
Definition with_content (metadata : option Metadata) (content : JsonValue) : Metadata :=
  OMap.spread (default [] metadata) [("content"%string, content)].

(** [!keywords]: an absent and an empty string are both refused. *)
Definition given_keywords (keywords : option string) : option string :=
  match keywords with
  | Some EmptyString => None
  | other => other
  end.

Definition hybridSearch (options : HybridSearchOptions) : M VectorStore (list HybridSearchResult) :=
  let k := hs_k options in
  let alpha := default (1 / 2)%R (hs_alpha options) in
  let fusionMethod := default Rrf (hs_fusionMethod options) in
  match hs_mode options with
  | ModeVector =>
      match hs_queryVector options with
      | None => throw (QueryVectorRequired ModeVector)
      | Some queryVector =>
          results <- (fun s => liftResult (search queryVector k 0 s) s) ;;
          ret (map (fun r => {| hr_id := sr_id r;
                                hr_score := sr_similarity r;
                                hr_vectorSimilarity := Some (sr_similarity r);
                                hr_keywordScore := None;
                                hr_metadata :=
                                  Some (with_content (sr_metadata r) (JString (sr_content r))) |})
                 results)
      end
  | ModeKeyword =>
      match given_keywords (hs_keywords options) with
      | None => throw (KeywordsRequired ModeKeyword)
      | Some keywords =>
          results <- keywordSearch keywords k ;;
          docs <- gets documents ;;
          ret (map (fun r =>
                      let content :=
                        match OMap.get (bm_id r) docs with
                        | Some doc => JString (sd_content doc)
                        | None => JUndefined
                        end in
                      {| hr_id := bm_id r;
                         hr_score := bm_score r;
                         hr_vectorSimilarity := None;
                         hr_keywordScore := Some (bm_score r);
                         hr_metadata := Some (with_content (bm_metadata r) content) |})
                 results)
      end
  | ModeHybrid =>
      match hs_queryVector options with
      | None => throw (QueryVectorRequired ModeHybrid)
      | Some queryVector =>
          match given_keywords (hs_keywords options) with
          | None => throw (KeywordsRequired ModeHybrid)
          | Some keywords =>
              let fetchK := Z.max (k * 3) 50 in
              vectorResults <- (fun s => liftResult (search queryVector fetchK 0 s) s) ;;
              keywordResults <- keywordSearch keywords fetchK ;;
              let vectorForFusion :=
                map (fun r => {| vr_id := sr_id r;
                                 vr_distance := sr_distance r;
                                 vr_similarity := sr_similarity r;
                                 vr_metadata :=
                                   Some (with_content (sr_metadata r) (JString (sr_content r))) |})
                  vectorResults in
              ret (hybridFusion vectorForFusion keywordResults k fusionMethod
                     {| fp_alpha := Some alpha |})
          end
      end
  end.
End VectorStoreHybrid.

(** ** Weighted and reciprocal-rank fusion, from the specification *)

Module FusionSpec.
Section Spec.
Local Open Scope R_scope.

(** Modelled from the spec: [hybridFusion] of the missing [HybridSearch.ts],
    after section 4.3. The spec does not say what a list whose scores are
    all equal normalises to; that value is the parameter [flat]. *)
Variable flat : R.

(** Modelled from the spec: the least score of a list ([HybridSearch.ts] is
    missing), for the min-max normalisation of section 4.3. *)
Definition list_min (scores : list R) : R :=
  match scores with
  | [] => 0
  | x :: rest => fold_left Rmin rest x
  end.

(** Modelled from the spec: the greatest score of a list ([HybridSearch.ts]
    is missing), for the min-max normalisation of section 4.3. *)
Definition list_max (scores : list R) : R :=
  match scores with
  | [] => 0
  | x :: rest => fold_left Rmax rest x
  end.

(** Modelled from the spec: "each list's scores are independently min-max
    normalized to [0,1]" (section 4.3; [HybridSearch.ts] is missing). *)
Definition normalize (scores : list R) (x : R) : R :=
  let lo := list_min scores in
  let hi := list_max scores in
  if Req_dec_T hi lo then flat else (x - lo) / (hi - lo).

(** Modelled from the spec: the entry of a document in the vector list
    ([HybridSearch.ts] is missing). *)
Definition find_vector (id : string) (vs : list VectorSearchResult) : option VectorSearchResult :=
  List.find (fun r => String.eqb (vr_id r) id) vs.

(** Modelled from the spec: the entry of a document in the keyword list
    ([HybridSearch.ts] is missing). *)
Definition find_keyword (id : string) (ks : list BM25SearchResult) : option BM25SearchResult :=
  List.find (fun r => String.eqb (bm_id r) id) ks.

(** Modelled from the spec: "each list is treated as 1-based ranked
    positions" (section 4.3; [HybridSearch.ts] is missing). *)
Fixpoint rank_of (id : string) (ids : list string) : option nat :=
  match ids with
  | [] => None
  | x :: rest =>
      if String.eqb x id then Some 1%nat
      else option_map S (rank_of id rest)
  end.

(** Modelled from the spec: "union of ids" (section 4.3; [HybridSearch.ts]
    is missing), the vector hits in their order, then the keyword hits not
    among them. *)
Definition union_ids (vs : list VectorSearchResult) (ks : list BM25SearchResult) : list string :=
  map vr_id vs ++
  map bm_id (List.filter (fun r => negb (existsb (String.eqb (bm_id r)) (map vr_id vs))) ks).

(** Modelled from the spec: "score(doc) = alpha * vecNorm(doc) +
    (1 - alpha) * kwNorm(doc), missing-from-a-list contributes 0 for that
    term" (section 4.3; [HybridSearch.ts] is missing). *)
Definition weighted_score (alpha : R) (vs : list VectorSearchResult)
    (ks : list BM25SearchResult) (id : string) : R :=
  let vecNorm :=
    match find_vector id vs with
    | Some r => normalize (map vr_similarity vs) (vr_similarity r)
    | None => 0
    end in
  let kwNorm :=
    match find_keyword id ks with
    | Some r => normalize (map bm_score ks) (bm_score r)
    | None => 0
    end in
  alpha * vecNorm + (1 - alpha) * kwNorm.

(** Modelled from the spec: "score(doc) = sum over lists of
    1/(rank_in_list + c), default c = 60; a document absent from one list
    contributes 0 for that list" (section 4.3; [HybridSearch.ts] is
    missing). *)
Definition rrf_score (c : R) (vs : list VectorSearchResult)
    (ks : list BM25SearchResult) (id : string) : R :=
  let part (rank : option nat) :=
    match rank with
    | Some n => 1 / (INR n + c)
    | None => 0
    end in
  part (rank_of id (map vr_id vs)) + part (rank_of id (map bm_id ks)).

(** Modelled from the spec: a fused result, "each with its available
    component scores attached" (sections 3 and 4.3; [HybridSearch.ts] is
    missing); the metadata are those of the vector hit, else of the keyword
    hit. *)
Definition fused (score : string -> R) (vs : list VectorSearchResult)
    (ks : list BM25SearchResult) (id : string) : HybridSearchResult :=
  {| hr_id := id;
     hr_score := score id;
     hr_vectorSimilarity := option_map vr_similarity (find_vector id vs);
     hr_keywordScore := option_map bm_score (find_keyword id ks);
     hr_metadata :=
       match find_vector id vs with
       | Some r => vr_metadata r
       | None => match find_keyword id ks with
                 | Some r => bm_metadata r
                 | None => None
                 end
       end |}.

(** Modelled from the spec: the comparator of "sorted descending by
    combined score" (section 4.3; [HybridSearch.ts] is missing). *)
Definition by_score_desc (a b : HybridSearchResult) : R := hr_score b - hr_score a.

(** Modelled from the spec: [merge(vectorResults, keywordResults, k, method,
    params)], "union of ids, sorted descending by combined score, top-k
    kept" (section 4.3; [HybridSearch.ts] is missing). The sort is the
    stable sort of the language. *)
Definition merge (vs : list VectorSearchResult) (ks : list BM25SearchResult)
    (k : Z) (method : FusionMethod) (params : FusionParams) : list HybridSearchResult :=
  let score :=
    match method with
    | Rrf => rrf_score 60 vs ks
    | Weighted => weighted_score (default (1 / 2) (fp_alpha params)) vs ks
    end in
  firstn (Z.to_nat k)
    (array_sort by_score_desc (map (fused score vs ks) (union_ids vs ks))).
End Spec.

(** Modelled from the spec: the fusion of section 4.3 as the [hybridFusion]
    that [VectorStore.ts] imports from the missing [HybridSearch.ts]. *)
Definition instance (flat : R) : HybridSearch := {| hybridFusion := merge flat |}.
End FusionSpec.

(** ** LLMProvider.ts *)

Inductive Role := system | user | assistant | tool.

Definition Role_name (r : Role) : string :=
  match r with
  | system => "system"
  | user => "user"
  | assistant => "assistant"
  | tool => "tool"
  end.

Record ToolCall := {
  tc_id : string;
  tc_name : string;
  tc_arguments : Metadata
}.

Record Message := {
  role : Role;
  content : string;
  toolCallId : option string;
  toolCalls : option (list ToolCall)
}.

(** The optional method [embed] of a provider; [chat] plays no part in the
    memory. The provider is outside the program: its answer to a call is
    any function of the texts, a list of vectors or an error. *)
Record LLMProvider := {
  provider_embed : option (list string -> Result (list (list R)))
}.

(** ** Strings *)

(** A string is held as its UTF-8 encoding, the way the string literals
    of this file are. [bytes] writes a string by the values of its bytes. *)
Definition bytes (values : list nat) : string :=
  fold_right (fun n rest => String (ascii_of_nat n) rest) EmptyString values.

(** The white space and the line terminators that [String.prototype.trim]
    removes, by the encoding of the code point: TAB, LF, VT, FF, CR and
    SPACE in one byte; U+00A0 in two; U+1680, U+2000 to U+200A, U+2028,
    U+2029, U+202F, U+205F, U+3000 and U+FEFF in three. *)
Definition space1 (c1 : ascii) : bool :=
  let b1 := nat_of_ascii c1 in
  ((9 <=? b1) && (b1 <=? 13)) || (b1 =? 32).

Definition space2 (c1 c2 : ascii) : bool :=
  (nat_of_ascii c1 =? 194) && (nat_of_ascii c2 =? 160).

Definition space3 (c1 c2 c3 : ascii) : bool :=
  let b1 := nat_of_ascii c1 in
  let b2 := nat_of_ascii c2 in
  let b3 := nat_of_ascii c3 in
  ((b1 =? 225) && (b2 =? 154) && (b3 =? 128))
  || ((b1 =? 226) && (b2 =? 128)
      && (((128 <=? b3) && (b3 <=? 138)) || (b3 =? 168) || (b3 =? 169) || (b3 =? 175)))
  || ((b1 =? 226) && (b2 =? 129) && (b3 =? 159))
  || ((b1 =? 227) && (b2 =? 128) && (b3 =? 128))
  || ((b1 =? 239) && (b2 =? 187) && (b3 =? 191)).

(** [s.trimStart()]: the white space at the start of [s] is dropped, one
    code point after the other. *)
Fixpoint trimStart (s : string) : string :=
  match s with
  | EmptyString => EmptyString
  | String c1 rest1 =>
      if space1 c1 then trimStart rest1
      else
        match rest1 with
        | EmptyString => s
        | String c2 rest2 =>
            if space2 c1 c2 then trimStart rest2
            else
              match rest2 with
              | EmptyString => s
              | String c3 rest3 => if space3 c1 c2 c3 then trimStart rest3 else s
              end
        end
  end.

(** [s.trimEnd()]: [s] up to the point from which only white space
    follows. *)
Fixpoint trimEnd (s : string) : string :=
  match s with
  | EmptyString => EmptyString
  | String c rest =>
      match trimStart s with
      | EmptyString => EmptyString
      | String _ _ => String c (trimEnd rest)
      end
  end.

Definition trim (s : string) : string := trimEnd (trimStart s).

(** Truthiness of a string: [!s] holds of the empty string only. *)
Definition is_empty (s : string) : bool :=
  match s with EmptyString => true | String _ _ => false end.

(** [(v as string) || fallback] for a value read from an object. *)
Definition string_or (v : option JsonValue) (fallback : string) : string :=
  match v with
  | Some (JString s) => if is_empty s then fallback else s
  | _ => fallback
  end.

(** ** RAGMemory.ts *)

Record RAGConfig := {
  cfg_sessionId : string;
  cfg_dimensions : Z;
  cfg_maxContextMessages : option Z;
  cfg_minSimilarity : option R;
  cfg_searchMode : option SearchMode;
  cfg_persistToStaticData : option bool
}.

Record HistoryItem := {
  h_content : string;
  h_role : string;
  h_similarity : R;
  h_metadata : option Metadata
}.

Record RAGContext := {
  ctx_messages : list Message;
  relevantHistory : list HistoryItem
}.

(** What [IExecuteFunctions] contributes: the id of the workflow; its
    static data is a part of the world below. *)
Record ExecuteFunctions := {
  workflow_id : option string
}.

(** What [JSON.parse] yields in [loadFromStaticData], read through the type
    the source casts it to: a field is of its declared type where present,
    but [store], [distance], [documents], a document's [vector] and
    [metadata], and [messages] may be absent. A parsed value that is not an
    object is the record without [store]: reading [data.store.dimensions]
    throws for both. *)
Record RawDocument := {
  raw_id : string;
  raw_content : string;
  raw_vector : option (list R);
  raw_metadata : option Metadata
}.

Record RawStore := {
  raw_dimensions : Z;
  raw_distance : option DistanceMetric;
  raw_documents : option (list RawDocument)
}.

Record RawData := {
  raw_store : option RawStore;
  raw_messages : option (list Message)
}.

Record SavedData := {
  saved_store : ExportedStore;
  saved_messages : list Message
}.

(** [JSON.parse] and [JSON.stringify] belong to the host: [JSON_parse]
    answers [None] where [JSON.parse] throws a [SyntaxError]. *)
Class Json := {
  JSON_parse : string -> option RawData;
  JSON_stringify : SavedData -> string
}.

Inductive Event :=
| EmbedCall (texts : list string)
| SearchCall (mode : SearchMode).

Definition STORE_TTL : Z := 60 * 60 * 1000.

Section RAGMemoryClass.
Context `{bm25 : BM25} `{fusion : HybridSearch} `{json : Json}.

Record Entry := {
  store : VectorStore;
  messages : list Message;
  lastAccess : Z
}.

(** The state the memory lives in: the module-level registry [ragStores],
    the static data of the workflow, the clock read by [Date.now()] (which
    stands still during one synchronous call), the values to come from
    [Math.random().toString(36).substring(2, 7)], and, as a record of what
    happened, the calls made to the embedder and to the searches. *)
Record World := {
  ragStores : gmap string Entry;
  staticData : gmap string JsonValue;
  clock : Z;
  entropy : list string;
  trace : list Event
}.

Definition set_ragStores (m : gmap string Entry) (w : World) : World :=
  {| ragStores := m; staticData := staticData w; clock := clock w;
     entropy := entropy w; trace := trace w |}.

Definition set_staticData (d : gmap string JsonValue) (w : World) : World :=
  {| ragStores := ragStores w; staticData := d; clock := clock w;
     entropy := entropy w; trace := trace w |}.

Definition set_entropy (l : list string) (w : World) : World :=
  {| ragStores := ragStores w; staticData := staticData w; clock := clock w;
     entropy := l; trace := trace w |}.

Definition record_event (e : Event) (w : World) : World :=
  {| ragStores := ragStores w; staticData := staticData w; clock := clock w;
     entropy := entropy w; trace := trace w ++ [e] |}.

Definition with_store (st : VectorStore) (e : Entry) : Entry :=
  {| store := st; messages := messages e; lastAccess := lastAccess e |}.

Definition with_messages (msgs : list Message) (e : Entry) : Entry :=
  {| store := store e; messages := msgs; lastAccess := lastAccess e |}.

Definition with_lastAccess (t : Z) (e : Entry) : Entry :=
  {| store := store e; messages := messages e; lastAccess := t |}.

Definition dateNow : M World Z := gets clock.

Definition random36 : M World string :=
  fun w => match entropy w with
           | [] => (Ok EmptyString, w)
           | x :: rest => (Ok x, set_entropy rest w)
           end.

Definition log (e : Event) : M World unit := modify (record_event e).

(** The loop of [cleanupExpiredStores] over [ragStores.entries()]: every
    entry is visited, and deleted from the map when it is idle for longer
    than the TTL. *)
Definition sweep (now : Z) (stores : gmap string Entry) : gmap string Entry :=
  map_fold
    (fun key value acc =>
       if (now - lastAccess value >? STORE_TTL)%Z then delete key acc else acc)
    stores stores.

Definition cleanupExpiredStores : M World unit :=
  now <- dateNow ;;
  modify (fun w => set_ragStores (sweep now (ragStores w)) w).

Record RAGMemory := {
  config : RAGConfig;
  executeFunctions : option ExecuteFunctions;
  llmProvider : LLMProvider;
  storeKey : string
}.

(** The constructor: the defaults, overridden by the keys of [config] that
    are present. An optional key is absent ([None]) or present with a
    value: a key that is present and holds [undefined], which would put
    [undefined] in the place of the default, is not represented. *)
Definition new_RAGMemory (config : RAGConfig) (llmProvider : LLMProvider)
    (executeFunctions : option ExecuteFunctions) : RAGMemory :=
  let workflowId :=
    match executeFunctions with
    | Some ef => default "default"%string (workflow_id ef)
    | None => "default"%string
    end in
  {| config :=
       {| cfg_sessionId := cfg_sessionId config;
          cfg_dimensions := cfg_dimensions config;
          cfg_maxContextMessages := Some (default 10%Z (cfg_maxContextMessages config));
          cfg_minSimilarity := Some (default (1 / 2)%R (cfg_minSimilarity config));
          cfg_searchMode := Some (default ModeHybrid (cfg_searchMode config));
          cfg_persistToStaticData := Some (default false (cfg_persistToStaticData config)) |};
     executeFunctions := executeFunctions;
     llmProvider := llmProvider;
     storeKey := workflowId ++ "__" ++ cfg_sessionId config |}.

Definition persists (self : RAGMemory) : bool :=
  default false (cfg_persistToStaticData (config self)).

Definition staticKey (self : RAGMemory) : string :=
  "rag_" ++ cfg_sessionId (config self).

(** [VectorStore.import] as it runs on parsed data: reading a field of an
    absent [store], iterating absent [documents] and reading the length of
    an absent [vector] throw a [TypeError]. *)
Fixpoint addMany_raw (docs : list RawDocument) : M VectorStore unit :=
  match docs with
  | [] => ret tt
  | doc :: docs' =>
      match raw_vector doc with
      | None => throw (TypeError "Cannot read properties of undefined (reading 'length')")
      | Some vector =>
          add {| doc_id := raw_id doc; doc_content := raw_content doc;
                 doc_vector := vector; doc_metadata := raw_metadata doc |} ;;;
          addMany_raw docs'
      end
  end.

Definition import_raw (data : option RawStore) : Result VectorStore :=
  match data with
  | None => Throw (TypeError "Cannot read properties of undefined (reading 'dimensions')")
  | Some data =>
      let fresh := new_VectorStore {| opt_dimensions := raw_dimensions data;
                                      opt_distance := raw_distance data |} in
      match raw_documents data with
      | None => Throw (TypeError "data.documents is not iterable")
      | Some docs =>
          match addMany_raw docs fresh with
          | (Ok _, restored) => Ok restored
          | (Throw e, _) => Throw e
          end
      end
  end.

(** [loadFromStaticData]: whatever is thrown between [JSON.parse] and the
    [return] is caught and answered by [null]. *)
Definition loadFromStaticData (self : RAGMemory) : M World (option Entry) :=
  match executeFunctions self with
  | None => ret None
  | Some _ =>
      stored <- gets (fun w => staticData w !! staticKey self) ;;
      match stored with
      | Some (JString text) =>
          match JSON_parse text with
          | None => ret None
          | Some data =>
              match import_raw (raw_store data) with
              | Throw _ => ret None
              | Ok restored =>
                  now <- dateNow ;;
                  ret (Some {| store := snd (configureBM25 ["content"%string] restored);
                               messages := default [] (raw_messages data);
                               lastAccess := now |})
              end
          end
      | _ => ret None
      end
  end.

Definition fresh_store (self : RAGMemory) : VectorStore :=
  snd (configureBM25 ["content"%string]
         (new_VectorStore {| opt_dimensions := cfg_dimensions (config self);
                             opt_distance := Some Cosine |})).

Definition register (key : string) (e : Entry) : M World unit :=
  modify (fun w => set_ragStores (<[key := e]> (ragStores w)) w).

Definition getStore (self : RAGMemory) : M World (VectorStore * list Message) :=
  cleanupExpiredStores ;;;
  found <- gets (fun w => ragStores w !! storeKey self) ;;
  entry <-
    match found with
    | Some entry => ret entry
    | None =>
        loaded <-
          (if persists self && bool_decide (is_Some (executeFunctions self))
           then
             loaded <- loadFromStaticData self ;;
             match loaded with
             | Some entry => register (storeKey self) entry ;;; ret (Some entry)
             | None => ret None
             end
           else ret None) ;;
        match loaded with
        | Some entry => ret entry
        | None =>
            now <- dateNow ;;
            let entry := {| store := fresh_store self; messages := []; lastAccess := now |} in
            register (storeKey self) entry ;;; ret entry
        end
    end ;;
  now <- dateNow ;;
  modify (fun w => set_ragStores (alter (with_lastAccess now) (storeKey self) (ragStores w)) w) ;;;
  ret (store entry, messages entry).

(** A method called on the [store] obtained from [getStore]: the object is
    the one the registry entry holds, so what the method does to it shows
    in the entry. *)
Definition on_store {A : Type} (self : RAGMemory) (local : VectorStore)
    (method : M VectorStore A) : M World A :=
  fun w =>
    let '(r, changed) := method local in
    (r, set_ragStores (alter (with_store changed) (storeKey self) (ragStores w)) w).

Definition push_message (self : RAGMemory) (message : Message) : M World unit :=
  modify (fun w =>
    set_ragStores
      (alter (fun e => with_messages (messages e ++ [message]) e) (storeKey self) (ragStores w))
      w).

(** [embed]: the first of the vectors the provider returns, [None] where
    [embeddings[0]] is [undefined]. *)
Definition embed (self : RAGMemory) (text : string) : M World (option (list R)) :=
  match provider_embed (llmProvider self) with
  | None => throw EmbeddingsUnsupported
  | Some call =>
      log (EmbedCall [text]) ;;;
      embeddings <- liftResult (call [text]) ;;
      ret (head embeddings)
  end.

Definition saveToStaticData (self : RAGMemory) : M World unit :=
  match executeFunctions self with
  | None => ret tt
  | Some _ =>
      found <- getStore self ;;
      let data := {| saved_store := export (fst found); saved_messages := snd found |} in
      modify (fun w =>
        set_staticData (<[staticKey self := JString (JSON_stringify data)]> (staticData w)) w)
  end.

(** [message.role === 'system' || !message.content?.trim()]. *)
Definition skipped (message : Message) : bool :=
  match role message with
  | system => true
  | _ => is_empty (trim (content message))
  end.

Definition message_metadata (message : Message) (now : Z) : Metadata :=
  OMap.spread
    [("role"%string, JString (Role_name (role message)));
     ("timestamp"%string, JNumber (IZR now))]
    match toolCallId message with
    | Some id => if is_empty id then [] else [("toolCallId"%string, JString id)]
    | None => []
    end.

Definition addMessage (self : RAGMemory) (message : Message) : M World unit :=
  found <- getStore self ;;
  if skipped message then ret tt
  else
    vector <- embed self (content message) ;;
    now <- dateNow ;;
    suffix <- random36 ;;
    let docId := ("msg_" ++ pretty now ++ "_" ++ suffix)%string in
    stamp <- dateNow ;;
    match vector with
    | None => throw (TypeError "Cannot read properties of undefined (reading 'length')")
    | Some vector =>
        on_store self (fst found)
          (add {| doc_id := docId;
                  doc_content := content message;
                  doc_vector := vector;
                  doc_metadata := Some (message_metadata message stamp) |})
    end ;;;
    push_message self message ;;;
    if persists self then saveToStaticData self else ret tt.

Fixpoint addMessages (self : RAGMemory) (newMessages : list Message) : M World unit :=
  match newMessages with
  | [] => ret tt
  | msg :: rest => addMessage self msg ;;; addMessages self rest
  end.

(** [if (this.config.minSimilarity)]: a threshold that is present and not 0. *)
Definition threshold (self : RAGMemory) : option R :=
  match cfg_minSimilarity (config self) with
  | Some m => if Req_dec_T m 0 then None else Some m
  | None => None
  end.

Definition getContext (self : RAGMemory) (query : string) (k : option Z) : M World RAGContext :=
  found <- getStore self ;;
  let maxK := default (default 10%Z (cfg_maxContextMessages (config self))) k in
  queryVector <- embed self query ;;
  relevantHistory <-
    (if (size (fst found) >? 0)%Z then
       match cfg_searchMode (config self) with
       | Some ModeHybrid =>
           log (SearchCall ModeHybrid) ;;;
           results <- on_store self (fst found)
                        (hybridSearch {| hs_mode := ModeHybrid;
                                         hs_k := maxK;
                                         hs_queryVector := queryVector;
                                         hs_keywords := Some query;
                                         hs_alpha := Some (1 / 2)%R;
                                         hs_fusionMethod := None |}) ;;
           ret (map (fun r =>
                       {| h_content := string_or (OMap.get "content" (default [] (hr_metadata r))) "";
                          h_role := string_or (OMap.get "role" (default [] (hr_metadata r))) "unknown";
                          h_similarity := default (hr_score r) (hr_vectorSimilarity r);
                          h_metadata := hr_metadata r |})
                  results)
       | Some ModeKeyword =>
           log (SearchCall ModeKeyword) ;;;
           results <- on_store self (fst found) (keywordSearch query maxK) ;;
           indexed <- gets (fun w => default (fst found) (store <$> ragStores w !! storeKey self)) ;;
           ret (map (fun r =>
                       let doc := get (bm_id r) indexed in
                       {| h_content :=
                            match doc with
                            | Some d => if is_empty (doc_content d) then "" else doc_content d
                            | None => ""
                            end;
                          h_role :=
                            string_or
                              (match doc with
                               | Some d => OMap.get "role" (default [] (doc_metadata d))
                               | None => None
                               end) "unknown";
                          h_similarity := bm_score r;
                          h_metadata := bm_metadata r |})
                  results)
       | _ =>
           log (SearchCall ModeVector) ;;;
           match queryVector with
           | None => throw (TypeError "Cannot read properties of undefined (reading 'length')")
           | Some queryVector =>
               results <- liftResult
                            (search queryVector maxK
                               (default 0%R (cfg_minSimilarity (config self))) (fst found)) ;;
               ret (map (fun r =>
                           {| h_content := sr_content r;
                              h_role := string_or (OMap.get "role" (default [] (sr_metadata r))) "unknown";
                              h_similarity := sr_similarity r;
                              h_metadata := sr_metadata r |})
                      results)
           end
       end
     else ret []) ;;
  let relevantHistory :=
    match threshold self with
    | Some m => List.filter (fun h => if Rle_dec m (h_similarity h) then true else false) relevantHistory
    | None => relevantHistory
    end in
  ret {| ctx_messages := snd found; relevantHistory := relevantHistory |}.

Definition getMessages (self : RAGMemory) : M World (list Message) :=
  found <- getStore self ;;
  ret (snd found).

Definition RAGMemory_clear (self : RAGMemory) : M World unit :=
  modify (fun w => set_ragStores (delete (storeKey self) (ragStores w)) w) ;;;
  if persists self && bool_decide (is_Some (executeFunctions self))
  then modify (fun w => set_staticData (delete (staticKey self) (staticData w)) w)
  else ret tt.

Definition getStats (self : RAGMemory) : M World (Z * Z * Z) :=
  found <- getStore self ;;
  ret (Z.of_nat (length (snd found)), size (fst found), cfg_dimensions (config self)).
End RAGMemoryClass.

(** * Part II: the vocabulary of the properties *)

Section NumericVocabulary.
Local Open Scope R_scope.

End NumericVocabulary.

(** What [add] files under [doc.id] in a store of the given metric. *)
Definition stored_of (metric : DistanceMetric) (doc : VectorDocument) : StoredDocument :=
  {| sd_id := doc_id doc;
     sd_content := doc_content doc;
     sd_vector := doc_vector doc;
     sd_metadata := doc_metadata doc;
     sd_norm := if DistanceMetric_eqb metric Cosine
                then Some (computeNorm (doc_vector doc)) else None |}.

(** The encodings of the code points that count as white space. *)
Definition whitespace_encodings : list string :=
  map bytes
    [ [9]; [10]; [11]; [12]; [13]; [32]; [194; 160]; [225; 154; 128];
      [226; 128; 128]; [226; 128; 129]; [226; 128; 130]; [226; 128; 131];
      [226; 128; 132]; [226; 128; 133]; [226; 128; 134]; [226; 128; 135];
      [226; 128; 136]; [226; 128; 137]; [226; 128; 138];
      [226; 128; 168]; [226; 128; 169]; [226; 128; 175];
      [226; 129; 159]; [227; 128; 128]; [239; 187; 191] ]%nat.

(** A string that is empty or made of white space only. *)
Inductive whitespace_only : string -> Prop :=
| whitespace_only_empty : whitespace_only EmptyString
| whitespace_only_more (space rest : string) :
    space ∈ whitespace_encodings -> whitespace_only rest ->
    whitespace_only (space ++ rest).

(** The white space [trimStart] drops first, and what follows it. *)
Definition leading_space (s : string) : option string :=
  match s with
  | EmptyString => None
  | String c1 rest1 =>
      if space1 c1 then Some rest1
      else
        match rest1 with
        | EmptyString => None
        | String c2 rest2 =>
            if space2 c1 c2 then Some rest2
            else
              match rest2 with
              | EmptyString => None
              | String c3 rest3 => if space3 c1 c2 c3 then Some rest3 else None
              end
        end
  end.

(** A document on which [add] throws during the import. *)
Definition bad_vector (dims : Z) (doc : RawDocument) : Prop :=
  match raw_vector doc with
  | None => True
  | Some vector => Z.of_nat (length vector) <> dims
  end.

(** The events that record a search. *)
Definition is_search (ev : Event) : Prop := exists mode, ev = SearchCall mode.

(** An exported store as [JSON.parse] returns it after [JSON.stringify]:
    every field is present, but for the metadata of a document without. *)
Definition raw_of_export (data : ExportedStore) : RawStore :=
  {| raw_dimensions := ex_dimensions data;
     raw_distance := Some (ex_distance data);
     raw_documents :=
       Some (map (fun doc => {| raw_id := doc_id doc;
                                raw_content := doc_content doc;
                                raw_vector := Some (doc_vector doc);
                                raw_metadata := doc_metadata doc |})
               (ex_documents data)) |}.

Section RoundingVocabulary.
Local Open Scope R_scope.

(** What is assumed of the rounding of the doubles: it keeps 0 and 1, it
    is monotone, and between [lo] and [hi] its relative error is at most
    [u]. Rounding to the nearest double is such a rounding, with [u] the
    unit roundoff and [lo] and [hi] the ends of the normal range. *)
Definition rounds (rnd : R -> R) (u lo hi : R) : Prop :=
  rnd 0 = 0 /\ rnd 1 = 1 /\
  (forall x y, x <= y -> rnd x <= rnd y) /\
  (forall x, lo <= x <= hi -> x * (1 - u) <= rnd x <= x * (1 + u)).

(** The unit roundoff of the doubles, their least normal number, and the
    power of two that starts their last binade. *)
Definition unit_roundoff : R := / 2 ^ 53.

Definition least_normal : R := / 2 ^ 1022.

Definition greatest_binade : R := 2 ^ 1023.
End RoundingVocabulary.

Section ArithmeticVocabulary.
Context `{arith : Num.Arithmetic}.

(** The sum of the squares of the coordinates, as the loops of
    [cosineDistance] and of [computeNorm] accumulate it from [init]. *)
Definition squares_from (init : Num.number) (v : list Num.number) : Num.number :=
  fold_left (fun sum x => Num.n_add sum (Num.n_mul x x)) v init.

Definition sum_of_squares (v : list Num.number) : Num.number := squares_from Num.n_zero v.

(** What [cosineDistance] computes from the sum of the squares of a
    vector that is compared with itself. *)
Definition identical_distance (squares : Num.number) : Num.number :=
  let norm := Num.n_sqrt squares in
  let denom := Num.n_mul norm norm in
  if Num.n_is_zero denom then Num.n_one
  else
    Num.n_sub Num.n_one
      (Num.n_max Num.n_minus_one (Num.n_min Num.n_one (Num.n_div squares denom))).
End ArithmeticVocabulary.

Section StoreVocabulary.
Context `{bm25 : BM25}.

(** The vector of [doc] has the dimensions of the store. *)
Definition fits (s : VectorStore) (doc : VectorDocument) : Prop :=
  Z.of_nat (length (doc_vector doc)) = dimensions s.

(** The invariant of a store: a document is filed under its own id, ids are
    not repeated, every vector has the store's dimensions, and the cached
    norm is the one [add] computes for the store's metric. *)
Definition entry_ok (dims : Z) (metric : DistanceMetric) (kd : string * StoredDocument) : Prop :=
  fst kd = sd_id (snd kd) /\
  Z.of_nat (length (sd_vector (snd kd))) = dims /\
  sd_norm (snd kd) =
    (if DistanceMetric_eqb metric Cosine then Some (computeNorm (sd_vector (snd kd))) else None).

(** Every entry of the map is in order, and no id is filed twice. *)
Definition store_ok (s : VectorStore) : Prop :=
  Forall (entry_ok (dimensions s) (distance s)) (documents s) /\
  NoDup (OMap.keys (documents s)).

(** The stores a program can hold: built by the constructor and changed by
    the public methods only ([documents] is private). A caller that writes
    into the vector arrays that [export] hands out is not considered. *)
Inductive reachable : VectorStore -> Prop :=
| reach_new options : reachable (new_VectorStore options)
| reach_add s doc : reachable s -> reachable (snd (add doc s))
| reach_remove s id : reachable s -> reachable (snd (remove id s))
| reach_clear s : reachable s -> reachable (snd (clear s))
| reach_configureBM25 s textFields : reachable s -> reachable (snd (configureBM25 textFields s))
| reach_keywordSearch s query k : reachable s -> reachable (snd (keywordSearch query k s)).
End StoreVocabulary.

Section MemoryVocabulary.
Context `{bm25 : BM25} `{fusion : HybridSearch} `{json : Json}.
Implicit Types (w : World) (self : RAGMemory) (e : Entry).

(** What [loadFromStaticData] returns: it reads the static data and the
    clock, and changes nothing. *)
Definition loaded_entry self (data : gmap string JsonValue) (now : Z) : option Entry :=
  match executeFunctions self with
  | None => None
  | Some _ =>
      match data !! staticKey self with
      | Some (JString text) =>
          match JSON_parse text with
          | None => None
          | Some parsed =>
              match import_raw (raw_store parsed) with
              | Throw _ => None
              | Ok restored =>
                  Some {| store := snd (configureBM25 ["content"%string] restored);
                          messages := default [] (raw_messages parsed);
                          lastAccess := now |}
              end
          end
      | _ => None
      end
  end.

(** The entry [getStore] creates for a session it does not find. *)
Definition fresh_entry self (now : Z) : Entry :=
  {| store := fresh_store self; messages := []; lastAccess := now |}.

(** The entry [getStore] settles on: the live one, else the one restored
    from the static data when persistence is on, else a fresh one. *)
Definition resolved_entry self w : Entry :=
  match sweep (clock w) (ragStores w) !! storeKey self with
  | Some e => e
  | None =>
      match (if persists self && bool_decide (is_Some (executeFunctions self))
             then loaded_entry self (staticData w) (clock w) else None) with
      | Some e => e
      | None => fresh_entry self (clock w)
      end
  end.

(** No entry of the registry is idle for longer than the TTL. *)
Definition no_expired w : Prop :=
  forall key e, ragStores w !! key = Some e -> (clock w - lastAccess e <= STORE_TTL)%Z.

(** A step that keeps the registry free of expired entries. *)
Definition preserves {A : Type} (c : M World A) : Prop :=
  forall w, no_expired w -> no_expired (snd (c w)).

(** A step that leaves the registry free of expired entries, whatever it
    finds. *)
Definition establishes {A : Type} (c : M World A) : Prop :=
  forall w, no_expired (snd (c w)).

(** The values under the session's key that the restore gives up on: not
    a string; a string [JSON.parse] rejects; parsed data without [store],
    or without [documents]; a document without [vector], or with a vector
    whose length is not the stored [dimensions]. *)
Inductive unusable : option JsonValue -> Prop :=
| unusable_not_string (v : option JsonValue) :
    (forall text, v <> Some (JString text)) -> unusable v
| unusable_not_json (text : string) :
    JSON_parse text = None -> unusable (Some (JString text))
| unusable_no_store (text : string) (data : RawData) :
    JSON_parse text = Some data -> raw_store data = None ->
    unusable (Some (JString text))
| unusable_no_documents (text : string) (data : RawData) (st : RawStore) :
    JSON_parse text = Some data -> raw_store data = Some st ->
    raw_documents st = None ->
    unusable (Some (JString text))
| unusable_bad_vector (text : string) (data : RawData) (st : RawStore)
    (docs : list RawDocument) :
    JSON_parse text = Some data -> raw_store data = Some st ->
    raw_documents st = Some docs ->
    Exists (bad_vector (raw_dimensions st)) docs ->
    unusable (Some (JString text)).
End MemoryVocabulary.

(** ** Vocabulary of hybrid search *)





Section HybridVocabulary.
Context `{bm25 : BM25} `{fusion : HybridSearch}.

End HybridVocabulary.

(** ** Sample data *)

(** A keyword index that records nothing and finds nothing. It fills the
    interface in the closed examples below; the theorems hold for every
    index. *)
Definition NoKeywords : BM25 :=
  {| BM25Index := unit;
     bm25_new := fun _ => tt;
     bm25_addDocument := fun _ _ _ => tt;
     bm25_removeDocument := fun _ _ => tt;
     bm25_clear := fun _ => tt;
     bm25_search := fun _ _ _ => [] |}.

(** A document of one coordinate, its id for content. *)
Definition sample_doc (id : string) (x : R) : VectorDocument :=
  {| doc_id := id; doc_content := id; doc_vector := [x]; doc_metadata := None |}.

(** A one-dimensional store under the dot-product metric holding two
    documents, ["a"] at 1 and ["b"] at 2. *)
Definition store_ab : @VectorStore NoKeywords :=
  snd (addMany [sample_doc "a" 1; sample_doc "b" 2]
         (new_VectorStore {| opt_dimensions := 1; opt_distance := Some Dot |})).

(** A keyword index for the closed examples. It lists the documents it is
    given, and it finds the first k of the listed documents, with score 1
    when the content is the query and 1/4 when not. *)
Definition ListedKeywords : BM25 :=
  {| BM25Index := list (string * Metadata);
     bm25_new := fun _ => [];
     bm25_addDocument := fun idx id fields => idx ++ [(id, fields)];
     bm25_removeDocument := fun idx id =>
       List.filter (fun entry => negb (String.eqb (fst entry) id)) idx;
     bm25_clear := fun _ => [];
     bm25_search := fun idx query k =>
       firstn (Z.to_nat k)
         (map (fun entry =>
                 {| bm_id := fst entry;
                    bm_score :=
                      if String.eqb (string_or (OMap.get "content" (snd entry)) "") query
                      then 1%R else (1 / 4)%R;
                    bm_metadata := Some (snd entry) |})
            idx) |}.


(** A host whose [JSON.parse] accepts one text, the JSON object with a
    [store] of dimension 1 holding the document ["d"] with vector [[1]],
    and with neither [distance] nor [messages]; it rejects every other
    text. *)
Definition SampleJson : Json :=
  {| JSON_parse := fun text =>
       if String.eqb text "saved-without-messages" then
         Some {| raw_store :=
                   Some {| raw_dimensions := 1;
                           raw_distance := None;
                           raw_documents :=
                             Some [ {| raw_id := "d"; raw_content := "hello";
                                       raw_vector := Some [1%R];
                                       raw_metadata := None |} ] |};
                 raw_messages := None |}
       else None;
     JSON_stringify := fun _ => EmptyString |}.

(** A provider without [embed], and two memories for the session ["s"]:
    one without persistence, one persisting to the static data. *)
Definition no_embedder : LLMProvider := {| provider_embed := None |}.

Definition session_config (persist : bool) : RAGConfig :=
  {| cfg_sessionId := "s"; cfg_dimensions := 1;
     cfg_maxContextMessages := None; cfg_minSimilarity := None;
     cfg_searchMode := None; cfg_persistToStaticData := Some persist |}.

Definition memory_plain : RAGMemory :=
  new_RAGMemory (session_config false) no_embedder None.

Definition memory_persistent : RAGMemory :=
  new_RAGMemory (session_config true) no_embedder (Some {| workflow_id := Some "wf"%string |}).

Definition hello : Message :=
  {| role := user; content := "hello"; toolCallId := None; toolCalls := None |}.

Definition system_note : Message :=
  {| role := system; content := "be brief"; toolCallId := None; toolCalls := None |}.

(** A user message of white space only: a space, U+3000 and a line feed. *)
Definition blank_note : Message :=
  {| role := user; content := bytes [32; 227; 128; 128; 10]%nat;
     toolCallId := None; toolCalls := None |}.

(** The registry holds the session of [memory_plain] with one message,
    last accessed at time 0; the clock is at [now]. *)
Definition world_at (now : Z) : @World NoKeywords :=
  {| ragStores :=
       {[ storeKey memory_plain :=
            {| store := @fresh_store NoKeywords memory_plain;
               messages := [hello]; lastAccess := 0 |} ]};
     staticData := ∅;
     clock := now;
     entropy := [];
     trace := [] |}.

(** An empty registry, and [text] persisted for the session ["s"]. *)
Definition world_saved (text : string) : @World NoKeywords :=
  {| ragStores := ∅;
     staticData := {[ "rag_s"%string := JString text ]};
     clock := 5;
     entropy := [];
     trace := [] |}.

(** ** Vocabulary of the further properties *)

Section SearchVocabulary.
Context `{bm25 : BM25}.

(** The result [search] builds for a stored document: the distance under
    the store's metric, with the cached norms when the metric is cosine,
    and the similarity derived from it. *)
Definition result_of (metric : DistanceMetric) (queryVector : list R)
    (doc : StoredDocument) : SearchResult :=
  let queryNorm :=
    if DistanceMetric_eqb metric Cosine then Some (computeNorm queryVector) else None in
  let distance :=
    calculateDistance metric queryVector (sd_vector doc) queryNorm (sd_norm doc) in
  {| sr_id := sd_id doc;
     sr_content := sd_content doc;
     sr_distance := distance;
     sr_similarity := similarityOf metric distance;
     sr_metadata := sd_metadata doc |}.

(** The stored documents whose similarity to the query is not below the
    threshold, as results, in the order of the store. *)
Definition candidates (s : VectorStore) (queryVector : list R) (minSimilarity : R)
    : list SearchResult :=
  List.filter (fun r => if Rlt_dec (sr_similarity r) minSimilarity then false else true)
    (map (result_of (distance s) queryVector) (OMap.values (documents s))).
End SearchVocabulary.

Section SessionVocabulary.
Context `{bm25 : BM25} `{fusion : HybridSearch} `{json : Json}.
Implicit Types (w : World) (self : RAGMemory).

(** The document [addMessage] indexes for a message: the id made of the
    clock and the random suffix, the content of the message, its embedding,
    and the role and the time as metadata. *)
Definition message_document (message : Message) (now : Z) (suffix : string)
    (vector : list R) : VectorDocument :=
  {| doc_id := "msg_" ++ pretty now ++ "_" ++ suffix;
     doc_content := content message;
     doc_vector := vector;
     doc_metadata := Some (message_metadata message now) |}.

(** The memory writes to the static data: persistence is on and the
    execution context is there. *)
Definition saves self : bool :=
  persists self && bool_decide (is_Some (executeFunctions self)).

(** What [saveToStaticData] writes for a store and a message list. *)
Definition saved_value (st : VectorStore) (msgs : list Message) : JsonValue :=
  JString (JSON_stringify {| saved_store := export st; saved_messages := msgs |}).

(** The saved data as [JSON.parse] returns them: every field present. *)
Definition parsed_back (data : SavedData) : RawData :=
  {| raw_store := Some (raw_of_export (saved_store data));
     raw_messages := Some (saved_messages data) |}.

(** Between two states the clock stands still, and the entry under every
    key but the session's is as it was, or as the sweep leaves it. *)
Definition others_kept self w w' : Prop :=
  clock w' = clock w /\
  forall key, key <> storeKey self ->
    ragStores w' !! key = ragStores w !! key \/
    ragStores w' !! key = sweep (clock w) (ragStores w) !! key.

(** A step that touches no entry of another session, but for the sweep. *)
Definition isolated {A : Type} self (c : M World A) : Prop :=
  forall w, others_kept self w (snd (c w)).
End SessionVocabulary.

(** ** Sample data of the further properties *)

(** A provider whose embedder answers every text with the vector [[1]],
    and a memory of the session ["s"] that uses it. *)
Definition unit_embedder : LLMProvider :=
  {| provider_embed := Some (fun texts => Ok (map (fun _ => [1%R]) texts)) |}.

Definition memory_embedding : RAGMemory :=
  new_RAGMemory (session_config false) unit_embedder None.

(** A memory of another session, ["t"]. *)
Definition memory_other : RAGMemory :=
  new_RAGMemory
    {| cfg_sessionId := "t"; cfg_dimensions := 1;
       cfg_maxContextMessages := None; cfg_minSimilarity := None;
       cfg_searchMode := None; cfg_persistToStaticData := None |}
    no_embedder None.

(** The store of a session that has indexed the message [hello]. *)
Definition store_hello : @VectorStore NoKeywords :=
  snd (add {| doc_id := "d"; doc_content := "hello"; doc_vector := [1%R];
              doc_metadata := None |}
         (@fresh_store NoKeywords memory_persistent)).

(** The registry holds the session of [memory_persistent] with that store
    and the message, last accessed at time 0; the clock is at 1000. *)
Definition world_session : @World NoKeywords :=
  {| ragStores :=
       {[ storeKey memory_persistent :=
            {| store := store_hello; messages := [hello]; lastAccess := 0 |} ]};
     staticData := ∅;
     clock := 1000;
     entropy := [];
     trace := [] |}.

(** A host whose [JSON.stringify] writes one text, which its [JSON.parse]
    reads as the saved data of that session. *)
Definition SessionJson : Json :=
  {| JSON_parse := fun text =>
       if String.eqb text "saved-session" then
         Some (parsed_back {| saved_store := export store_hello;
                              saved_messages := [hello] |})
       else None;
     JSON_stringify := fun _ => "saved-session"%string |}.


(** A memory of the session ["s"] that searches by keyword, with the
    default threshold of 1/2, and the state in which the session has
    indexed the documents ["d"], of content [hello], and ["e"], of content
    [bye], in that keyword index. *)
Definition memory_keyword : RAGMemory :=
  new_RAGMemory
    {| cfg_sessionId := "s"; cfg_dimensions := 1;
       cfg_maxContextMessages := None; cfg_minSimilarity := None;
       cfg_searchMode := Some ModeKeyword; cfg_persistToStaticData := None |}
    unit_embedder None.

Definition store_listed : @VectorStore ListedKeywords :=
  snd (addMany
         [ {| doc_id := "d"; doc_content := "hello"; doc_vector := [1%R];
              doc_metadata := None |};
           {| doc_id := "e"; doc_content := "bye"; doc_vector := [1%R];
              doc_metadata := None |} ]
         (@fresh_store ListedKeywords memory_keyword)).

Definition world_listed : @World ListedKeywords :=
  {| ragStores :=
       {[ storeKey memory_keyword :=
            {| store := store_listed; messages := [hello]; lastAccess := 0 |} ]};
     staticData := ∅;
     clock := 1000;
     entropy := [];
     trace := [] |}.

(** The context of the query [hello] in that state: of the two keyword
    hits, the one that reaches the threshold. *)
Definition context_listed : RAGContext :=
  {| ctx_messages := [hello];
     relevantHistory :=
       [ {| h_content := "hello"; h_role := "unknown"; h_similarity := 1%R;
            h_metadata := Some [("content"%string, JString "hello")] |} ] |}.

(** * Part III: the properties *)

(** ** Cosine distance of a vector to itself *)

Section IdenticalVectors.
Context `{arith : Num.Arithmetic}.

(** On a vector and itself the three accumulators of the loop run through
    the same additions and multiplications. *)
Lemma cosine_loop_self (needA needB : bool) (a : list Num.number) (d x y : Num.number) :
  Num.cosine_loop needA needB a a (d, x, y)
  = (squares_from d a,
     if needA then squares_from x a else x,
     if needB then squares_from y a else y).
Proof.
  revert d x y. induction a as [|ai a IH]; intros d x y; simpl.
  - destruct needA, needB; reflexivity.
  - rewrite IH. destruct needA, needB; reflexivity.
Qed.

(** Whatever the arithmetic, the distance of a vector to itself is a
    function of the sum of its squares, with the norms computed in the
    loop as with the norms [computeNorm] has cached. *)
Lemma cosineDistance_self (a : list Num.number) (normA normB : option Num.number) :
  normA = None \/ normA = Some (Num.computeNorm a) ->
  normB = None \/ normB = Some (Num.computeNorm a) ->
  Num.cosineDistance a a normA normB = identical_distance (sum_of_squares a).
Proof.
  intros [-> | ->] [-> | ->]; unfold Num.cosineDistance;
    rewrite cosine_loop_self; reflexivity.
Qed.
End IdenticalVectors.

Section ExactArithmetic.
Local Open Scope R_scope.

(** Without rounding, the loop is the loop of the store's model. *)
Lemma exact_cosine_loop (needA needB : bool) (a b : list R) (acc : R * R * R) :
  length a = length b ->
  @Num.cosine_loop (Num.Rounded (fun x => x)) needA needB a b acc
  = fold_left
      (fun '(dot, nA, nB) '(ai, bi) =>
         (dot + ai * bi,
          if needA then nA + ai * ai else nA,
          if needB then nB + bi * bi else nB))
      (combine a b) acc.
Proof.
  revert b acc. induction a as [|ai a IH]; intros [|bi b] [[dot nA] nB] Hlen;
    simpl in *; try discriminate; [reflexivity|].
  apply IH. congruence.
Qed.

Lemma exact_cosineDistance (a b : list R) (normA normB : option R) :
  length a = length b ->
  @Num.cosineDistance (Num.Rounded (fun x => x)) a b normA normB
  = cosineDistance a b normA normB.
Proof.
  intros Hlen. unfold Num.cosineDistance, cosineDistance.
  rewrite (exact_cosine_loop _ _ a b _ Hlen).
  destruct (fold_left _ _ _) as [[dot nA] nB]. simpl.
  destruct (Req_dec_T _ 0); reflexivity.
Qed.
End ExactArithmetic.

Section RoundingAnalysis.
Local Open Scope R_scope.
Variable rnd : R -> R.
Variables u lo hi : R.
Hypothesis Hrounds : rounds rnd u lo hi.
Hypothesis Hlo : 0 < lo <= u.
Hypothesis Hu : u <= 1 / 16.
Hypothesis Hhi : 4 <= hi.

Lemma sqrt_in_range (S : R) :
  4 * lo <= S <= hi / 4 -> lo <= sqrt S <= hi /\ sqrt S * sqrt S = S /\ 0 < sqrt S.
Proof.
  intros HS. assert (HS0 : 0 < S) by lra.
  pose proof (sqrt_sqrt S (Rlt_le _ _ HS0)) as Hsq.
  pose proof (sqrt_lt_R0 S HS0) as Hpos.
  split; [|split; assumption].
  destruct (Rle_dec S 1) as [H1|H1].
  - assert (sqrt S <= 1).
    { rewrite <- sqrt_1. apply sqrt_le_1; lra. }
    assert (sqrt S * sqrt S <= sqrt S * 1) by (apply Rmult_le_compat_l; lra).
    lra.
  - assert (1 <= sqrt S).
    { rewrite <- sqrt_1. apply sqrt_le_1; lra. }
    assert (sqrt S * 1 <= sqrt S * sqrt S) by (apply Rmult_le_compat_l; lra).
    lra.
Qed.

Lemma roundoff_powers :
  let a := 1 - u in let b := 1 + u in
  1 / 4 <= a * a /\ b * b <= 4 /\ 1 / 2 <= a * a * a /\ b * b * b <= 2 /\
  (1 - 5 * u) * (b * b * b) <= a /\ u * u <= u * (1 / 16).
Proof.
  intros a b. subst a b.
  assert (Hu0 : 0 < u) by lra.
  assert (Huu : u * u <= u * (1 / 16)) by (apply Rmult_le_compat_l; lra).
  assert (Huu0 : 0 <= u * u) by (apply Rmult_le_pos; lra).
  assert (Huuu : u * u * u <= u * u * (1 / 16)) by (apply Rmult_le_compat_l; lra).
  assert (Huuu0 : 0 <= u * u * u) by (apply Rmult_le_pos; lra).
  assert (Hu4 : 0 <= u * u * u * u) by (apply Rmult_le_pos; lra).
  split; [replace ((1 - u) * (1 - u)) with (1 - 2 * u + u * u) by ring; lra|].
  split; [replace ((1 + u) * (1 + u)) with (1 + 2 * u + u * u) by ring; lra|].
  split; [replace ((1 - u) * (1 - u) * (1 - u))
            with (1 - 3 * u + 3 * (u * u) - u * u * u) by ring; lra|].
  split; [replace ((1 + u) * (1 + u) * (1 + u))
            with (1 + 3 * u + 3 * (u * u) + u * u * u) by ring; lra|].
  split; [|exact Huu].
  replace ((1 - 5 * u) * ((1 + u) * (1 + u) * (1 + u)))
    with (1 - 2 * u - 12 * (u * u) - 14 * (u * u * u) - 5 * (u * u * u * u)) by ring.
  lra.
Qed.

(** The error of the square root, of the product of the norms and of the
    quotient, each at most [u] in relative terms, leaves the quotient
    within [5 * u] of 1. *)
Lemma identical_bounds (S : R) :
  4 * lo <= S <= hi / 4 ->
  let r := rnd (sqrt S) in
  let denom := rnd (r * r) in
  let q := rnd (S / denom) in
  let dist := rnd (1 - Rmax (-1) (Rmin 1 q)) in
  denom <> 0 /\ 0 <= dist <= 8 * u /\ 1 - 8 * u <= rnd (1 - dist) <= 1.
Proof.
  intros HS r denom q dist.
  destruct Hrounds as (H0 & H1 & Hmono & Herr).
  destruct (sqrt_in_range S HS) as (Hs & Hsq & Hspos).
  destruct roundoff_powers as (Ha2 & Hb2 & Ha3 & Hb3 & Hpoly & Huu).
  set (a := 1 - u) in *. set (b := 1 + u) in *.
  assert (Hab : 15 / 16 <= a < 1 /\ 1 < b <= 17 / 16) by (unfold a, b; lra).
  set (s := sqrt S) in *.
  assert (HS0 : 0 < S) by lra.
  assert (Hr : s * a <= r <= s * b) by (apply Herr; exact Hs).
  assert (Hsa : 0 < s * a) by (apply Rmult_lt_0_compat; lra).
  assert (Hrpos : 0 < r) by lra.
  assert (Hp : S * (a * a) <= r * r <= S * (b * b)).
  { assert (s * a * (s * a) <= r * r) by (apply Rmult_le_compat; lra).
    assert (r * r <= s * b * (s * b)) by (apply Rmult_le_compat; lra).
    replace (S * (a * a)) with (s * a * (s * a)) by (rewrite <- Hsq; ring).
    replace (S * (b * b)) with (s * b * (s * b)) by (rewrite <- Hsq; ring).
    lra. }
  assert (Hprange : lo <= r * r <= hi).
  { assert (S * (1 / 4) <= S * (a * a)) by (apply Rmult_le_compat_l; lra).
    assert (S * (b * b) <= S * 4) by (apply Rmult_le_compat_l; lra).
    lra. }
  assert (Hrr : 0 < r * r) by lra.
  assert (Hd : r * r * a <= denom <= r * r * b) by (apply Herr; exact Hprange).
  assert (Hdpos : 0 < denom).
  { assert (0 < r * r * a) by (apply Rmult_lt_0_compat; lra). lra. }
  split; [lra|].
  assert (HdS : S * (a * a * a) <= denom <= S * (b * b * b)).
  { assert (S * (a * a) * a <= r * r * a) by (apply Rmult_le_compat_r; lra).
    assert (r * r * b <= S * (b * b) * b) by (apply Rmult_le_compat_r; lra).
    replace (S * (a * a * a)) with (S * (a * a) * a) by ring.
    replace (S * (b * b * b)) with (S * (b * b) * b) by ring.
    lra. }
  set (t := S / denom).
  assert (Ht : t * denom = S) by (unfold t; field; lra).
  assert (Htpos : 0 < t) by (unfold t; apply Rdiv_lt_0_compat; lra).
  assert (Htlow : 1 <= t * (b * b * b)).
  { apply (Rmult_le_reg_l S); [exact HS0|].
    assert (t * denom <= t * (S * (b * b * b))) by (apply Rmult_le_compat_l; lra).
    replace (S * (t * (b * b * b))) with (t * (S * (b * b * b))) by ring. lra. }
  assert (Hthigh : t * (a * a * a) <= 1).
  { apply (Rmult_le_reg_l S); [exact HS0|].
    assert (t * (S * (a * a * a)) <= t * denom) by (apply Rmult_le_compat_l; lra).
    replace (S * (t * (a * a * a))) with (t * (S * (a * a * a))) by ring. lra. }
  assert (Htrange : 1 / 2 <= t <= 2).
  { assert (t * (b * b * b) <= t * 2) by (apply Rmult_le_compat_l; lra).
    assert (t * (1 / 2) <= t * (a * a * a)) by (apply Rmult_le_compat_l; lra).
    lra. }
  assert (Hq : t * a <= q <= t * b) by (apply Herr; lra).
  assert (Hqlow : 1 - 5 * u <= q).
  { assert ((1 - 5 * u) * 1 <= (1 - 5 * u) * (t * (b * b * b)))
      by (apply Rmult_le_compat_l; lra).
    assert (t * ((1 - 5 * u) * (b * b * b)) <= t * a) by (apply Rmult_le_compat_l; lra).
    replace ((1 - 5 * u) * (t * (b * b * b)))
      with (t * ((1 - 5 * u) * (b * b * b))) in * by ring.
    lra. }
  set (sim := Rmax (-1) (Rmin 1 q)) in *.
  assert (Hsim : 1 - 5 * u <= sim <= 1).
  { unfold sim, Rmin. destruct (Rle_dec 1 q); unfold Rmax;
      match goal with |- context [Rle_dec ?x ?y] => destruct (Rle_dec x y) end; lra. }
  assert (Hdist : 0 <= dist <= 5 * u * b).
  { unfold dist. split.
    - rewrite <- H0. apply Hmono. lra.
    - apply Rle_trans with (rnd (5 * u)); [apply Hmono; lra|].
      apply Herr. lra. }
  assert (H5 : 5 * u * b = 5 * u + 5 * (u * u)) by (unfold b; ring).
  split; [lra|]. split.
  - assert (Hone : (1 - dist) * a <= rnd (1 - dist) <= (1 - dist) * b) by (apply Herr; lra).
    assert ((1 - 5 * u * b) * a <= (1 - dist) * a) by (apply Rmult_le_compat_r; lra).
    assert (0 <= u * u * u).
    { apply Rmult_le_pos; [apply Rmult_le_pos|]; lra. }
    replace ((1 - 5 * u * b) * a) with (1 - 6 * u + 5 * (u * u * u)) in *
      by (unfold a, b; ring).
    lra.
  - rewrite <- H1. apply Hmono. lra.
Qed.

Lemma squares_of_zeros (a : list R) :
  Forall (fun x => x = 0) a -> @sum_of_squares (Num.Rounded rnd) a = 0.
Proof.
  destruct Hrounds as (H0 & _).
  unfold sum_of_squares. simpl.
  induction 1 as [|x a -> _ IH]; simpl; [reflexivity|].
  rewrite Rmult_0_l, H0, Rplus_0_l, H0. exact IH.
Qed.
End RoundingAnalysis.

Section IdenticalVectorsRounded.
Local Open Scope R_scope.

(** C4, as amended: a vector compared with itself, in any arithmetic that
    rounds each of its operations with a relative error of at most [u]
    (at most 1/16) over a range from [lo] to [hi], as the doubles do with
    [u] = 2^-53 over their normal range. When the sum of squares the loop
    computes lies well inside that range, the cosine distance is between 0
    and [8 * u] and the cosine similarity between [1 - 8 * u] and 1, with
    the norms computed in the loop as with the cached norms. When the
    computed sum of squares is 0, which it is for the zero vector of any
    length, the guard on the denominator gives distance 1 and
    similarity 0. *)
Theorem cosine_identical_within_epsilon
    (rnd : R -> R) (u lo hi : R) (a : list R) (normA normB : option R) :
  rounds rnd u lo hi ->
  0 < lo <= u -> u <= 1 / 16 -> 4 <= hi ->
  normA = None \/ normA = Some (@Num.computeNorm (Num.Rounded rnd) a) ->
  normB = None \/ normB = Some (@Num.computeNorm (Num.Rounded rnd) a) ->
  let squares := @sum_of_squares (Num.Rounded rnd) a in
  let distance := @Num.cosineDistance (Num.Rounded rnd) a a normA normB in
  let similarity := @Num.similarity (Num.Rounded rnd) distance in
  (Forall (fun x => x = 0) a -> squares = 0) /\
  (squares = 0 -> distance = 1 /\ similarity = 0) /\
  (4 * lo <= squares <= hi / 4 ->
   0 <= distance <= 8 * u /\ 1 - 8 * u <= similarity <= 1).
Proof.
  intros Hr Hlo Hu Hhi HA HB squares distance similarity.
  split; [apply (squares_of_zeros rnd u lo hi Hr)|].
  subst similarity distance.
  rewrite (@cosineDistance_self (Num.Rounded rnd) a normA normB HA HB).
  fold squares. unfold identical_distance, Num.similarity. simpl.
  pose proof Hr as (H0 & H1 & Hmono & Herr).
  split.
  - intros ->. rewrite sqrt_0, H0, Rmult_0_l, H0.
    destruct (Req_dec_T 0 0) as [_|N]; [|exfalso; apply N; reflexivity].
    split; [reflexivity|]. now rewrite Rminus_diag.
  - intros Hrange.
    destruct (identical_bounds rnd u lo hi Hr Hlo Hu Hhi squares Hrange) as (Hd & Hdist & Hsim).
    destruct (Req_dec_T _ 0) as [E|_]; [contradiction|].
    split; assumption.
Qed.
End IdenticalVectorsRounded.

Section IdenticalVectorsSamples.
Local Open Scope R_scope.

Lemma exact_rounds : rounds (fun x => x) unit_roundoff least_normal greatest_binade.
Proof.
  assert (Hu : 0 < unit_roundoff)
    by (apply Rinv_0_lt_compat, pow_lt; lra).
  split; [reflexivity|]. split; [reflexivity|]. split; [auto|].
  intros x [Hx _].
  assert (0 < least_normal) by (apply Rinv_0_lt_compat, pow_lt; lra).
  assert (0 <= x * unit_roundoff) by (apply Rmult_le_pos; lra).
  lra.
Qed.

Lemma binary64_constants :
  0 < least_normal <= unit_roundoff /\ unit_roundoff <= 1 / 16 /\
  least_normal <= 1 /\ 128 <= greatest_binade.
Proof.
  unfold least_normal, unit_roundoff, greatest_binade.
  assert (H53 : 0 < 2 ^ 53) by (apply pow_lt; lra).
  assert (H1022 : 0 < 2 ^ 1022) by (apply pow_lt; lra).
  assert (Hle : 2 ^ 53 <= 2 ^ 1022) by (apply Rle_pow; [lra | lia]).
  assert (H4 : 2 ^ 4 <= 2 ^ 53) by (apply Rle_pow; [lra | lia]).
  assert (H0 : 2 ^ 0 <= 2 ^ 1022) by (apply Rle_pow; [lra | lia]).
  assert (H7 : 2 ^ 7 <= 2 ^ 1023) by (apply Rle_pow; [lra | lia]).
  split; [split; [apply Rinv_0_lt_compat, H1022 | apply Rinv_le_contravar; assumption]|].
  split.
  - replace (1 / 16) with (/ 2 ^ 4) by (simpl; lra).
    apply Rinv_le_contravar; [apply pow_lt; lra | exact H4].
  - split.
    + rewrite <- Rinv_1. apply Rinv_le_contravar; [lra|]. simpl in H0. exact H0.
    + replace 128 with (2 ^ 7) by (simpl; lra). exact H7.
Qed.

Lemma cosine_identical_within_epsilon_witness :
  0 <= @Num.cosineDistance (Num.Rounded (fun x => x)) [3; 4] [3; 4] None None
    <= 8 * unit_roundoff /\
  cosineDistance [3; 4] [3; 4] None None <= 8 * unit_roundoff.
Proof.
  destruct binary64_constants as (Hlo & Hu & Hlo1 & Hhi).
  destruct (cosine_identical_within_epsilon (fun x => x)
              unit_roundoff least_normal greatest_binade [3; 4] None None
              exact_rounds Hlo Hu) as (_ & _ & H).
  - lra.
  - left. reflexivity.
  - left. reflexivity.
  - destruct H as [H _].
    + unfold sum_of_squares. simpl. lra.
    + split; [exact H|].
      rewrite <- (exact_cosineDistance [3; 4] [3; 4] None None eq_refl). apply H.
Defined.

(** C4 fails at the zero vector, in doubles as in any arithmetic: the sum
    of the squares is 0, the guard on the denominator returns the distance
    1, and the similarity is 0, with the norms computed in the loop as with
    the cached norms. *)
Lemma cosine_identical_zero_vector :
  @Num.cosineDistance Num.Binary64 [Num.double 0 0; Num.double 0 0]
    [Num.double 0 0; Num.double 0 0] None None = Num.double 1 0 /\
  @Num.similarity Num.Binary64
    (@Num.cosineDistance Num.Binary64 [Num.double 0 0; Num.double 0 0]
       [Num.double 0 0; Num.double 0 0] None None) = Num.double 0 0 /\
  @Num.cosineDistance Num.Binary64 [Num.double 0 0; Num.double 0 0]
    [Num.double 0 0; Num.double 0 0]
    (Some (@Num.computeNorm Num.Binary64 [Num.double 0 0; Num.double 0 0]))
    (Some (@Num.computeNorm Num.Binary64 [Num.double 0 0; Num.double 0 0]))
  = Num.double 1 0.
Proof. split; [|split]; vm_compute; reflexivity. Qed.

(** In doubles, outside the range of the theorem: the squares of
    [2^-600] underflow to 0, and the guard returns the distance 1; the
    squares of [2^600] overflow, and the distance is not a number. Inside
    it the distance need not be 0: for [[1; 1]] it is 2^-52. *)
Lemma cosine_identical_in_doubles :
  @Num.cosineDistance Num.Binary64 [Num.double 1 (-600)] [Num.double 1 (-600)] None None
  = Num.double 1 0 /\
  PrimFloat.is_nan
    (@Num.cosineDistance Num.Binary64 [Num.double 1 600] [Num.double 1 600] None None)
  = true /\
  @Num.cosineDistance Num.Binary64 [Num.double 1 0; Num.double 1 0]
    [Num.double 1 0; Num.double 1 0] None None = Num.double 1 (-52) /\
  @Num.cosineDistance Num.Binary64 [Num.double 3 0; Num.double 4 0]
    [Num.double 3 0; Num.double 4 0] None None = Num.double 0 0 /\
  PrimFloat.is_nan
    (@Num.cosineDistance Num.Binary64 [Num.double 1 0; Num.double 2 0] [Num.double 1 0]
       None None)
  = true.
Proof. repeat split; vm_compute; reflexivity. Qed.
End IdenticalVectorsSamples.

(** ** Insertion-ordered maps *)

Section OMapFacts.
Context {V : Type}.
Implicit Types (m : list (string * V)) (v : V) (key : string).

Lemma omap_get_set_eq key v m : OMap.get key (OMap.set key v m) = Some v.
Proof.
  induction m as [|[k w] m IH]; simpl.
  - now rewrite String.eqb_refl.
  - destruct (String.eqb k key) eqn:E; simpl; rewrite E; auto.
Qed.

Lemma omap_get_set_ne key key' v m :
  key <> key' -> OMap.get key' (OMap.set key v m) = OMap.get key' m.
Proof.
  intros Hne. induction m as [|[k w] m IH]; simpl.
  - apply String.eqb_neq in Hne. now rewrite Hne.
  - destruct (String.eqb k key) eqn:E; simpl.
    + apply String.eqb_eq in E. subst k.
      apply String.eqb_neq in Hne. now rewrite Hne.
    + destruct (String.eqb k key'); auto.
Qed.

Lemma omap_set_length_present key v m :
  OMap.has key m = true -> length (OMap.set key v m) = length m.
Proof.
  unfold OMap.has. induction m as [|[k w] m IH]; simpl; [discriminate|].
  destruct (String.eqb k key); simpl; auto.
Qed.

Lemma omap_set_keys_present key v m :
  OMap.has key m = true -> OMap.keys (OMap.set key v m) = OMap.keys m.
Proof.
  unfold OMap.has. induction m as [|[k w] m IH]; simpl; [discriminate|].
  destruct (String.eqb k key); simpl; intros H; [reflexivity|].
  f_equal. auto.
Qed.

Lemma omap_has_in key m : OMap.has key m = true <-> key ∈ OMap.keys m.
Proof.
  unfold OMap.has. induction m as [|[k w] m IH]; simpl.
  - split; [discriminate | intros H; inversion H].
  - rewrite elem_of_cons. destruct (String.eqb k key) eqn:E.
    + apply String.eqb_eq in E. intuition.
    + apply String.eqb_neq in E. rewrite IH. intuition congruence.
Qed.

Lemma omap_set_absent key v m :
  key ∉ OMap.keys m -> OMap.set key v m = m ++ [(key, v)].
Proof.
  induction m as [|[k w] m IH]; simpl; intros Hn; [reflexivity|].
  rewrite not_elem_of_cons in Hn. destruct Hn as [Hne Hn].
  destruct (String.eqb k key) eqn:E.
  - apply String.eqb_eq in E. congruence.
  - f_equal. apply IH, Hn.
Qed.

Lemma omap_set_keys_absent key v m :
  key ∉ OMap.keys m -> OMap.keys (OMap.set key v m) = OMap.keys m ++ [key].
Proof.
  intros H. rewrite omap_set_absent by exact H.
  unfold OMap.keys. now rewrite map_app.
Qed.

Lemma omap_set_elem key v m k w :
  (k, w) ∈ OMap.set key v m -> (k = key /\ w = v) \/ (k, w) ∈ m.
Proof.
  induction m as [|[k0 w0] m IH]; simpl.
  - rewrite list_elem_of_singleton. intros E. inversion E. auto.
  - destruct (String.eqb k0 key) eqn:E; rewrite !elem_of_cons.
    + apply String.eqb_eq in E. subst k0.
      intros [H|H]; [inversion H; auto | auto].
    + intros [H|H]; [auto|]. destruct (IH H); auto.
Qed.

Lemma omap_set_NoDup key v m :
  NoDup (OMap.keys m) -> NoDup (OMap.keys (OMap.set key v m)).
Proof.
  intros Hnd. destruct (OMap.has key m) eqn:E.
  - now rewrite omap_set_keys_present.
  - assert (Hn : key ∉ OMap.keys m).
    { rewrite <- omap_has_in. congruence. }
    rewrite omap_set_keys_absent by exact Hn.
    apply NoDup_app. split; [exact Hnd|]. split; [|apply NoDup_singleton].
    intros x Hx Hk. apply list_elem_of_singleton in Hk. congruence.
Qed.

Lemma omap_delete_elem key m k w : (k, w) ∈ OMap.delete key m -> (k, w) ∈ m.
Proof.
  induction m as [|[k0 w0] m IH]; simpl; [tauto|].
  destruct (String.eqb k0 key); rewrite !elem_of_cons; intuition.
Qed.

Lemma omap_keys_elem k m : k ∈ OMap.keys m <-> exists w, (k, w) ∈ m.
Proof.
  unfold OMap.keys. rewrite list_elem_of_fmap. split.
  - intros [[k' w] [-> H]]. eauto.
  - intros [w H]. exists (k, w). auto.
Qed.

Lemma omap_delete_NoDup key m :
  NoDup (OMap.keys m) -> NoDup (OMap.keys (OMap.delete key m)).
Proof.
  induction m as [|[k0 w0] m IH]; simpl; [auto|].
  rewrite NoDup_cons. intros [Hnin Hnd].
  destruct (String.eqb k0 key); simpl; [exact Hnd|].
  apply NoDup_cons. split; [|auto].
  intros Hin. apply Hnin.
  apply omap_keys_elem in Hin as [w Hin].
  apply omap_keys_elem. exists w. eapply omap_delete_elem, Hin.
Qed.
End OMapFacts.

(** ** The vector store: insertion *)

Section VectorStoreFacts.
Context `{bm25 : BM25}.

Lemma add_throws (doc : VectorDocument) (s : VectorStore) :
  ~ fits s doc ->
  add doc s = (Throw (DimensionMismatch (dimensions s) (length (doc_vector doc))), s).
Proof.
  unfold fits, add. intros Hne.
  destruct (Z.eqb_spec (Z.of_nat (length (doc_vector doc))) (dimensions s)); [contradiction|].
  reflexivity.
Qed.

Lemma add_returns (doc : VectorDocument) (s : VectorStore) :
  fits s doc ->
  exists s',
    add doc s = (Ok tt, s') /\
    documents s' = OMap.set (doc_id doc) (stored_of (distance s) doc) (documents s) /\
    dimensions s' = dimensions s /\
    distance s' = distance s.
Proof.
  unfold fits, add. intros Heq.
  destruct (Z.eqb_spec (Z.of_nat (length (doc_vector doc))) (dimensions s)); [|contradiction].
  simpl. destruct (bm25Index s); eexists; (split; [reflexivity|]); auto.
Qed.

Lemma add_returns_plain (doc : VectorDocument) (s : VectorStore) :
  fits s doc -> bm25Index s = None ->
  add doc s =
    (Ok tt, with_documents (OMap.set (doc_id doc) (stored_of (distance s) doc) (documents s)) s).
Proof.
  unfold fits, add. intros Heq Hb.
  destruct (Z.eqb_spec (Z.of_nat (length (doc_vector doc))) (dimensions s)); [|contradiction].
  simpl. rewrite Hb. reflexivity.
Qed.

(** C2: [add] of a document whose vector length differs from the store's
    dimensions throws, and the store it leaves is the store it found:
    same size, and every stored document unchanged. *)
Theorem add_mismatch_throws_and_keeps_store (doc : VectorDocument) (s : VectorStore) :
  Z.of_nat (length (doc_vector doc)) <> dimensions s ->
  exists e s',
    add doc s = (Throw e, s') /\
    s' = s /\
    size s' = size s /\
    forall id, get id s' = get id s.
Proof.
  intros Hne. exists (DimensionMismatch (dimensions s) (length (doc_vector doc))), s.
  split; [apply add_throws, Hne | auto].
Qed.

Lemma get_stored_of (doc : VectorDocument) (metric : DistanceMetric) (s : VectorStore) :
  OMap.get (doc_id doc) (documents s) = Some (stored_of metric doc) ->
  get (doc_id doc) s = Some doc.
Proof. unfold get. intros ->. destruct doc; reflexivity. Qed.

(** C9: [add] of a fitting document under an id already stored succeeds,
    replaces the stored document by the new content, vector and metadata,
    keeps the number of documents, and leaves the other documents alone. *)
Theorem add_existing_id_replaces (doc : VectorDocument) (s : VectorStore) :
  Z.of_nat (length (doc_vector doc)) = dimensions s ->
  OMap.has (doc_id doc) (documents s) = true ->
  exists s',
    add doc s = (Ok tt, s') /\
    size s' = size s /\
    get (doc_id doc) s' = Some doc /\
    OMap.keys (documents s') = OMap.keys (documents s) /\
    forall id, id <> doc_id doc -> get id s' = get id s.
Proof.
  intros Hfit Hhas.
  destruct (add_returns doc s Hfit) as (s' & Hadd & Hdocs & _ & _).
  exists s'. split; [exact Hadd|].
  unfold size, get. rewrite Hdocs. repeat split.
  - now rewrite omap_set_length_present.
  - rewrite omap_get_set_eq. destruct doc; reflexivity.
  - now apply omap_set_keys_present.
  - intros id Hne. rewrite omap_get_set_ne; [reflexivity | congruence].
Qed.
End VectorStoreFacts.

(** ** Sorting and slicing *)

Section ArrayFacts.
Context {A : Type}.
Implicit Types (l : list A) (compare : A -> A -> R).

Lemma sort_insert_length compare x l :
  length (sort_insert compare x l) = S (length l).
Proof.
  induction l as [|y l IH]; simpl; [reflexivity|].
  destruct (Rlt_dec 0 (compare x y)); simpl; auto.
Qed.

Lemma array_sort_length compare l : length (array_sort compare l) = length l.
Proof.
  induction l as [|x l IH]; simpl; [reflexivity|].
  now rewrite sort_insert_length, IH.
Qed.



Lemma sort_insert_perm compare x l : Permutation (x :: l) (sort_insert compare x l).
Proof.
  induction l as [|y l IH]; simpl; [reflexivity|].
  destruct (Rlt_dec 0 (compare x y)); [|reflexivity].
  rewrite perm_swap. now constructor.
Qed.

Lemma array_sort_perm compare l : Permutation l (array_sort compare l).
Proof.
  induction l as [|x l IH]; simpl; [reflexivity|].
  rewrite <- sort_insert_perm. now constructor.
Qed.





End ArrayFacts.

(** ** The vector store: search *)

Section SearchFacts.
Context `{bm25 : BM25}.
Local Open Scope R_scope.






Lemma search_loop_candidates (metric : DistanceMetric) (q : list R) (minSimilarity : R)
    (docs : list StoredDocument) (results : list SearchResult) :
  fold_left
    (search_step metric q
       (if DistanceMetric_eqb metric Cosine then Some (computeNorm q) else None)
       minSimilarity)
    docs results
  = results ++
    List.filter (fun r => if Rlt_dec (sr_similarity r) minSimilarity then false else true)
      (map (result_of metric q) docs).
Proof.
  revert results. induction docs as [|doc docs IH]; intros results; simpl.
  - now rewrite app_nil_r.
  - rewrite IH. unfold search_step, result_of at 2. simpl.
    destruct (Rlt_dec _ minSimilarity); [reflexivity|].
    rewrite <- app_assoc. reflexivity.
Qed.

(** What [search] computes, in one piece. *)
Lemma search_eq (s : VectorStore) (q : list R) (k : Z) (minSimilarity : R) :
  Z.of_nat (length q) = dimensions s ->
  search q k minSimilarity s
  = Ok (slice0 (Z.min k (Z.of_nat (length (candidates s q minSimilarity))))
          (array_sort by_distance (candidates s q minSimilarity))).
Proof.
  intros Hdim. unfold search.
  destruct (Z.eqb_spec (Z.of_nat (length q)) (dimensions s)); [|contradiction]. simpl.
  destruct (Z.eqb_spec (size s) 0) as [Hz|_].
  - assert (Hd : documents s = []).
    { unfold size in Hz. destruct (documents s); [reflexivity | simpl in Hz; lia]. }
    unfold candidates. rewrite Hd. simpl. unfold slice0. now rewrite firstn_nil.
  - rewrite search_loop_candidates. simpl.
    fold (candidates s q minSimilarity). now rewrite array_sort_length.
Qed.

End SearchFacts.

Section SampleFacts.
Local Open Scope R_scope.

Lemma store_ab_documents :
  documents store_ab =
    [("a"%string, stored_of Dot (sample_doc "a" 1));
     ("b"%string, stored_of Dot (sample_doc "b" 2))].
Proof. reflexivity. Qed.



Lemma add_mismatch_throws_and_keeps_store_witness :
  exists e,
    add {| doc_id := "c"; doc_content := "c"; doc_vector := [3; 4]; doc_metadata := None |}
      store_ab = (Throw e, store_ab).
Proof.
  destruct (add_mismatch_throws_and_keeps_store
              {| doc_id := "c"; doc_content := "c"; doc_vector := [3; 4]; doc_metadata := None |}
              store_ab) as (e & s' & Hadd & -> & _).
  - simpl. lia.
  - exists e. exact Hadd.
Defined.

Lemma add_existing_id_replaces_witness :
  exists s',
    add (sample_doc "a" 5) store_ab = (Ok tt, s') /\
    size s' = 2%Z /\
    get "a" s' = Some (sample_doc "a" 5).
Proof.
  destruct (add_existing_id_replaces (sample_doc "a" 5) store_ab) as (s' & H1 & H2 & H3 & _).
  - reflexivity.
  - reflexivity.
  - exists s'. repeat split; assumption.
Defined.
End SampleFacts.

(** ** The vector store: export and import *)

Section RoundTrip.
Context `{bm25 : BM25}.

Lemma store_ok_with_bm25Index idx s : store_ok s -> store_ok (with_bm25Index idx s).
Proof. intros H. exact H. Qed.

Lemma add_store_ok doc s : store_ok s -> store_ok (snd (add doc s)).
Proof.
  intros [Hall Hnd].
  destruct (Z.eq_dec (Z.of_nat (length (doc_vector doc))) (dimensions s)) as [Hfit|Hne].
  - destruct (add_returns doc s Hfit) as (s' & -> & Hdocs & Hdim & Hmetric). simpl.
    unfold store_ok. rewrite Hdocs, Hdim, Hmetric. split.
    + apply Forall_forall. intros [k d] Hin.
      apply omap_set_elem in Hin as [[-> ->]|Hin].
      * repeat split; auto.
      * rewrite Forall_forall in Hall. apply (Hall _ Hin).
    + apply omap_set_NoDup, Hnd.
  - rewrite add_throws by exact Hne. split; assumption.
Qed.

Lemma remove_store_ok id s : store_ok s -> store_ok (snd (remove id s)).
Proof.
  intros [Hall Hnd].
  assert (H : store_ok (with_documents (OMap.delete id (documents s)) s)).
  { split; simpl.
    - apply Forall_forall. intros [k d] Hin.
      rewrite Forall_forall in Hall. apply Hall. eapply omap_delete_elem, Hin.
    - apply omap_delete_NoDup, Hnd. }
  unfold remove, ret. simpl. destruct (bm25Index s); [destruct (OMap.has id (documents s))|]; exact H.
Qed.

Lemma clear_store_ok s : store_ok (snd (clear s)).
Proof.
  assert (H : store_ok (with_documents [] s)).
  { split; simpl; [constructor | apply NoDup_nil_2]. }
  unfold clear, ret. simpl. destruct (bm25Index s); exact H.
Qed.

Lemma keywordSearch_store_ok query k s : store_ok s -> store_ok (snd (keywordSearch query k s)).
Proof.
  intros H. unfold keywordSearch. destruct (bm25Index s); exact H.
Qed.

Lemma reachable_store_ok s : reachable s -> store_ok s.
Proof.
  induction 1 as [options | s doc _ IH | s id _ IH | s _ IH | s fields _ IH | s q k _ IH].
  - split; simpl; [constructor | apply NoDup_nil_2].
  - apply add_store_ok, IH.
  - apply remove_store_ok, IH.
  - apply clear_store_ok.
  - exact IH.
  - apply keywordSearch_store_ok, IH.
Qed.

(** [addMany] on documents with new, pairwise distinct ids, in a store
    without keyword index: the documents are appended in order. *)
Lemma addMany_appends (docs : list VectorDocument) (s : VectorStore) :
  bm25Index s = None ->
  Forall (fits s) docs ->
  NoDup (map doc_id docs) ->
  (forall d, d ∈ docs -> doc_id d ∉ OMap.keys (documents s)) ->
  addMany docs s =
    (Ok tt,
     with_documents
       (documents s ++ map (fun d => (doc_id d, stored_of (distance s) d)) docs) s).
Proof.
  revert s. induction docs as [|doc docs IH]; intros s Hb Hfit Hnd Hnew; simpl.
  - rewrite app_nil_r. destruct s; reflexivity.
  - apply Forall_cons in Hfit as [Hfit1 Hfit].
    apply NoDup_cons in Hnd as [Hnotin Hnd].
    unfold bind. rewrite add_returns_plain by assumption.
    rewrite omap_set_absent by (apply Hnew; left).
    rewrite IH; simpl; auto.
    + rewrite <- app_assoc. reflexivity.
    + intros d Hd. unfold OMap.keys. rewrite map_app, elem_of_app. simpl.
      intros [Hin|Hin].
      * apply (Hnew d); [now right | exact Hin].
      * apply list_elem_of_singleton in Hin.
        apply Hnotin. rewrite <- Hin. apply list_elem_of_fmap. eauto.
Qed.

Lemma export_documents_restore (dims : Z) (metric : DistanceMetric)
    (docs : list (string * StoredDocument)) :
  Forall (entry_ok dims metric) docs ->
  map (fun d => (doc_id d, stored_of metric d))
    (map (fun doc => {| doc_id := sd_id doc; doc_content := sd_content doc;
                        doc_vector := sd_vector doc; doc_metadata := sd_metadata doc |})
       (OMap.values docs)) = docs.
Proof.
  induction 1 as [|[k d] docs (Hk & _ & Hn) _ IH]; simpl; [reflexivity|].
  f_equal; [|exact IH].
  simpl in Hk, Hn. subst k. unfold stored_of. simpl. rewrite <- Hn.
  destruct d; reflexivity.
Qed.

Lemma import_export_eq (s : VectorStore) :
  store_ok s -> import (export s) = Ok (with_bm25Index None s).
Proof.
  intros [Hall Hnd]. unfold import.
  rewrite addMany_appends; simpl.
  - rewrite (export_documents_restore _ _ _ Hall). reflexivity.
  - reflexivity.
  - apply Forall_forall. intros d Hd. unfold fits. simpl.
    apply list_elem_of_fmap in Hd as (sd & -> & Hsd).
    apply list_elem_of_fmap in Hsd as ([k sd'] & -> & Hin).
    rewrite Forall_forall in Hall. apply (Hall _ Hin).
  - rewrite map_map. simpl.
    replace (map (fun x => sd_id x) (OMap.values (documents s))) with (OMap.keys (documents s)); [exact Hnd|].
    unfold OMap.keys, OMap.values. rewrite map_map.
    apply map_ext_Forall. eapply Forall_impl; [exact Hall|]. intros [k d] (Hk & _). exact Hk.
  - intros d _ Hin. inversion Hin.
Qed.

(** C3: for every store a program can hold, [import] of its [export]
    succeeds and yields a store with the same size, dimensions and metric,
    and the same documents in the same order; in particular [get] returns
    the same id, content, vector and metadata for every id. *)
Theorem export_import_round_trip (s : VectorStore) :
  reachable s ->
  exists s',
    import (export s) = Ok s' /\
    size s' = size s /\
    dimensions s' = dimensions s /\
    distance s' = distance s /\
    documents s' = documents s /\
    forall id, get id s' = get id s.
Proof.
  intros Hr. exists (with_bm25Index None s).
  split; [apply import_export_eq, reachable_store_ok, Hr|].
  repeat split.
Qed.
End RoundTrip.

(** ** The ids of a result list *)

Section SearchIds.
Context `{bm25 : BM25}.

Lemma search_loop_ids metric q qn minSimilarity docs results :
  map sr_id (fold_left (search_step metric q qn minSimilarity) docs results)
  `sublist_of` map sr_id results ++ map sd_id docs.
Proof.
  revert results. induction docs as [|doc docs IH]; intros results; simpl.
  - now rewrite app_nil_r.
  - etransitivity; [apply IH|]. unfold search_step.
    destruct (Rlt_dec _ minSimilarity).
    + apply sublist_app; [reflexivity | apply sublist_cons; reflexivity].
    + rewrite map_app, <- app_assoc. reflexivity.
Qed.

Lemma store_ok_ids (s : VectorStore) :
  store_ok s -> NoDup (map sd_id (OMap.values (documents s))).
Proof.
  intros [Hall Hnd].
  replace (map sd_id (OMap.values (documents s))) with (OMap.keys (documents s)); [exact Hnd|].
  unfold OMap.keys, OMap.values. rewrite map_map.
  apply map_ext_Forall. eapply Forall_impl; [exact Hall|]. intros [k d] (Hk & _). exact Hk.
Qed.

(** The results of a search on a reachable store are distinct documents,
    as the fusion expects of its first list. *)
Lemma search_results_distinct (s : VectorStore) queryVector k minSimilarity results :
  reachable s ->
  search queryVector k minSimilarity s = Ok results ->
  NoDup (map sr_id results).
Proof.
  intros Hr. apply reachable_store_ok in Hr. unfold search.
  destruct (negb _); [discriminate|].
  destruct (size s =? 0)%Z; [intros [= <-]; apply NoDup_nil_2|].
  intros [= <-]. unfold slice0.
  eapply sublist_NoDup; [|apply (fmap_sublist sr_id), sublist_take].
  rewrite <- (Permutation_map sr_id (array_sort_perm by_distance _)).
  eapply sublist_NoDup; [|apply search_loop_ids]. simpl.
  apply store_ok_ids, Hr.
Qed.
End SearchIds.

(** ** Weighted fusion at the ends of the alpha range *)

Section SortFacts.
Context {A : Type}.
Implicit Types (l : list A).













End SortFacts.

Section NormalizeFacts.
Local Open Scope R_scope.
Variable flat : R.







End NormalizeFacts.

Section FusionFacts.
Local Open Scope R_scope.
Variable flat : R.





















End FusionFacts.

Section HybridFacts.
Context `{bm25 : BM25}.
Variable flat : R.
Local Open Scope R_scope.







End HybridFacts.

Section HybridSamples.
Local Open Scope R_scope.






End HybridSamples.

Section RoundTripSample.
Local Open Scope R_scope.

Lemma store_ab_reachable : reachable store_ab.
Proof.
  change store_ab with
    (snd (add (sample_doc "b" 2)
            (snd (add (sample_doc "a" 1)
                    (@new_VectorStore NoKeywords
                       {| opt_dimensions := 1; opt_distance := Some Dot |}))))).
  apply reach_add, reach_add, reach_new.
Qed.

Lemma export_import_round_trip_witness :
  exists s' : @VectorStore NoKeywords,
    import (export store_ab) = Ok s' /\ size s' = 2%Z /\ documents s' = documents store_ab.
Proof.
  destruct (export_import_round_trip store_ab store_ab_reachable)
    as (s' & Himp & Hsize & _ & _ & Hdocs & _).
  exists s'. split; [exact Himp|]. split; [rewrite Hsize; reflexivity | exact Hdocs].
Defined.
End RoundTripSample.

(** ** The session registry *)

Section RegistryFacts.
Context `{bm25 : BM25} `{fusion : HybridSearch} `{json : Json}.
Implicit Types (w : World) (self : RAGMemory) (e : Entry).

Lemma sweep_fold_lookup (now : Z) (m0 m : gmap string Entry) (key : string) :
  map_fold
    (fun key value acc =>
       if (now - lastAccess value >? STORE_TTL)%Z then delete key acc else acc)
    m0 m !! key
  = match m !! key with
    | Some e => if (now - lastAccess e >? STORE_TTL)%Z then None else m0 !! key
    | None => m0 !! key
    end.
Proof.
  revert key.
  apply (map_fold_weak_ind
           (fun (r : gmap string Entry) (m : gmap string Entry) =>
              forall key,
                r !! key = match m !! key with
                           | Some e => if (now - lastAccess e >? STORE_TTL)%Z
                                       then None else m0 !! key
                           | None => m0 !! key
                           end)).
  - intros key. rewrite lookup_empty. reflexivity.
  - intros i x m' r Hfresh IH key.
    destruct (decide (i = key)) as [->|Hne].
    + rewrite lookup_insert_eq. specialize (IH key). rewrite Hfresh in IH.
      destruct (_ >? _)%Z; [apply lookup_delete_eq | exact IH].
    + rewrite lookup_insert_ne by exact Hne.
      destruct (now - lastAccess x >? STORE_TTL)%Z; [rewrite lookup_delete_ne by exact Hne|];
        apply IH.
Qed.

Lemma sweep_lookup (now : Z) (m : gmap string Entry) (key : string) :
  sweep now m !! key
  = match m !! key with
    | Some e => if (now - lastAccess e >? STORE_TTL)%Z then None else Some e
    | None => None
    end.
Proof.
  unfold sweep. rewrite sweep_fold_lookup.
  destruct (m !! key) as [e|]; [|reflexivity].
  destruct (_ >? _)%Z; reflexivity.
Qed.

Lemma sweep_keeps_live (now : Z) (m : gmap string Entry) (key : string) e :
  sweep now m !! key = Some e -> m !! key = Some e /\ (now - lastAccess e <= STORE_TTL)%Z.
Proof.
  rewrite sweep_lookup. destruct (m !! key) as [e'|]; [|discriminate].
  destruct (Z.gtb_spec (now - lastAccess e') STORE_TTL); [discriminate|].
  intros [= ->]. auto.
Qed.

Lemma loadFromStaticData_eq self w :
  loadFromStaticData self w = (Ok (loaded_entry self (staticData w) (clock w)), w).
Proof.
  unfold loadFromStaticData, loaded_entry.
  destruct (executeFunctions self); [|reflexivity].
  unfold bind, gets. simpl.
  destruct (staticData w !! staticKey self) as [[]|]; try reflexivity.
  destruct (JSON_parse s); [|reflexivity].
  destruct (import_raw _); reflexivity.
Qed.

Lemma getStore_eq self w :
  getStore self w =
    (Ok (store (resolved_entry self w), messages (resolved_entry self w)),
     set_ragStores
       (<[storeKey self := with_lastAccess (clock w) (resolved_entry self w)]>
          (sweep (clock w) (ragStores w)))
       w).
Proof.
  unfold getStore, resolved_entry, cleanupExpiredStores, bind, gets, modify, dateNow, register, ret.
  simpl.
  destruct (sweep (clock w) (ragStores w) !! storeKey self) as [e|] eqn:E; simpl.
  - f_equal. unfold set_ragStores. simpl. f_equal.
    apply map_eq. intros key. destruct (decide (storeKey self = key)) as [<-|Hne].
    + rewrite lookup_alter_eq, lookup_insert_eq, E. reflexivity.
    + rewrite lookup_alter_ne, lookup_insert_ne by exact Hne. reflexivity.
  - destruct (persists self && bool_decide (is_Some (executeFunctions self))); simpl.
    + rewrite loadFromStaticData_eq. simpl.
      destruct (loaded_entry self (staticData w) (clock w)) as [e|]; simpl.
      * f_equal. unfold set_ragStores. simpl. f_equal. apply alter_insert_eq.
      * f_equal. unfold set_ragStores. simpl. f_equal. apply alter_insert_eq.
    + f_equal. unfold set_ragStores. simpl. f_equal. apply alter_insert_eq.
Qed.
End RegistryFacts.

(** ** Eviction *)

Section EvictionFacts.
Context `{bm25 : BM25} `{fusion : HybridSearch} `{json : Json}.
Implicit Types (w : World) (self : RAGMemory) (e : Entry).

Lemma bind_preserves {A B : Type} (c : M World A) (k : A -> M World B) :
  preserves c -> (forall a, preserves (k a)) -> preserves (bind c k).
Proof.
  intros Hc Hk w Hw. unfold bind. specialize (Hc w Hw).
  destruct (c w) as [[a|err] w']; simpl in *; [apply Hk, Hc | exact Hc].
Qed.

Lemma bind_establishes {A B : Type} (c : M World A) (k : A -> M World B) :
  establishes c -> (forall a, preserves (k a)) -> establishes (bind c k).
Proof.
  intros Hc Hk w. unfold bind. specialize (Hc w).
  destruct (c w) as [[a|err] w']; simpl in *; [apply Hk, Hc | exact Hc].
Qed.

Lemma establishes_preserves {A : Type} (c : M World A) : establishes c -> preserves c.
Proof. intros H w _. apply H. Qed.

(** A step that leaves the clock and every [lastAccess] as they are. *)
Lemma same_ages_preserves {A : Type} (c : M World A) :
  (forall w, clock (snd (c w)) = clock w /\
             forall key, lastAccess <$> (ragStores (snd (c w)) !! key)
                         = lastAccess <$> (ragStores w !! key)) ->
  preserves c.
Proof.
  intros H w Hw key e Hl. destruct (H w) as [Hc Ha]. rewrite Hc.
  specialize (Ha key). rewrite Hl in Ha. simpl in Ha.
  destruct (ragStores w !! key) as [e0|] eqn:E; [|discriminate].
  injection Ha as Ha. rewrite Ha. apply (Hw key e0 E).
Qed.

Lemma ret_preserves {A : Type} (a : A) : preserves (ret a : M World A).
Proof. intros w Hw. exact Hw. Qed.

Lemma throw_preserves {A : Type} (err : Error) : preserves (throw err : M World A).
Proof. intros w Hw. exact Hw. Qed.

Lemma liftResult_preserves {A : Type} (r : Result A) : preserves (liftResult r : M World A).
Proof. intros w Hw. exact Hw. Qed.

Lemma gets_preserves {A : Type} (f : World -> A) : preserves (gets f).
Proof. intros w Hw. exact Hw. Qed.

Lemma log_preserves (ev : Event) : preserves (log ev).
Proof. intros w Hw. exact Hw. Qed.

Lemma random36_preserves : preserves random36.
Proof. intros w Hw. unfold random36. destruct (entropy w); exact Hw. Qed.

Lemma alter_same_age (f : Entry -> Entry) (key : string) :
  (forall e, lastAccess (f e) = lastAccess e) ->
  preserves (modify (fun w => set_ragStores (alter f key (ragStores w)) w)).
Proof.
  intros Hf. apply same_ages_preserves. intros w. simpl. split; [reflexivity|].
  intros key'. destruct (decide (key = key')) as [<-|Hne].
  - rewrite lookup_alter_eq. destruct (ragStores w !! key); simpl; [now rewrite Hf | reflexivity].
  - now rewrite lookup_alter_ne.
Qed.

Lemma on_store_preserves {A : Type} self (local : VectorStore) (method : M VectorStore A) :
  preserves (on_store self local method).
Proof.
  intros w Hw. unfold on_store. destruct (method local) as [r changed].
  exact (alter_same_age (with_store changed) (storeKey self) (fun _ => eq_refl) w Hw).
Qed.

Lemma push_message_preserves self message : preserves (push_message self message).
Proof. apply alter_same_age. reflexivity. Qed.

Lemma embed_preserves self text : preserves (embed self text).
Proof.
  unfold embed. destruct (provider_embed (llmProvider self)); [|apply throw_preserves].
  apply bind_preserves; [apply log_preserves|]. intros _.
  apply bind_preserves; [apply liftResult_preserves|]. intros ?. apply ret_preserves.
Qed.

Lemma getStore_establishes self : establishes (getStore self).
Proof.
  intros w key e. rewrite getStore_eq. simpl.
  destruct (decide (storeKey self = key)) as [<-|Hne].
  - rewrite lookup_insert_eq. intros [= <-]. simpl. unfold STORE_TTL. lia.
  - rewrite lookup_insert_ne by exact Hne. intros Hl.
    apply sweep_keeps_live in Hl. tauto.
Qed.

Lemma saveToStaticData_preserves self : preserves (saveToStaticData self).
Proof.
  unfold saveToStaticData. destruct (executeFunctions self); [|apply ret_preserves].
  apply establishes_preserves, bind_establishes; [apply getStore_establishes|].
  intros found w Hw. exact Hw.
Qed.

(** Walks through a composition of steps, each of which leaves the ages of
    the entries alone. *)
Ltac preserve :=
  repeat first
    [ apply ret_preserves | apply throw_preserves | apply liftResult_preserves
    | apply gets_preserves | apply log_preserves | apply random36_preserves
    | apply on_store_preserves | apply push_message_preserves
    | apply embed_preserves | apply saveToStaticData_preserves
    | apply bind_preserves; [|intros ?]
    | match goal with
      | |- preserves (if ?b then _ else _) => destruct b
      | |- preserves (match ?x with _ => _ end) => destruct x
      end ].

Lemma addMessage_establishes self message : establishes (addMessage self message).
Proof.
  unfold addMessage. apply bind_establishes; [apply getStore_establishes|].
  intros found. preserve.
Qed.

Lemma getContext_establishes self query k : establishes (getContext self query k).
Proof.
  unfold getContext. apply bind_establishes; [apply getStore_establishes|].
  intros found. preserve.
Qed.

(** C7: after a cache access by any session ([getStore], and so after
    [addMessage], [getContext], [getMessages] and [getStats]), the registry
    holds no entry, under any key, whose idle time (the clock minus
    [lastAccess]) exceeds the TTL of one hour; and [clear] removes the
    entry of the calling session whatever its age. *)
Theorem access_evicts_expired_and_clear_removes
    self (message : Message) (query : string) (k : option Z) w :
  no_expired (snd (getStore self w)) /\
  no_expired (snd (addMessage self message w)) /\
  no_expired (snd (getContext self query k w)) /\
  no_expired (snd (getMessages self w)) /\
  no_expired (snd (getStats self w)) /\
  ragStores (snd (RAGMemory_clear self w)) !! storeKey self = None /\
  STORE_TTL = 3600000%Z.
Proof.
  split; [apply getStore_establishes|].
  split; [apply addMessage_establishes|].
  split; [apply getContext_establishes|].
  split; [apply bind_establishes; [apply getStore_establishes | intros ?; apply ret_preserves]|].
  split; [apply bind_establishes; [apply getStore_establishes | intros ?; apply ret_preserves]|].
  split; [|reflexivity].
  unfold RAGMemory_clear, bind, modify. simpl.
  destruct (persists self && bool_decide (is_Some (executeFunctions self)));
    simpl; apply lookup_delete_eq.
Qed.
End EvictionFacts.

(** ** Messages that are not stored *)

Section SkipFacts.
Context `{bm25 : BM25} `{fusion : HybridSearch} `{json : Json}.
Implicit Types (w : World) (self : RAGMemory) (e : Entry).

Lemma trimStart_unfold (s : string) :
  trimStart s = match leading_space s with Some rest => trimStart rest | None => s end.
Proof.
  destruct s as [|c1 [|c2 [|c3 rest3]]]; simpl; try reflexivity.
  - destruct (space1 c1); reflexivity.
  - destruct (space1 c1); [reflexivity|]. destruct (space2 c1 c2); reflexivity.
  - destruct (space1 c1); [reflexivity|]. destruct (space2 c1 c2); [reflexivity|].
    destruct (space3 c1 c2 c3); reflexivity.
Qed.

Lemma byte_of (c : ascii) (n : nat) : (nat_of_ascii c =? n) = true -> c = ascii_of_nat n.
Proof.
  intros E. apply Nat.eqb_eq in E. rewrite <- E. symmetry. apply ascii_nat_embedding.
Qed.

Lemma byte_between (c : ascii) (lo hi : nat) :
  (lo <=? nat_of_ascii c) && (nat_of_ascii c <=? hi) = true ->
  exists n, (lo <= n <= hi)%nat /\ c = ascii_of_nat n.
Proof.
  intros E. apply andb_true_iff in E as [E1 E2].
  apply Nat.leb_le in E1, E2. exists (nat_of_ascii c).
  split; [lia | symmetry; apply ascii_nat_embedding].
Qed.

Ltac listed := apply list_elem_of_In; simpl; tauto.

(** What [leading_space] finds is one of the encodings. *)
Lemma leading_space_sound (s rest : string) :
  leading_space s = Some rest ->
  exists space, space ∈ whitespace_encodings /\ s = (space ++ rest)%string.
Proof.
  destruct s as [|c1 rest1]; simpl; [discriminate|].
  destruct (space1 c1) eqn:E1.
  { intros [= <-]. unfold space1 in E1. apply orb_true_iff in E1 as [E1|E1].
    - apply byte_between in E1 as (n & Hn & ->).
      assert (Hcases : (n = 9 \/ n = 10 \/ n = 11 \/ n = 12 \/ n = 13)%nat) by lia.
      exists (bytes [n]). split; [|reflexivity].
      destruct Hcases as [-> | [-> | [-> | [-> | ->]]]]; listed.
    - apply byte_of in E1 as ->. exists (bytes [32]%nat). split; [listed | reflexivity]. }
  destruct rest1 as [|c2 rest2]; [discriminate|].
  destruct (space2 c1 c2) eqn:E2.
  { intros [= <-]. unfold space2 in E2. apply andb_true_iff in E2 as [Ea Eb].
    apply byte_of in Ea as ->. apply byte_of in Eb as ->.
    exists (bytes [194; 160]%nat). split; [listed | reflexivity]. }
  destruct rest2 as [|c3 rest3]; [discriminate|].
  destruct (space3 c1 c2 c3) eqn:E3; [|discriminate].
  intros [= <-]. unfold space3 in E3.
  repeat match goal with
         | H : _ || _ = true |- _ => apply orb_true_iff in H as [H|H]
         | H : _ && _ = true |- _ =>
             let H' := fresh "E" in apply andb_true_iff in H as [H' H]
         end;
    repeat match goal with
           | H : (nat_of_ascii _ =? _) = true |- _ => apply byte_of in H as ->
           end;
    try (match goal with
         | |- exists _, _ /\ String (ascii_of_nat ?a)
                               (String (ascii_of_nat ?b) (String (ascii_of_nat ?c) _)) = _ =>
             exists (bytes [a; b; c])
         end; split; [listed | reflexivity]).
  assert (Hb : (128 <=? nat_of_ascii c3) && (nat_of_ascii c3 <=? 138) = true)
    by (apply andb_true_iff; split; assumption).
  apply byte_between in Hb as (n & Hn & ->).
  assert (Hcases : (n = 128 \/ n = 129 \/ n = 130 \/ n = 131 \/ n = 132 \/ n = 133 \/
                    n = 134 \/ n = 135 \/ n = 136 \/ n = 137 \/ n = 138)%nat) by lia.
  exists (bytes [226; 128; n]%nat). split; [|reflexivity].
  destruct Hcases as [-> | [-> | [-> | [-> | [-> | [-> | [-> | [-> | [-> | [-> | ->]]]]]]]]]];
    listed.
Qed.

(** Each of the encodings is found. *)
Lemma leading_space_complete (space rest : string) :
  space ∈ whitespace_encodings -> leading_space (space ++ rest) = Some rest.
Proof.
  intros Hin. apply list_elem_of_In in Hin. simpl in Hin.
  repeat (destruct Hin as [<-|Hin]; [reflexivity|]). contradiction.
Qed.

Lemma leading_space_shorter (s rest : string) :
  leading_space s = Some rest -> (String.length rest < String.length s)%nat.
Proof.
  destruct s as [|c1 [|c2 [|c3 rest3]]]; simpl; try discriminate.
  - destruct (space1 c1); [intros [= <-]; simpl; lia | discriminate].
  - destruct (space1 c1); [intros [= <-]; simpl; lia|].
    destruct (space2 c1 c2); [intros [= <-]; simpl; lia | discriminate].
  - destruct (space1 c1); [intros [= <-]; simpl; lia|].
    destruct (space2 c1 c2); [intros [= <-]; simpl; lia|].
    destruct (space3 c1 c2 c3); [intros [= <-]; simpl; lia | discriminate].
Qed.

Lemma trimStart_blank (s : string) : whitespace_only s -> trimStart s = EmptyString.
Proof.
  induction 1 as [|space rest Hin _ IH]; [reflexivity|].
  now rewrite trimStart_unfold, (leading_space_complete space rest Hin).
Qed.

(** [trimStart] leaves nothing, of a string of white space, or a string
    that does not start with white space. *)
Lemma trimStart_shape (s : string) :
  trimStart s = EmptyString /\ whitespace_only s \/
  exists c rest, trimStart s = String c rest /\ leading_space (String c rest) = None.
Proof.
  remember (String.length s) as n eqn:Hn. revert s Hn.
  induction n as [n IH] using lt_wf_ind. intros s ->.
  rewrite trimStart_unfold. destruct (leading_space s) as [rest|] eqn:E.
  - destruct (IH _ (leading_space_shorter s rest E) rest eq_refl)
      as [[H1 H2]|(c & rest' & H1 & H2)].
    + left. split; [exact H1|].
      apply leading_space_sound in E as (space & Hin & ->).
      now apply whitespace_only_more.
    + right. eauto.
  - destruct s as [|c rest]; [left; split; [reflexivity | constructor]|].
    right. eauto.
Qed.

Lemma trimEnd_keeps_head (c : ascii) (rest : string) :
  leading_space (String c rest) = None -> is_empty (trimEnd (String c rest)) = false.
Proof.
  intros E. cbn [trimEnd]. rewrite trimStart_unfold, E. reflexivity.
Qed.

(** [!content.trim()] holds exactly of the empty and the whitespace-only
    strings. *)
Lemma trim_empty_iff (s : string) : is_empty (trim s) = true <-> whitespace_only s.
Proof.
  unfold trim. split.
  - destruct (trimStart_shape s) as [[_ H]|(c & rest & E & Hc)]; [auto|].
    rewrite E, trimEnd_keeps_head by exact Hc. discriminate.
  - intros H. now rewrite trimStart_blank.
Qed.

Lemma skipped_iff (message : Message) :
  skipped message = true <-> role message = system \/ whitespace_only (content message).
Proof.
  unfold skipped. rewrite <- trim_empty_iff.
  destruct (role message); intuition discriminate.
Qed.

Lemma addMessage_skipped_eq self message w :
  skipped message = true -> addMessage self message w = (Ok tt, snd (getStore self w)).
Proof.
  intros Hs. unfold addMessage, bind. rewrite getStore_eq, Hs. reflexivity.
Qed.

(** After a cache access the session's entry is in the registry, just
    accessed. *)
Lemma resolved_after_access self w :
  resolved_entry self (snd (getStore self w))
  = with_lastAccess (clock w) (resolved_entry self w).
Proof.
  rewrite getStore_eq. unfold resolved_entry at 1. simpl.
  rewrite sweep_lookup, lookup_insert_eq. simpl.
  replace (clock w - clock w >? STORE_TTL)%Z with false; [reflexivity|].
  symmetry. rewrite Z.gtb_ltb. apply Z.ltb_ge. unfold STORE_TTL. lia.
Qed.

(** A second cache access at the same time returns what the first
    returned. *)
Lemma getStore_again self w :
  fst (getStore self (snd (getStore self w))) = fst (getStore self w).
Proof.
  rewrite (getStore_eq self (snd (getStore self w))), resolved_after_access.
  rewrite (getStore_eq self w). reflexivity.
Qed.

(** C5: for a message whose role is [system] or whose content is empty or
    whitespace-only, [addMessage] is a no-op. It returns without an error
    and without a call of the embedder or of a search; it writes nothing
    to the static data; and the store of the session (its documents and
    its keyword index) and its message list, as the next cache access,
    [getMessages] and [getStats] show them, are those the same calls would
    have shown instead of [addMessage]. All [addMessage] has done is the
    cache access it starts with, which every operation of the memory
    makes; an entry of the session that is in the registry and not expired
    keeps its store and its messages. *)
Theorem addMessage_skips_system_and_blank self (message : Message) w :
  role message = system \/ whitespace_only (content message) ->
  addMessage self message w = (Ok tt, snd (getStore self w)) /\
  trace (snd (addMessage self message w)) = trace w /\
  staticData (snd (addMessage self message w)) = staticData w /\
  fst (getStore self (snd (addMessage self message w))) = fst (getStore self w) /\
  fst (getMessages self (snd (addMessage self message w))) = fst (getMessages self w) /\
  fst (getStats self (snd (addMessage self message w))) = fst (getStats self w) /\
  forall e,
    ragStores w !! storeKey self = Some e ->
    (clock w - lastAccess e <= STORE_TTL)%Z ->
    ragStores (snd (addMessage self message w)) !! storeKey self
    = Some (with_lastAccess (clock w) e).
Proof.
  intros Hskip. apply skipped_iff in Hskip.
  rewrite (addMessage_skipped_eq self message w Hskip). simpl.
  pose proof (getStore_again self w) as Hagain.
  split; [reflexivity|].
  split; [rewrite getStore_eq; reflexivity|].
  split; [rewrite getStore_eq; reflexivity|].
  split; [exact Hagain|].
  assert (Hobs : forall {A : Type} (f : VectorStore * list Message -> A),
            fst (bind (getStore self) (fun found => ret (f found)) (snd (getStore self w)))
            = fst (bind (getStore self) (fun found => ret (f found)) w)).
  { intros A f. unfold bind.
    destruct (getStore self (snd (getStore self w))) as [[found1|err1] w1] eqn:E1;
      destruct (getStore self w) as [[found0|err0] w0] eqn:E0;
      simpl in *; congruence. }
  split; [exact (Hobs _ snd)|].
  split; [exact (Hobs _ (fun found => (Z.of_nat (length (snd found)), size (fst found),
                                        cfg_dimensions (config self))))|].
  intros e He Hlive. rewrite getStore_eq. simpl. rewrite lookup_insert_eq. f_equal.
  unfold resolved_entry. rewrite sweep_lookup, He.
  destruct (Z.gtb_spec (clock w - lastAccess e) STORE_TTL); [lia | reflexivity].
Qed.
End SkipFacts.

(** ** Restoring a session from the static data *)

Section RestoreFacts.
Context `{bm25 : BM25} `{fusion : HybridSearch} `{json : Json}.
Implicit Types (w : World) (self : RAGMemory) (e : Entry).

Lemma addMany_raw_throws (docs : list RawDocument) (s : VectorStore) :
  Exists (bad_vector (dimensions s)) docs ->
  exists err s', addMany_raw docs s = (Throw err, s').
Proof.
  intros Hex. revert s Hex. induction docs as [|doc docs IH]; intros s Hex.
  - inversion Hex.
  - simpl. unfold bad_vector in Hex.
    destruct (raw_vector doc) as [vector|] eqn:Ev; [|unfold throw; eauto].
    unfold bind.
    set (d := {| doc_id := raw_id doc; doc_content := raw_content doc;
                 doc_vector := vector; doc_metadata := raw_metadata doc |}).
    destruct (Z.eq_dec (Z.of_nat (length vector)) (dimensions s)) as [Hfit|Hne].
    + destruct (add_returns d s Hfit) as (s1 & -> & _ & Hdim & _).
      apply IH. rewrite Hdim.
      apply Exists_cons in Hex as [Hbad|Hex]; [|exact Hex].
      rewrite Ev in Hbad. contradiction.
    + rewrite (add_throws d s Hne). eauto.
Qed.

Lemma unusable_loads_nothing self (data : gmap string JsonValue) (now : Z) :
  unusable (data !! staticKey self) -> loaded_entry self data now = None.
Proof.
  intros Hu. unfold loaded_entry. destruct (executeFunctions self); [|reflexivity].
  inversion Hu as [v Hv E | text Hp E | text d Hp Hs E | text d st Hp Hs Hd E
                  | text d st docs Hp Hs Hd Hbad E].
  - destruct (data !! staticKey self) as [[]|]; try reflexivity.
    exfalso. eapply Hv. reflexivity.
  - now rewrite Hp.
  - now rewrite Hp, Hs.
  - rewrite Hp, Hs. simpl. now rewrite Hd.
  - rewrite Hp, Hs. simpl. rewrite Hd.
    destruct (addMany_raw_throws docs
                (new_VectorStore {| opt_dimensions := raw_dimensions st;
                                    opt_distance := raw_distance st |}) Hbad)
      as (err & s' & ->).
    reflexivity.
Qed.

(** On data of the declared type, the import of parsed data is
    [VectorStore.import]. *)
Lemma import_raw_of_export (data : ExportedStore) :
  import_raw (Some (raw_of_export data)) = import data.
Proof.
  unfold import_raw, import. simpl.
  generalize (new_VectorStore {| opt_dimensions := ex_dimensions data;
                                 opt_distance := Some (ex_distance data) |}).
  induction (ex_documents data) as [|doc docs IH]; intros s0; simpl; [reflexivity|].
  unfold bind.
  replace {| doc_id := doc_id doc; doc_content := doc_content doc;
             doc_vector := doc_vector doc; doc_metadata := doc_metadata doc |}
    with doc by (destruct doc; reflexivity).
  destruct (add doc s0) as [[[]|err] s1]; [apply IH | reflexivity].
Qed.

(** A value the restore accepts is what the cache access returns for a
    session without live entry, when persistence is on. *)
Lemma getStore_restores self w e :
  sweep (clock w) (ragStores w) !! storeKey self = None ->
  persists self = true ->
  loaded_entry self (staticData w) (clock w) = Some e ->
  fst (getStore self w) = Ok (store e, messages e).
Proof.
  intros Hgone Hp Hl. rewrite getStore_eq. simpl. unfold resolved_entry.
  rewrite Hgone, Hp.
  assert (He : is_Some (executeFunctions self)).
  { unfold loaded_entry in Hl. destruct (executeFunctions self); [eauto | discriminate]. }
  rewrite (bool_decide_eq_true_2 _ He). simpl. rewrite Hl. reflexivity.
Qed.

(** C6, as amended: when the session has no live entry in the registry and
    the value persisted for it is not a string, is not JSON, has no
    [store] or no [documents], or holds a document whose vector is missing
    or differs in length from the stored dimensions, the cache access
    registers and returns a fresh empty entry; and whatever is persisted,
    the cache access returns without an error. *)
Theorem getStore_discards_unusable_blob self w :
  (sweep (clock w) (ragStores w) !! storeKey self = None ->
   unusable (staticData w !! staticKey self) ->
   getStore self w =
     (Ok (fresh_store self, []),
      set_ragStores
        (<[storeKey self := fresh_entry self (clock w)]> (sweep (clock w) (ragStores w))) w) /\
   size (fresh_store self) = 0%Z) /\
  exists found, fst (getStore self w) = Ok found.
Proof.
  split; [|rewrite getStore_eq; simpl; eauto].
  intros Hgone Hu. split; [|reflexivity].
  rewrite getStore_eq. unfold resolved_entry. rewrite Hgone.
  rewrite (unusable_loads_nothing self _ _ Hu).
  destruct (persists self && bool_decide (is_Some (executeFunctions self))); reflexivity.
Qed.
End RestoreFacts.

(** ** The embedder call of [getContext] *)

Section ContextFacts.
Context `{bm25 : BM25} `{fusion : HybridSearch} `{json : Json}.
Implicit Types (w : World) (self : RAGMemory) (e : Entry).

Lemma getStore_trace self w : trace (snd (getStore self w)) = trace w.
Proof. rewrite getStore_eq. reflexivity. Qed.

Lemma one_search_event (mode : SearchMode) : Forall is_search [SearchCall mode].
Proof. repeat constructor. eexists. reflexivity. Qed.

(** Closes a branch of [getContext] in which one search was made after a
    successful embedder call. *)
Ltac one_search :=
  split; [rewrite <- app_assoc; reflexivity|];
  split; [apply one_search_event|];
  split; [simpl; lia|];
  intros ? ?; discriminate.

(** C10: whatever the query, the search mode and the contents of the
    session's index, [getContext] first asks for the embedding of the
    query. With a provider that has no [embed] it throws the capability
    error, without calling anything. With a provider that has [embed], the
    embedder is called exactly once, with the query alone, before any
    search (at most one follows); and when that call fails, its error is
    the result and no search is made. *)
Theorem getContext_embeds_query_first self (query : string) (k : option Z) w :
  match provider_embed (llmProvider self) with
  | None =>
      fst (getContext self query k w) = Throw EmbeddingsUnsupported /\
      trace (snd (getContext self query k w)) = trace w
  | Some call =>
      exists searches,
        trace (snd (getContext self query k w))
        = trace w ++ EmbedCall [query] :: searches /\
        Forall is_search searches /\
        length searches <= 1 /\
        forall err, call [query] = Throw err ->
                    fst (getContext self query k w) = Throw err /\ searches = []
  end.
Proof.
  unfold getContext, bind. rewrite getStore_eq. unfold embed.
  destruct (provider_embed (llmProvider self)) as [call|]; [|split; reflexivity].
  unfold bind, log, modify, liftResult. simpl.
  destruct (call [query]) as [embeddings|err0]; simpl.
  2:{ exists []. split; [reflexivity|]. split; [constructor|]. split; [simpl; lia|].
      intros err [= ->]. auto. }
  destruct (size (store (resolved_entry self w)) >? 0)%Z; simpl.
  2:{ exists []. split; [reflexivity|]. split; [constructor|]. split; [simpl; lia|].
      intros err Herr. discriminate. }
  destruct (cfg_searchMode (config self)) as [[]|]; simpl.
  - exists [SearchCall ModeVector].
    destruct (head embeddings) as [qv|]; simpl;
      [destruct (search qv _ _ _); simpl|]; one_search.
  - exists [SearchCall ModeKeyword]. unfold on_store.
    destruct (keywordSearch query _ _) as [[results|e1] changed]; simpl; one_search.
  - exists [SearchCall ModeHybrid]. unfold on_store.
    destruct (hybridSearch _ _) as [[results|e1] changed]; simpl; one_search.
  - exists [SearchCall ModeVector].
    destruct (head embeddings) as [qv|]; simpl;
      [destruct (search qv _ _ _); simpl|]; one_search.
Qed.
End ContextFacts.

Section MemorySamples.
#[local] Existing Instance NoKeywords.
#[local] Existing Instance SampleJson.

Lemma blank_note_is_blank : whitespace_only (content blank_note).
Proof.
  apply (whitespace_only_more (bytes [32]%nat) (bytes [227; 128; 128; 10]%nat));
    [apply list_elem_of_In; simpl; tauto|].
  apply (whitespace_only_more (bytes [227; 128; 128]%nat) (bytes [10]%nat));
    [apply list_elem_of_In; simpl; tauto|].
  apply (whitespace_only_more (bytes [10]%nat) EmptyString);
    [apply list_elem_of_In; simpl; tauto|].
  constructor.
Qed.

Lemma addMessage_skips_system_and_blank_witness :
  fst (addMessage memory_plain blank_note (world_at 3600001)) = Ok tt /\
  trace (snd (addMessage memory_plain blank_note (world_at 3600001))) = [] /\
  fst (getMessages memory_plain (snd (addMessage memory_plain blank_note (world_at 3600001))))
  = fst (getMessages memory_plain (world_at 3600001)) /\
  fst (getStats memory_plain (snd (addMessage memory_plain blank_note (world_at 3600001))))
  = fst (getStats memory_plain (world_at 3600001)).
Proof.
  destruct (addMessage_skips_system_and_blank memory_plain blank_note (world_at 3600001))
    as (H1 & H2 & _ & _ & H5 & H6 & _).
  - right. exact blank_note_is_blank.
  - split; [rewrite H1; reflexivity|]. split; [exact H2|]. split; [exact H5 | exact H6].
Defined.

Lemma getStore_discards_unusable_blob_witness :
  getStore memory_persistent (world_saved "{not json")
  = (Ok (fresh_store memory_persistent, []),
     set_ragStores
       (<[storeKey memory_persistent := fresh_entry memory_persistent 5]>
          (sweep 5 ∅)) (world_saved "{not json")).
Proof.
  destruct (getStore_discards_unusable_blob memory_persistent (world_saved "{not json"))
    as [H _].
  destruct H as [H _].
  - rewrite sweep_lookup. reflexivity.
  - change (staticData (world_saved "{not json") !! staticKey memory_persistent)
      with (({[ "rag_s"%string := JString "{not json" ]} : gmap string JsonValue) !! "rag_s"%string).
    rewrite lookup_singleton_eq. apply unusable_not_json. reflexivity.
  - exact H.
Defined.

(** C6 fails for a persisted value of the wrong shape on which the import
    does not throw: the text [SampleJson] parses has no [messages] and no
    [distance], and the cache access restores its document instead of
    starting from an empty entry. *)
Lemma getStore_restores_blob_without_messages :
  exists restored,
    fst (getStore memory_persistent (world_saved "saved-without-messages"))
    = Ok (restored, []) /\
    size restored = 1%Z /\
    OMap.keys (documents restored) = ["d"%string] /\
    size (fresh_store memory_persistent) = 0%Z.
Proof.
  rewrite getStore_eq. simpl. unfold resolved_entry. rewrite sweep_lookup.
  change (ragStores (world_saved "saved-without-messages") !! storeKey memory_persistent)
    with ((∅ : gmap string Entry) !! storeKey memory_persistent).
  rewrite lookup_empty.
  change (persists memory_persistent && bool_decide (is_Some (executeFunctions memory_persistent)))
    with true.
  unfold loaded_entry.
  change (executeFunctions memory_persistent) with (Some {| workflow_id := Some "wf"%string |}).
  change (staticData (world_saved "saved-without-messages") !! staticKey memory_persistent)
    with (({[ "rag_s"%string := JString "saved-without-messages" ]} : gmap string JsonValue)
            !! "rag_s"%string).
  rewrite lookup_singleton_eq.
  change (JSON_parse "saved-without-messages") with
    (Some {| raw_store :=
               Some {| raw_dimensions := 1;
                       raw_distance := None;
                       raw_documents :=
                         Some [ {| raw_id := "d"; raw_content := "hello";
                                   raw_vector := Some [1%R];
                                   raw_metadata := None |} ] |};
             raw_messages := None |}).
  simpl. eexists. split; [reflexivity|]. repeat split.
Qed.
End MemorySamples.

(** * Part IV: further properties of the code *)

(** ** The vector store: documents in and out *)

Section OMapMoreFacts.
Context {V : Type}.
Implicit Types (m : list (string * V)) (v : V) (key : string).

Lemma omap_get_absent key m : key ∉ OMap.keys m -> OMap.get key m = None.
Proof.
  induction m as [|[k w] m IH]; simpl; [reflexivity|].
  rewrite not_elem_of_cons. intros [Hne Hn].
  destruct (String.eqb k key) eqn:E; [|auto].
  apply String.eqb_eq in E. congruence.
Qed.

Lemma omap_get_delete_eq key m :
  NoDup (OMap.keys m) -> OMap.get key (OMap.delete key m) = None.
Proof.
  induction m as [|[k w] m IH]; simpl; [reflexivity|].
  rewrite NoDup_cons. intros [Hnin Hnd].
  destruct (String.eqb k key) eqn:E; simpl.
  - apply String.eqb_eq in E. subst k. apply omap_get_absent, Hnin.
  - rewrite E. auto.
Qed.

Lemma omap_get_delete_ne key key' m :
  key <> key' -> OMap.get key' (OMap.delete key m) = OMap.get key' m.
Proof.
  intros Hne. induction m as [|[k w] m IH]; simpl; [reflexivity|].
  destruct (String.eqb k key) eqn:E; simpl.
  - apply String.eqb_eq in E. subst k.
    apply String.eqb_neq in Hne. now rewrite Hne.
  - now rewrite IH.
Qed.

Lemma omap_delete_length key m :
  length (OMap.delete key m)
  = (length m - (if OMap.has key m then 1 else 0))%nat.
Proof.
  unfold OMap.has. induction m as [|[k w] m IH]; simpl; [reflexivity|].
  destruct (String.eqb k key); simpl; [lia|].
  rewrite IH. destruct (OMap.get key m) eqn:G; simpl; [|lia].
  destruct m as [|p m']; [simpl in G; discriminate | simpl; lia].
Qed.

Lemma omap_get_elem key v m : OMap.get key m = Some v -> (key, v) ∈ m.
Proof.
  induction m as [|[k w] m IH]; simpl; [discriminate|].
  destruct (String.eqb k key) eqn:E.
  - apply String.eqb_eq in E. intros [= ->]. subst. left.
  - intros H. right. auto.
Qed.
End OMapMoreFacts.

Section StoreMoreFacts.
Context `{bm25 : BM25}.

(** X1: [add] of a fitting document under an id not yet stored succeeds,
    the store grows by one, the new id comes last in the order of the
    documents, [get] returns the document, and the others are untouched. *)
Theorem add_new_id_appends (doc : VectorDocument) (s : VectorStore) :
  Z.of_nat (length (doc_vector doc)) = dimensions s ->
  OMap.has (doc_id doc) (documents s) = false ->
  exists s',
    add doc s = (Ok tt, s') /\
    size s' = (size s + 1)%Z /\
    OMap.keys (documents s') = OMap.keys (documents s) ++ [doc_id doc] /\
    get (doc_id doc) s' = Some doc /\
    forall id, id <> doc_id doc -> get id s' = get id s.
Proof.
  intros Hfit Hnew.
  assert (Hn : doc_id doc ∉ OMap.keys (documents s)).
  { rewrite <- omap_has_in. congruence. }
  destruct (add_returns doc s Hfit) as (s' & Hadd & Hdocs & _ & _).
  exists s'. split; [exact Hadd|].
  unfold size, get. rewrite Hdocs. repeat split.
  - rewrite omap_set_absent by exact Hn. rewrite length_app. simpl. lia.
  - apply omap_set_keys_absent, Hn.
  - rewrite omap_get_set_eq. destruct doc; reflexivity.
  - intros id Hne. rewrite omap_get_set_ne; [reflexivity | congruence].
Qed.

(** X2: [remove] answers whether the id was stored; afterwards [get] finds
    nothing under the id, the size is one less when it was stored and the
    same when not, and the other documents, the dimensions and the metric
    are as before. *)
Theorem remove_forgets_the_document (s : VectorStore) (id : string) :
  reachable s ->
  exists s',
    remove id s = (Ok (OMap.has id (documents s)), s') /\
    get id s' = None /\
    size s' = (size s - (if OMap.has id (documents s) then 1 else 0))%Z /\
    (forall id', id' <> id -> get id' s' = get id' s) /\
    dimensions s' = dimensions s /\
    distance s' = distance s.
Proof.
  intros Hr. apply reachable_store_ok in Hr as [_ Hnd].
  assert (Hdocs : documents (snd (remove id s)) = OMap.delete id (documents s) /\
                  dimensions (snd (remove id s)) = dimensions s /\
                  distance (snd (remove id s)) = distance s /\
                  fst (remove id s) = Ok (OMap.has id (documents s))).
  { unfold remove, ret. simpl.
    destruct (bm25Index s); [destruct (OMap.has id (documents s))|]; repeat split. }
  destruct Hdocs as (Hdocs & Hdim & Hmet & Hres).
  exists (snd (remove id s)).
  split; [rewrite <- Hres; apply surjective_pairing|].
  unfold get, size. rewrite Hdocs. repeat split; auto.
  - now rewrite omap_get_delete_eq.
  - rewrite omap_delete_length.
    pose proof (omap_has_in id (documents s)) as Hin.
    destruct (OMap.has id (documents s)); [|lia].
    destruct (documents s); simpl in *; [|lia].
    destruct Hin as [Hin _]. specialize (Hin eq_refl). inversion Hin.
  - intros id' Hne. rewrite omap_get_delete_ne; [reflexivity | congruence].
Qed.

(** X3: what [get] returns from a store a program can hold is filed under
    its own id and has a vector of the store's dimensions. *)
Theorem reachable_documents_well_formed (s : VectorStore) (id : string) (doc : VectorDocument) :
  reachable s ->
  get id s = Some doc ->
  doc_id doc = id /\ Z.of_nat (length (doc_vector doc)) = dimensions s.
Proof.
  intros Hr. apply reachable_store_ok in Hr as [Hall _].
  unfold get. destruct (OMap.get id (documents s)) as [sd|] eqn:E; [|discriminate].
  intros [= <-]. simpl.
  apply omap_get_elem in E. rewrite Forall_forall in Hall.
  destruct (Hall _ E) as (Hk & Hd & _). simpl in *. auto.
Qed.

Lemma addMany_fits_dimensions (docs : list VectorDocument) (s : VectorStore) :
  dimensions (snd (addMany docs s)) = dimensions s /\
  distance (snd (addMany docs s)) = distance s.
Proof.
  revert s. induction docs as [|doc docs IH]; intros s; simpl; [auto|].
  unfold bind.
  destruct (Z.eq_dec (Z.of_nat (length (doc_vector doc))) (dimensions s)) as [Hfit|Hne].
  - destruct (add_returns doc s Hfit) as (s1 & -> & _ & Hdim & Hmet).
    destruct (IH s1) as [H1 H2]. rewrite H1, H2. auto.
  - rewrite (add_throws doc s Hne). auto.
Qed.

Lemma addMany_all_fit (docs : list VectorDocument) (s : VectorStore) :
  Forall (fits s) docs -> fst (addMany docs s) = Ok tt.
Proof.
  revert s. induction docs as [|doc docs IH]; intros s Hall; simpl; [reflexivity|].
  apply Forall_cons in Hall as [Hfit Hall]. unfold bind.
  destruct (add_returns doc s Hfit) as (s1 & -> & _ & Hdim & _).
  apply IH. eapply Forall_impl; [exact Hall|]. unfold fits. intros d. now rewrite Hdim.
Qed.

Lemma addMany_app (docs1 docs2 : list VectorDocument) (s : VectorStore) :
  fst (addMany docs1 s) = Ok tt ->
  addMany (docs1 ++ docs2) s = addMany docs2 (snd (addMany docs1 s)).
Proof.
  revert s. induction docs1 as [|doc docs IH]; intros s; simpl; [reflexivity|].
  unfold bind. destruct (add doc s) as [[[]|err] s1]; simpl; [apply IH | discriminate].
Qed.

Lemma addMany_throws_at
    (good : list VectorDocument) (bad : VectorDocument) (rest : list VectorDocument)
    (s : VectorStore) :
  Forall (fits s) good -> ~ fits s bad ->
  addMany (good ++ bad :: rest) s
  = (Throw (DimensionMismatch (dimensions s) (length (doc_vector bad))),
     snd (addMany good s)).
Proof.
  intros Hgood Hbad.
  rewrite addMany_app by (apply addMany_all_fit, Hgood). simpl. unfold bind.
  destruct (addMany_fits_dimensions good s) as [Hdim _].
  rewrite add_throws by (unfold fits; rewrite Hdim; exact Hbad).
  now rewrite Hdim.
Qed.

(** X4: [addMany] is not all-or-nothing: when the documents up to some
    point fit and the next one does not, the call throws the dimension
    error of that document, and the documents before it stay added. *)
Theorem addMany_keeps_what_it_added
    (good : list VectorDocument) (bad : VectorDocument) (rest : list VectorDocument)
    (s : VectorStore) :
  Forall (fun doc => Z.of_nat (length (doc_vector doc)) = dimensions s) good ->
  Z.of_nat (length (doc_vector bad)) <> dimensions s ->
  fst (addMany good s) = Ok tt /\
  size (snd (addMany (good ++ bad :: rest) s)) = size (snd (addMany good s)) /\
  addMany (good ++ bad :: rest) s
  = (Throw (DimensionMismatch (dimensions s) (length (doc_vector bad))),
     snd (addMany good s)).
Proof.
  intros Hgood Hbad. split; [apply addMany_all_fit, Hgood|].
  rewrite (addMany_throws_at good bad rest s Hgood Hbad). auto.
Qed.

(** X5: [VectorStore.import] returns a store exactly when every document
    of the data has a vector of the data's dimensions; otherwise it throws
    a dimension error. *)
Theorem import_succeeds_iff_all_fit (data : ExportedStore) :
  (Forall (fun doc => Z.of_nat (length (doc_vector doc)) = ex_dimensions data)
     (ex_documents data)
   -> exists s, import data = Ok s /\ dimensions s = ex_dimensions data /\
                distance s = ex_distance data) /\
  (Exists (fun doc => Z.of_nat (length (doc_vector doc)) <> ex_dimensions data)
     (ex_documents data)
   -> exists got, import data = Throw (DimensionMismatch (ex_dimensions data) got)).
Proof.
  unfold import.
  set (s0 := new_VectorStore {| opt_dimensions := ex_dimensions data;
                                opt_distance := Some (ex_distance data) |}).
  split.
  - intros Hall. pose proof (addMany_all_fit (ex_documents data) s0 Hall) as Hok.
    destruct (addMany_fits_dimensions (ex_documents data) s0) as [Hd Hm].
    destruct (addMany (ex_documents data) s0) as [[[]|err] s1]; simpl in *; [|discriminate].
    exists s1. auto.
  - intros Hex.
    assert (Hsplit : exists good bad rest,
              ex_documents data = good ++ bad :: rest /\
              Forall (fits s0) good /\ ~ fits s0 bad).
    { clear -Hex. induction Hex as [d l Hd | d l _ IH].
      - exists [], d, l. repeat split; [constructor | exact Hd].
      - destruct (Z.eq_dec (Z.of_nat (length (doc_vector d))) (ex_dimensions data)) as [E|N].
        + destruct IH as (good & bad & rest & -> & Hg & Hb).
          exists (d :: good), bad, rest. repeat split; [constructor; assumption | exact Hb].
        + exists [], d, l. repeat split; [constructor | exact N]. }
    destruct Hsplit as (good & bad & rest & -> & Hg & Hb).
    rewrite (addMany_throws_at good bad rest s0 Hg Hb).
    eexists. reflexivity.
Qed.
End StoreMoreFacts.

(** ** The vector store: what a search returns *)

Section SearchMoreFacts.
Context `{bm25 : BM25}.
Local Open Scope R_scope.


(** X6: every result of [search] is the result built for one stored
    document (its id, content and metadata, its distance to the query and
    the similarity derived from it), its similarity is not below
    [minSimilarity], and on a store a program can hold no document is
    returned twice. *)
Theorem search_returns_stored_documents
    (s : VectorStore) (q : list R) (k : Z) (minSimilarity : R)
    (results : list SearchResult) :
  reachable s ->
  search q k minSimilarity s = Ok results ->
  NoDup (map sr_id results) /\
  forall r, r ∈ results ->
    minSimilarity <= sr_similarity r /\
    exists doc,
      OMap.get (sr_id r) (documents s) = Some doc /\
      r = result_of (distance s) q doc.
Proof.
  intros Hr Hsearch.
  split; [eapply search_results_distinct; eassumption|].
  assert (Hdim : Z.of_nat (length q) = dimensions s).
  { unfold search in Hsearch.
    destruct (Z.eqb_spec (Z.of_nat (length q)) (dimensions s)); [assumption | discriminate]. }
  rewrite (search_eq s q k minSimilarity Hdim) in Hsearch. injection Hsearch as <-.
  intros r Hin. unfold slice0 in Hin.
  apply (fun H => elem_of_sublist _ _ _ H (sublist_take _ _)) in Hin.
  rewrite <- array_sort_perm in Hin.
  unfold candidates in Hin. apply list_elem_of_In, filter_In in Hin as [Hin Hpass].
  apply list_elem_of_In, list_elem_of_fmap in Hin as (doc & -> & Hdoc).
  split.
  - destruct (Rlt_dec _ minSimilarity); [discriminate | lra].
  - exists doc. split; [|reflexivity]. simpl.
    apply reachable_store_ok in Hr as [Hall Hnd].
    apply list_elem_of_fmap in Hdoc as ([key d] & -> & Hkd). simpl.
    rewrite Forall_forall in Hall. destruct (Hall _ Hkd) as (Hk & _). simpl in Hk. subst key.
    clear -Hkd Hnd. induction (documents s) as [|[k0 d0] l IH]; [inversion Hkd|].
    simpl in *. apply NoDup_cons in Hnd as [Hnin Hnd].
    apply elem_of_cons in Hkd as [E|Hkd].
    + inversion E. subst. now rewrite String.eqb_refl.
    + destruct (String.eqb k0 (sd_id d)) eqn:E; [|auto].
      apply String.eqb_eq in E. subst k0. exfalso. apply Hnin.
      apply omap_keys_elem. eauto.
Qed.

End SearchMoreFacts.

(** ** The three metrics *)

Section MetricFacts.
Local Open Scope R_scope.

Lemma euclid_loop_self (a : list R) (init : R) :
  fold_left (fun sum '(ai, bi) => let diff := ai - bi in sum + diff * diff)
    (combine a a) init = init.
Proof.
  revert init. induction a as [|x a IH]; intros init; simpl; [reflexivity|].
  rewrite IH. lra.
Qed.

(** X9: a vector is at Euclidean distance 0 from itself, with similarity 1,
    the zero vector and the empty vector included. *)
Theorem euclidean_identical (a : list R) :
  euclideanDistance a a = 0 /\
  similarityOf Euclidean (calculateDistance Euclidean a a None None) = 1.
Proof.
  assert (H : euclideanDistance a a = 0).
  { unfold euclideanDistance. rewrite euclid_loop_self. apply sqrt_0. }
  split; [exact H|]. simpl. rewrite H. lra.
Qed.

Lemma cosine_loop_swap (needA needB : bool) (a b : list R) (d x y : R) :
  fold_left
    (fun '(dot, nA, nB) '(ai, bi) =>
       (dot + ai * bi,
        if needB then nA + ai * ai else nA,
        if needA then nB + bi * bi else nB))
    (combine b a) (d, y, x)
  = let '(dot, nA, nB) :=
      fold_left
        (fun '(dot, nA, nB) '(ai, bi) =>
           (dot + ai * bi,
            if needA then nA + ai * ai else nA,
            if needB then nB + bi * bi else nB))
        (combine a b) (d, x, y) in
    (dot, nB, nA).
Proof.
  revert b d x y. induction a as [|ai a IH]; intros [|bi b] d x y; simpl; try reflexivity.
  rewrite (Rmult_comm bi ai). apply IH.
Qed.

Lemma euclid_loop_swap (a b : list R) (init : R) :
  fold_left (fun sum '(ai, bi) => let diff := ai - bi in sum + diff * diff)
    (combine b a) init
  = fold_left (fun sum '(ai, bi) => let diff := ai - bi in sum + diff * diff)
      (combine a b) init.
Proof.
  revert b init. induction a as [|ai a IH]; intros [|bi b] init; simpl; try reflexivity.
  rewrite IH. f_equal. lra.
Qed.

Lemma dot_loop_swap (a b : list R) (init : R) :
  fold_left (fun dot '(ai, bi) => dot + ai * bi) (combine b a) init
  = fold_left (fun dot '(ai, bi) => dot + ai * bi) (combine a b) init.
Proof.
  revert b init. induction a as [|ai a IH]; intros [|bi b] init; simpl; try reflexivity.
  rewrite IH. f_equal. lra.
Qed.

(** X10: under each metric the distance of two vectors of the same length
    does not depend on their order, the norms passed along being swapped
    with the vectors. *)
Theorem distance_symmetric (metric : DistanceMetric) (a b : list R)
    (normA normB : option R) :
  length a = length b ->
  calculateDistance metric a b normA normB = calculateDistance metric b a normB normA.
Proof.
  intros _. destruct metric; simpl.
  - unfold cosineDistance.
    rewrite (cosine_loop_swap
               (match normA with Some _ => false | None => true end)
               (match normB with Some _ => false | None => true end) a b).
    destruct (fold_left _ (combine a b) _) as [[dot nA] nB].
    rewrite (Rmult_comm
               (if match normB with Some _ => false | None => true end then sqrt nB else nB)).
    reflexivity.
  - unfold euclideanDistance. now rewrite euclid_loop_swap.
  - unfold dotProductDistance. now rewrite dot_loop_swap.
Qed.
End MetricFacts.

(** ** The vector store: searches and the keyword index *)

Section SearchEdgeFacts.
Context `{bm25 : BM25} `{fusion : HybridSearch}.

(** X11: the length of the query is checked before anything else: a query
    of another length than the store's dimensions throws the query
    dimension error whatever k, the threshold and the contents, also on a
    store just cleared; a query of the right length on a cleared store, or
    with k = 0, returns no result. *)
Theorem search_edge_cases (s : VectorStore) (q : list R) (k : Z) (minSimilarity : R) :
  (Z.of_nat (length q) <> dimensions s ->
   search q k minSimilarity s = Throw (QueryDimensionMismatch (dimensions s) (length q)) /\
   search q k minSimilarity (snd (clear s))
   = Throw (QueryDimensionMismatch (dimensions s) (length q))) /\
  (Z.of_nat (length q) = dimensions s ->
   search q k minSimilarity (snd (clear s)) = Ok [] /\
   search q 0 minSimilarity s = Ok []).
Proof.
  assert (Hc : dimensions (snd (clear s)) = dimensions s /\ documents (snd (clear s)) = []).
  { unfold clear, ret. simpl. destruct (bm25Index s); auto. }
  destruct Hc as [Hcd Hce]. split; intros Hdim.
  - unfold search. rewrite Hcd.
    destruct (Z.eqb_spec (Z.of_nat (length q)) (dimensions s)); [contradiction|]. auto.
  - split.
    + unfold search, size. rewrite Hcd, Hce.
      destruct (Z.eqb_spec (Z.of_nat (length q)) (dimensions s)); [|contradiction].
      reflexivity.
    + rewrite (search_eq s q 0 minSimilarity Hdim). unfold slice0.
      replace (Z.to_nat _) with 0%nat; [reflexivity|].
      destruct (Z.ltb_spec (Z.min 0 (Z.of_nat (length (candidates s q minSimilarity)))) 0); lia.
Qed.

(** X12: [hybridSearch] refuses a call that lacks what its mode needs, and
    leaves the store as it was: the vector and the hybrid mode without
    query vector, the keyword and the hybrid mode without keywords or with
    the empty string; in hybrid mode the query vector is looked at first. *)
Theorem hybridSearch_refuses_missing_arguments
    (s : VectorStore) (k : Z) (queryVector : option (list R)) (keywords : option string)
    (alpha : option R) (method : option FusionMethod) :
  (forall mode, mode <> ModeKeyword ->
     hybridSearch {| hs_mode := mode; hs_k := k; hs_queryVector := None;
                     hs_keywords := keywords; hs_alpha := alpha;
                     hs_fusionMethod := method |} s
     = (Throw (QueryVectorRequired mode), s)) /\
  (forall absent, absent = None \/ absent = Some EmptyString ->
     hybridSearch {| hs_mode := ModeKeyword; hs_k := k; hs_queryVector := queryVector;
                     hs_keywords := absent; hs_alpha := alpha;
                     hs_fusionMethod := method |} s
     = (Throw (KeywordsRequired ModeKeyword), s) /\
     forall q,
       hybridSearch {| hs_mode := ModeHybrid; hs_k := k; hs_queryVector := Some q;
                       hs_keywords := absent; hs_alpha := alpha;
                       hs_fusionMethod := method |} s
       = (Throw (KeywordsRequired ModeHybrid), s)).
Proof.
  split.
  - intros [] Hm; [reflexivity | contradiction | reflexivity].
  - intros absent [-> | ->]; split; try reflexivity; intros q; reflexivity.
Qed.

(** X13: no search changes what is stored: after [keywordSearch] and after
    [hybridSearch] in any mode, with any outcome, the documents, the
    dimensions and the metric of the store are the same; and a keyword
    index is configured after [keywordSearch]. *)
Theorem searches_keep_documents
    (s : VectorStore) (query : string) (k : Z) (options : HybridSearchOptions) :
  documents (snd (keywordSearch query k s)) = documents s /\
  dimensions (snd (keywordSearch query k s)) = dimensions s /\
  distance (snd (keywordSearch query k s)) = distance s /\
  is_Some (bm25Index (snd (keywordSearch query k s))) /\
  documents (snd (hybridSearch options s)) = documents s /\
  dimensions (snd (hybridSearch options s)) = dimensions s /\
  distance (snd (hybridSearch options s)) = distance s.
Proof.
  assert (Hk : forall query k,
             documents (snd (keywordSearch query k s)) = documents s /\
             dimensions (snd (keywordSearch query k s)) = dimensions s /\
             distance (snd (keywordSearch query k s)) = distance s /\
             is_Some (bm25Index (snd (keywordSearch query k s)))).
  { intros q0 k0. unfold keywordSearch. destruct (bm25Index s) eqn:E; simpl; rewrite ?E; eauto. }
  destruct (Hk query k) as (H1 & H2 & H3 & H4).
  split; [exact H1|]. split; [exact H2|]. split; [exact H3|]. split; [exact H4|].
  unfold hybridSearch.
  destruct (hs_mode options).
  - destruct (hs_queryVector options) as [qv|]; [|auto].
    unfold bind, liftResult. destruct (search qv _ _ s); auto.
  - destruct (given_keywords (hs_keywords options)) as [kw|]; [|auto].
    unfold bind. destruct (Hk kw (hs_k options)) as (K1 & K2 & K3 & _).
    destruct (keywordSearch kw (hs_k options) s) as [[hits|err] s1]; simpl in *; auto.
  - destruct (hs_queryVector options) as [qv|]; [|auto].
    destruct (given_keywords (hs_keywords options)) as [kw|]; [|auto].
    unfold bind, liftResult. destruct (search qv _ _ s); [|auto].
    destruct (Hk kw (Z.max (hs_k options * 3) 50)) as (K1 & K2 & K3 & _).
    destruct (keywordSearch kw _ s) as [[hits|err] s1]; simpl in *; auto.
Qed.

Lemma build_index_app (textFields : list string) (docs : list (string * StoredDocument))
    (extra : string * StoredDocument) (s : VectorStore) :
  build_index textFields (with_documents (docs ++ [extra]) s)
  = bm25_addDocument (build_index textFields (with_documents docs s))
      (sd_id (snd extra))
      (bm25_fields (sd_content (snd extra)) (sd_metadata (snd extra))).
Proof.
  unfold build_index, OMap.values. simpl. rewrite map_app, fold_left_app. reflexivity.
Qed.

(** X14: for a fitting document under a new id it does not matter whether
    the keyword index is configured before or after the document is added.
    Either way the store holds the earlier documents and then the new one,
    and its keyword index is a new index over the given text fields that
    was fed the earlier documents in their order and then the new one, each
    with its content and its metadata; an index configured before is
    replaced. *)
Theorem configureBM25_commutes_with_add
    (textFields : list string) (doc : VectorDocument) (s : VectorStore) :
  Z.of_nat (length (doc_vector doc)) = dimensions s ->
  OMap.has (doc_id doc) (documents s) = false ->
  let fed :=
    fold_left
      (fun idx stored =>
         bm25_addDocument idx (sd_id stored)
           (bm25_fields (sd_content stored) (sd_metadata stored)))
      (OMap.values (documents s) ++ [stored_of (distance s) doc])
      (bm25_new textFields) in
  let both :=
    {| documents := documents s ++ [(doc_id doc, stored_of (distance s) doc)];
       dimensions := dimensions s;
       distance := distance s;
       bm25Index := Some fed |} in
  configureBM25 textFields (snd (add doc s)) = (Ok tt, both) /\
  add doc (snd (configureBM25 textFields s)) = (Ok tt, both) /\
  fst (add doc s) = Ok tt /\
  bm25Index (snd (configureBM25 textFields s))
  = Some (fold_left
            (fun idx stored =>
               bm25_addDocument idx (sd_id stored)
                 (bm25_fields (sd_content stored) (sd_metadata stored)))
            (OMap.values (documents s)) (bm25_new textFields)).
Proof.
  intros Hfit Hnew fed both.
  assert (Hn : doc_id doc ∉ OMap.keys (documents s)).
  { rewrite <- omap_has_in. congruence. }
  subst fed both. unfold configureBM25, add, ret. simpl.
  destruct (Z.eqb_spec (Z.of_nat (length (doc_vector doc))) (dimensions s)); [|contradiction].
  simpl. rewrite !omap_set_absent by exact Hn.
  split; [|split; [|split]].
  - destruct (bm25Index s); simpl;
      unfold with_bm25Index, with_documents, build_index, OMap.values, stored_of; simpl;
      rewrite ?map_app, ?fold_left_app; reflexivity.
  - unfold with_bm25Index, with_documents, build_index, OMap.values, stored_of. simpl.
    rewrite ?map_app, ?fold_left_app. reflexivity.
  - destruct (bm25Index s); reflexivity.
  - reflexivity.
Qed.
End SearchEdgeFacts.

(** ** The memory: what a stored message leaves behind *)

Section StoringFacts.
Context `{bm25 : BM25} `{fusion : HybridSearch} `{json : Json}.
Implicit Types (w : World) (self : RAGMemory) (e : Entry).

(** An entry of the session that is in the registry and not expired is the
    one the cache access settles on. *)
Lemma resolved_live self w e :
  ragStores w !! storeKey self = Some e ->
  (clock w - lastAccess e <= STORE_TTL)%Z ->
  resolved_entry self w = e.
Proof.
  intros Hl Hage. unfold resolved_entry. rewrite sweep_lookup, Hl.
  destruct (Z.gtb_spec (clock w - lastAccess e) STORE_TTL); [lia | reflexivity].
Qed.

Lemma get_after_add (doc : VectorDocument) (s : VectorStore) :
  fits s doc -> get (doc_id doc) (snd (add doc s)) = Some doc.
Proof.
  intros Hfit. destruct (add_returns doc s Hfit) as (s' & E & Hd & _).
  rewrite E. simpl. unfold get. rewrite Hd, omap_get_set_eq. destruct doc; reflexivity.
Qed.

(** [addMessage] up to the outcome of [add], for a message that is not
    skipped and an embedder that answers. *)
Lemma addMessage_embedded_eq self message w
    (call : list string -> Result (list (list R))) (vector : list R)
    (others : list (list R)) :
  skipped message = false ->
  provider_embed (llmProvider self) = Some call ->
  call [content message] = Ok (vector :: others) ->
  let w0 := record_event (EmbedCall [content message]) (snd (getStore self w)) in
  let w1 := match entropy w with [] => w0 | _ :: rest => set_entropy rest w0 end in
  let doc := message_document message (clock w) (hd EmptyString (entropy w)) vector in
  addMessage self message w =
    match add doc (store (resolved_entry self w)) with
    | (Ok _, changed) =>
        (if persists self then saveToStaticData self else ret tt)
          (set_ragStores
             (alter (fun e => with_messages (messages e ++ [message]) e) (storeKey self)
                (alter (with_store changed) (storeKey self) (ragStores w1)))
             w1)
    | (Throw err, changed) =>
        (Throw err,
         set_ragStores (alter (with_store changed) (storeKey self) (ragStores w1)) w1)
    end.
Proof.
  intros Hskip Hprov Hcall. unfold addMessage, bind. rewrite getStore_eq, Hskip.
  unfold embed. rewrite Hprov. unfold bind, log, modify, liftResult. simpl. rewrite Hcall. simpl.
  unfold random36, message_document, on_store. simpl.
  destruct (entropy w) as [|suffix rest]; simpl;
    destruct (add _ (store (resolved_entry self w))) as [[[]|err] changed]; reflexivity.
Qed.

(** What the last step of [addMessage] does when the session's entry was
    just accessed: the entry stays, and it is written out when the memory
    persists. *)
Lemma save_if_persists_eq self w e :
  ragStores w !! storeKey self = Some e ->
  lastAccess e = clock w ->
  let out := (if persists self then saveToStaticData self else ret tt) w in
  fst out = Ok tt /\
  ragStores (snd out) !! storeKey self = Some e /\
  trace (snd out) = trace w /\
  staticData (snd out) =
    (if saves self
     then <[staticKey self := saved_value (store e) (messages e)]> (staticData w)
     else staticData w).
Proof.
  intros Hl Hage. unfold saves. destruct (persists self); simpl; [|auto].
  unfold saveToStaticData. destruct (executeFunctions self) as [ef|] eqn:E.
  - rewrite (bool_decide_eq_true_2 _ (mk_is_Some _ _ eq_refl)).
    unfold bind, modify. rewrite getStore_eq. simpl.
    rewrite (resolved_live self w e Hl) by (rewrite Hage; unfold STORE_TTL; lia).
    rewrite lookup_insert_eq.
    split; [reflexivity|]. split; [|split; reflexivity].
    destruct e; simpl in *; subst; reflexivity.
  - rewrite bool_decide_eq_false_2 by (intros [x Hx]; discriminate). auto.
Qed.

(** X15: a message that is not skipped, whose embedding the provider
    returns with the dimensions of the session's store, is stored: the
    call returns, the session's entry holds the message at the end of its
    list and the document made of the message in its store, where [get]
    finds it under its id; the embedder was called once, with the content
    alone; and the static data receive the exported entry when the memory
    persists, and are left alone when it does not. *)
Theorem addMessage_stores_the_message self message w
    (call : list string -> Result (list (list R))) (vector : list R)
    (others : list (list R)) :
  skipped message = false ->
  provider_embed (llmProvider self) = Some call ->
  call [content message] = Ok (vector :: others) ->
  Z.of_nat (length vector) = dimensions (store (resolved_entry self w)) ->
  let e := resolved_entry self w in
  let doc := message_document message (clock w) (hd EmptyString (entropy w)) vector in
  let stored := {| store := snd (add doc (store e));
                   messages := messages e ++ [message];
                   lastAccess := clock w |} in
  let w' := snd (addMessage self message w) in
  fst (addMessage self message w) = Ok tt /\
  ragStores w' !! storeKey self = Some stored /\
  get (doc_id doc) (store stored) = Some doc /\
  trace w' = trace w ++ [EmbedCall [content message]] /\
  staticData w' =
    (if saves self
     then <[staticKey self := saved_value (store stored) (messages stored)]> (staticData w)
     else staticData w).
Proof.
  intros Hskip Hprov Hcall Hfit e doc stored w'.
  assert (Hfits : fits (store e) doc) by exact Hfit.
  destruct (add_returns doc (store e) Hfits) as (s' & Eadd & _).
  assert (Hget : get (doc_id doc) (store stored) = Some doc) by (apply get_after_add, Hfits).
  subst w'. rewrite (addMessage_embedded_eq self message w call vector others Hskip Hprov Hcall).
  fold e doc. subst stored. rewrite Eadd in *. simpl in *.
  set (w2 := set_ragStores _ _).
  assert (Hl : ragStores w2 !! storeKey self
               = Some {| store := s'; messages := messages e ++ [message];
                         lastAccess := clock w |}).
  { subst w2. rewrite getStore_eq.
    destruct (entropy w); simpl;
      rewrite !lookup_alter_eq, lookup_insert_eq; reflexivity. }
  assert (Hw2 : clock w2 = clock w /\ trace w2 = trace w ++ [EmbedCall [content message]] /\
                staticData w2 = staticData w).
  { subst w2. rewrite getStore_eq. destruct (entropy w); simpl; auto. }
  destruct Hw2 as (Hc & Ht & Hs).
  destruct (save_if_persists_eq self w2 _ Hl) as (R1 & R2 & R3 & R4); [symmetry; exact Hc|].
  cbv zeta in R1, R2, R3, R4. rewrite Ht in R3.
  change (store {| store := s'; messages := messages e ++ [message]; lastAccess := clock w |})
    with s' in R4.
  change (messages {| store := s'; messages := messages e ++ [message]; lastAccess := clock w |})
    with (messages e ++ [message]) in R4.
  rewrite Hs in R4. auto.
Qed.
Lemma addMessages_app self (before rest : list Message) w :
  addMessages self (before ++ rest) w
  = match addMessages self before w with
    | (Ok _, w') => addMessages self rest w'
    | (Throw err, w') => (Throw err, w')
    end.
Proof.
  revert w. induction before as [|msg before IH]; intros w; simpl; [reflexivity|].
  unfold bind. destruct (addMessage self msg w) as [[[]|err] w1]; [apply IH | reflexivity].
Qed.

(** X25: [addMessages] hands the messages to [addMessage] one after the
    other, each in the state its predecessors left: with no message it
    returns at once; after messages that went through, the next message is
    handled by [addMessage], whose outcome and state are those of the call
    when it is the last message or when it throws; and once a message has
    thrown, the messages after it are not attempted: the call throws that
    error, and what the earlier messages stored stays stored. *)
Theorem addMessages_stops_at_first_failure self (before : list Message) w :
  addMessages self [] w = (Ok tt, w) /\
  (fst (addMessages self before w) = Ok tt ->
   forall (next : Message) (rest : list Message),
     addMessages self (before ++ [next]) w
     = addMessage self next (snd (addMessages self before w)) /\
     forall err,
       fst (addMessage self next (snd (addMessages self before w))) = Throw err ->
       addMessages self (before ++ next :: rest) w
       = addMessage self next (snd (addMessages self before w))) /\
  (forall err, fst (addMessages self before w) = Throw err ->
     forall rest, addMessages self (before ++ rest) w = addMessages self before w).
Proof.
  split; [reflexivity|]. split.
  - intros Hok next rest. rewrite !addMessages_app.
    destruct (addMessages self before w) as [[[]|err0] w1]; [|discriminate].
    simpl. unfold bind.
    destruct (addMessage self next w1) as [[[]|err1] w2]; simpl.
    + split; [reflexivity|]. intros err H. discriminate.
    + split; [reflexivity|]. intros err _. reflexivity.
  - intros err Hthrow rest. rewrite addMessages_app.
    destruct (addMessages self before w) as [[[]|err0] w1]; [discriminate | reflexivity].
Qed.
End StoringFacts.

(** ** The memory: what is saved comes back *)

Section SavedSessionFacts.
Context `{bm25 : BM25} `{fusion : HybridSearch} `{json : Json}.
Implicit Types (w : World) (self : RAGMemory) (e : Entry).

Lemma saveToStaticData_writes self w :
  is_Some (executeFunctions self) ->
  staticData (snd (saveToStaticData self w))
  = <[staticKey self := saved_value (store (resolved_entry self w))
                          (messages (resolved_entry self w))]> (staticData w).
Proof.
  intros [ef E]. unfold saveToStaticData. rewrite E. unfold bind, modify.
  rewrite getStore_eq. reflexivity.
Qed.

(** X17: what [saveToStaticData] writes for a session is what a later
    cache access restores when the session's entry is gone from the
    registry (evicted, or lost with the process): the saved message list,
    and the saved store with the same documents, dimensions and metric and
    a keyword index rebuilt over [content]. The store is one whose
    documents are filed under their own ids with vectors of its
    dimensions, and [JSON.parse] returns what [JSON.stringify] was given. *)
Theorem saved_session_is_restored self w (later : World) :
  saves self = true ->
  store_ok (store (resolved_entry self w)) ->
  let e := resolved_entry self w in
  let data := {| saved_store := export (store e); saved_messages := messages e |} in
  JSON_parse (JSON_stringify data) = Some (parsed_back data) ->
  staticData later !! staticKey self
  = staticData (snd (saveToStaticData self w)) !! staticKey self ->
  sweep (clock later) (ragStores later) !! storeKey self = None ->
  fst (getStore self later)
  = Ok (snd (configureBM25 ["content"%string] (store e)), messages e).
Proof.
  intros Hsaves Hok e data Hjson Hstatic Hgone.
  apply andb_true_iff in Hsaves as [Hp He]. apply bool_decide_eq_true_1 in He.
  rewrite (saveToStaticData_writes self w He), lookup_insert_eq in Hstatic.
  fold e in Hstatic.
  rewrite (getStore_restores self later
             {| store := snd (configureBM25 ["content"%string] (with_bm25Index None (store e)));
                messages := messages e;
                lastAccess := clock later |} Hgone Hp); [reflexivity|].
  unfold loaded_entry. destruct He as [ef ->]. rewrite Hstatic. unfold saved_value.
  fold data. rewrite Hjson. subst data. unfold parsed_back.
  cbn [raw_store raw_messages saved_store saved_messages].
  rewrite import_raw_of_export. subst e. rewrite (import_export_eq _ Hok). reflexivity.
Qed.
(** X18: [clear] forgets the session for good: it returns, the next
    [getStats] counts no message and no document and the next
    [getMessages] is empty, also for a memory that persists, whose saved
    value is deleted with the entry; the entries of the other sessions are
    not touched, not even swept. *)
Theorem clear_forgets_the_session self w :
  let w' := snd (RAGMemory_clear self w) in
  fst (RAGMemory_clear self w) = Ok tt /\
  fst (getStats self w') = Ok (0%Z, 0%Z, cfg_dimensions (config self)) /\
  fst (getMessages self w') = Ok [] /\
  (saves self = true -> staticData w' !! staticKey self = None) /\
  (forall key, key <> storeKey self -> ragStores w' !! key = ragStores w !! key).
Proof.
  intros w'.
  assert (Hw' : fst (RAGMemory_clear self w) = Ok tt /\
                ragStores w' = delete (storeKey self) (ragStores w) /\
                (saves self = true -> staticData w' !! staticKey self = None)).
  { subst w'. unfold RAGMemory_clear, bind, modify, saves. simpl.
    destruct (persists self && bool_decide (is_Some (executeFunctions self))); simpl.
    - split; [reflexivity|]. split; [reflexivity|]. intros _. apply lookup_delete_eq.
    - split; [reflexivity|]. split; [reflexivity|]. discriminate. }
  destruct Hw' as (Hr & Hreg & Hstatic).
  assert (Hres : resolved_entry self w' = fresh_entry self (clock w')).
  { unfold resolved_entry. rewrite sweep_lookup, Hreg, lookup_delete_eq.
    fold (saves self). destruct (saves self); [|reflexivity].
    unfold loaded_entry. rewrite (Hstatic eq_refl).
    destruct (executeFunctions self); reflexivity. }
  split; [exact Hr|].
  split; [unfold getStats, bind; rewrite getStore_eq, Hres; reflexivity|].
  split; [unfold getMessages, bind; rewrite getStore_eq, Hres; reflexivity|].
  split; [exact Hstatic|].
  intros key Hne. rewrite Hreg. apply lookup_delete_ne. congruence.
Qed.
End SavedSessionFacts.

(** ** The memory: sessions do not interfere *)

Section IsolationFacts.
Context `{bm25 : BM25} `{fusion : HybridSearch} `{json : Json}.
Implicit Types (w : World) (self : RAGMemory) (e : Entry).

Lemma others_kept_refl self w : others_kept self w w.
Proof. split; [reflexivity|]. intros key _. now left. Qed.

Lemma others_kept_trans self w w1 w2 :
  others_kept self w w1 -> others_kept self w1 w2 -> others_kept self w w2.
Proof.
  intros [Hc1 H1] [Hc2 H2]. split; [congruence|].
  intros key Hne. specialize (H1 key Hne). specialize (H2 key Hne).
  rewrite Hc1 in H2. rewrite sweep_lookup in H1, H2. rewrite sweep_lookup.
  destruct H2 as [H2|H2]; rewrite H2; clear H2.
  - destruct H1 as [H1|H1]; rewrite H1; [now left | now right].
  - right. destruct H1 as [H1|H1]; rewrite H1; [reflexivity|].
    destruct (ragStores w !! key) as [e|]; [|reflexivity].
    destruct (_ >? _)%Z eqn:E; [reflexivity | now rewrite E].
Qed.

Lemma bind_isolated {A B : Type} self (c : M World A) (k : A -> M World B) :
  isolated self c -> (forall a, isolated self (k a)) -> isolated self (bind c k).
Proof.
  intros Hc Hk w. unfold bind. specialize (Hc w).
  destruct (c w) as [[a|err] w1]; simpl in *; [|exact Hc].
  apply (others_kept_trans self w w1); [exact Hc | apply Hk].
Qed.

(** A step that leaves the clock and the registry as they are. *)
Lemma same_registry_isolated {A : Type} self (c : M World A) :
  (forall w, clock (snd (c w)) = clock w /\ ragStores (snd (c w)) = ragStores w) ->
  isolated self c.
Proof.
  intros H w. destruct (H w) as [Hc Hr]. split; [exact Hc|].
  intros key _. left. now rewrite Hr.
Qed.

Lemma ret_isolated {A : Type} self (a : A) : isolated self (ret a : M World A).
Proof. intros w. apply others_kept_refl. Qed.

Lemma throw_isolated {A : Type} self (err : Error) : isolated self (throw err : M World A).
Proof. intros w. apply others_kept_refl. Qed.

Lemma liftResult_isolated {A : Type} self (r : Result A) :
  isolated self (liftResult r : M World A).
Proof. intros w. unfold liftResult. destruct r; apply others_kept_refl. Qed.

Lemma gets_isolated {A : Type} self (f : World -> A) : isolated self (gets f).
Proof. intros w. apply others_kept_refl. Qed.

Lemma log_isolated self (ev : Event) : isolated self (log ev).
Proof. apply same_registry_isolated. intros w. split; reflexivity. Qed.

Lemma random36_isolated self : isolated self random36.
Proof.
  apply same_registry_isolated. intros w. unfold random36.
  destruct (entropy w); split; reflexivity.
Qed.

(** A step that changes the session's own entry only. *)
Lemma alter_isolated self (f : Entry -> Entry) :
  isolated self (modify (fun w => set_ragStores (alter f (storeKey self) (ragStores w)) w)).
Proof.
  intros w. split; [reflexivity|]. intros key Hne. left. simpl.
  apply lookup_alter_ne. congruence.
Qed.

Lemma on_store_isolated {A : Type} self (local : VectorStore) (method : M VectorStore A) :
  isolated self (on_store self local method).
Proof.
  intros w. unfold on_store. destruct (method local) as [r changed].
  exact (alter_isolated self (with_store changed) w).
Qed.

Lemma push_message_isolated self message : isolated self (push_message self message).
Proof. apply alter_isolated. Qed.

Lemma embed_isolated self text : isolated self (embed self text).
Proof.
  unfold embed. destruct (provider_embed (llmProvider self)); [|apply throw_isolated].
  apply bind_isolated; [apply log_isolated|]. intros _.
  apply bind_isolated; [apply liftResult_isolated|]. intros ?. apply ret_isolated.
Qed.

Lemma getStore_isolated self : isolated self (getStore self).
Proof.
  intros w. rewrite getStore_eq. split; [reflexivity|].
  intros key Hne. right. simpl. apply lookup_insert_ne. congruence.
Qed.

Lemma saveToStaticData_isolated self : isolated self (saveToStaticData self).
Proof.
  unfold saveToStaticData. destruct (executeFunctions self); [|apply ret_isolated].
  apply bind_isolated; [apply getStore_isolated|]. intros found.
  apply same_registry_isolated. intros w. split; reflexivity.
Qed.

(** Walks through a composition of steps, each of which stays within the
    session's own entry. *)
Ltac isolate :=
  repeat first
    [ apply ret_isolated | apply throw_isolated | apply liftResult_isolated
    | apply gets_isolated | apply log_isolated | apply random36_isolated
    | apply on_store_isolated | apply push_message_isolated
    | apply embed_isolated | apply saveToStaticData_isolated
    | apply getStore_isolated
    | apply bind_isolated; [|intros ?]
    | match goal with
      | |- isolated _ (if ?b then _ else _) => destruct b
      | |- isolated _ (match ?x with _ => _ end) => destruct x
      end ].

Lemma addMessage_isolated self message : isolated self (addMessage self message).
Proof. unfold addMessage. isolate. Qed.

Lemma addMessages_isolated self (newMessages : list Message) :
  isolated self (addMessages self newMessages).
Proof.
  induction newMessages as [|msg rest IH]; simpl; [apply ret_isolated|].
  apply bind_isolated; [apply addMessage_isolated | intros _; exact IH].
Qed.

Lemma getContext_isolated self query k : isolated self (getContext self query k).
Proof. unfold getContext. isolate. Qed.

Lemma isolated_keeps_live {A : Type} self (c : M World A) w key e :
  isolated self c ->
  key <> storeKey self ->
  ragStores w !! key = Some e ->
  (clock w - lastAccess e <= STORE_TTL)%Z ->
  ragStores (snd (c w)) !! key = Some e.
Proof.
  intros Hc Hne Hl Hage. destruct (Hc w) as [_ H].
  destruct (H key Hne) as [E|E]; rewrite E; [exact Hl|].
  rewrite sweep_lookup, Hl.
  destruct (Z.gtb_spec (clock w - lastAccess e) STORE_TTL); [lia | reflexivity].
Qed.

(** X19: the sessions do not interfere: whatever one session does
    ([addMessage], [addMessages], [getContext], [getMessages], [getStats],
    with any outcome), the entry of every other key that is in the registry
    and not idle for longer than the TTL is afterwards what it was: the
    same store, the same messages, the same [lastAccess]. *)
Theorem sessions_do_not_interfere self w (key : string) e
    (message : Message) (newMessages : list Message) (query : string) (k : option Z) :
  key <> storeKey self ->
  ragStores w !! key = Some e ->
  (clock w - lastAccess e <= STORE_TTL)%Z ->
  ragStores (snd (addMessage self message w)) !! key = Some e /\
  ragStores (snd (addMessages self newMessages w)) !! key = Some e /\
  ragStores (snd (getContext self query k w)) !! key = Some e /\
  ragStores (snd (getMessages self w)) !! key = Some e /\
  ragStores (snd (getStats self w)) !! key = Some e.
Proof.
  intros Hne Hl Hage.
  split; [apply (isolated_keeps_live self _ w key e (addMessage_isolated self message)); assumption|].
  split; [apply (isolated_keeps_live self _ w key e (addMessages_isolated self newMessages));
          assumption|].
  split; [apply (isolated_keeps_live self _ w key e (getContext_isolated self query k));
          assumption|].
  split; apply (isolated_keeps_live self _ w key e); try assumption.
  - unfold getMessages. isolate.
  - unfold getStats. isolate.
Qed.
End IsolationFacts.

(** ** The memory: the context of a query *)

Section ContextMoreFacts.
Context `{bm25 : BM25} `{fusion : HybridSearch} `{json : Json}.
Implicit Types (w : World) (self : RAGMemory) (e : Entry).

Lemma search_results_pass (s : VectorStore) (q : list R) (k : Z) (minSimilarity : R)
    (results : list SearchResult) :
  search q k minSimilarity s = Ok results ->
  Forall (fun r => (minSimilarity <= sr_similarity r)%R) results.
Proof.
  intros Hsearch.
  assert (Hdim : Z.of_nat (length q) = dimensions s).
  { unfold search in Hsearch.
    destruct (Z.eqb_spec (Z.of_nat (length q)) (dimensions s)); [assumption | discriminate]. }
  rewrite (search_eq s q k minSimilarity Hdim) in Hsearch. injection Hsearch as <-.
  apply Forall_forall. intros r Hin. unfold slice0 in Hin.
  apply (fun H => elem_of_sublist _ _ _ H (sublist_take _ _)) in Hin.
  rewrite <- array_sort_perm in Hin.
  unfold candidates in Hin. apply list_elem_of_In, filter_In in Hin as [_ Hpass].
  destruct (Rlt_dec _ minSimilarity); [discriminate | lra].
Qed.

Lemma threshold_filter_passes (m : R) (history : list HistoryItem) :
  Forall (fun h => (m <= h_similarity h)%R)
    (List.filter (fun h => if Rle_dec m (h_similarity h) then true else false) history).
Proof.
  apply Forall_forall. intros h Hin. apply list_elem_of_In, filter_In in Hin as [_ Hp].
  destruct (Rle_dec m (h_similarity h)); [assumption | discriminate].
Qed.

(** X20: on a session without indexed documents [getContext] makes no
    search: with an embedder that answers, whatever it answers, the call
    returns the session's message list and an empty history, and nothing
    happened but the cache access and the one embedder call. *)
Theorem getContext_empty_index self (query : string) (k : option Z) w
    (call : list string -> Result (list (list R))) (embeddings : list (list R)) :
  provider_embed (llmProvider self) = Some call ->
  call [query] = Ok embeddings ->
  size (store (resolved_entry self w)) = 0%Z ->
  getContext self query k w
  = (Ok {| ctx_messages := messages (resolved_entry self w); relevantHistory := [] |},
     record_event (EmbedCall [query]) (snd (getStore self w))).
Proof.
  intros Hprov Hcall Hsize. unfold getContext, bind. rewrite getStore_eq.
  unfold embed. rewrite Hprov. unfold bind, log, modify, liftResult. simpl.
  rewrite Hcall. simpl. rewrite Hsize. simpl.
  destruct (threshold self); reflexivity.
Qed.

(** X21: what [getContext] returns, when it returns: the message list of
    the session, and a history in which no item is below the configured
    threshold, when one is set (present and not 0); in the vector mode no
    item is below [minSimilarity] (0 when absent) either way, since
    [search] has dropped those already. *)
Theorem getContext_respects_threshold self (query : string) (k : option Z) w
    (ctx : RAGContext) :
  fst (getContext self query k w) = Ok ctx ->
  ctx_messages ctx = messages (resolved_entry self w) /\
  (forall m, threshold self = Some m ->
     Forall (fun h => (m <= h_similarity h)%R) (relevantHistory ctx)) /\
  (cfg_searchMode (config self) <> Some ModeHybrid ->
   cfg_searchMode (config self) <> Some ModeKeyword ->
   Forall (fun h => (default 0%R (cfg_minSimilarity (config self)) <= h_similarity h)%R)
     (relevantHistory ctx)).
Proof.
  intros H. unfold getContext, bind in H. rewrite getStore_eq in H.
  destruct (embed self query _) as [[qv|err] w1]; [|discriminate].
  assert (Hfilter : forall history,
            (cfg_searchMode (config self) <> Some ModeHybrid ->
             cfg_searchMode (config self) <> Some ModeKeyword ->
             Forall (fun h => (default 0%R (cfg_minSimilarity (config self))
                               <= h_similarity h)%R) history) ->
            ctx = {| ctx_messages := messages (resolved_entry self w);
                     relevantHistory :=
                       match threshold self with
                       | Some m =>
                           List.filter
                             (fun h => if Rle_dec m (h_similarity h) then true else false)
                             history
                       | None => history
                       end |} ->
            ctx_messages ctx = messages (resolved_entry self w) /\
            (forall m, threshold self = Some m ->
               Forall (fun h => (m <= h_similarity h)%R) (relevantHistory ctx)) /\
            (cfg_searchMode (config self) <> Some ModeHybrid ->
             cfg_searchMode (config self) <> Some ModeKeyword ->
             Forall (fun h => (default 0%R (cfg_minSimilarity (config self))
                               <= h_similarity h)%R) (relevantHistory ctx))).
  { intros history Hv ->. simpl. split; [reflexivity|]. split.
    - intros m ->. apply threshold_filter_passes.
    - intros N1 N2. specialize (Hv N1 N2).
      destruct (threshold self); [|exact Hv].
      apply Forall_forall. intros h Hin. apply list_elem_of_In, filter_In in Hin as [Hin _].
      rewrite Forall_forall in Hv. apply Hv, list_elem_of_In, Hin. }
  simpl in H.
  destruct (size (store (resolved_entry self w)) >? 0)%Z.
  2:{ simpl in H. injection H as <-. apply (Hfilter []); [constructor | reflexivity]. }
  destruct (cfg_searchMode (config self)) as [[]|] eqn:Hmode.
  - destruct qv as [q|]; [|discriminate].
    unfold bind, log, modify, liftResult in H. simpl in H.
    destruct (search q _ _ _) as [results|e] eqn:S; [|discriminate].
    simpl in H. injection H as <-. eapply Hfilter; [|reflexivity].
    intros _ _. apply Forall_map. exact (search_results_pass _ _ _ _ _ S).
  - unfold bind, log, modify, on_store in H. simpl in H.
    destruct (keywordSearch query _ _) as [[results|e] changed]; [|discriminate].
    simpl in H. injection H as <-. eapply Hfilter; [|reflexivity].
    intros _ N. contradiction.
  - unfold bind, log, modify, on_store in H. simpl in H.
    destruct (hybridSearch _ _) as [[results|e] changed]; [|discriminate].
    simpl in H. injection H as <-. eapply Hfilter; [|reflexivity].
    intros N. contradiction.
  - destruct qv as [q|]; [|discriminate].
    unfold bind, log, modify, liftResult in H. simpl in H.
    destruct (search q _ _ _) as [results|e] eqn:S; [|discriminate].
    simpl in H. injection H as <-. eapply Hfilter; [|reflexivity].
    intros _ _. apply Forall_map. exact (search_results_pass _ _ _ _ _ S).
Qed.
End ContextMoreFacts.

(** ** The norms cached at insertion *)

Section CachedNormFacts.
Context `{bm25 : BM25}.
Local Open Scope R_scope.

(** The three accumulators of the loop of [cosineDistance], one by one. *)
Lemma cosine_loop_parts (needA needB : bool) (l : list (R * R)) (d x y : R) :
  fold_left
    (fun '(dot, nA, nB) '(ai, bi) =>
       (dot + ai * bi,
        if needA then nA + ai * ai else nA,
        if needB then nB + bi * bi else nB))
    l (d, x, y)
  = (fold_left (fun dot '(ai, bi) => dot + ai * bi) l d,
     if needA then fold_left (fun sum x => sum + x * x) (map fst l) x else x,
     if needB then fold_left (fun sum x => sum + x * x) (map snd l) y else y).
Proof.
  revert d x y. induction l as [|[ai bi] l IH]; intros d x y; simpl.
  - destruct needA, needB; reflexivity.
  - rewrite IH. destruct needA, needB; reflexivity.
Qed.

Lemma combine_fst_snd (a b : list R) :
  length a = length b -> map fst (combine a b) = a /\ map snd (combine a b) = b.
Proof.
  revert b. induction a as [|x a IH]; intros [|y b] Hlen; simpl in *; try discriminate; auto.
  injection Hlen as Hlen. destruct (IH b Hlen) as [-> ->]. auto.
Qed.

(** With the norm of either vector handed in, [cosineDistance] returns
    what it returns when it computes the norms in its loop. *)
Lemma cosineDistance_cached (a b : list R) (normA normB : option R) :
  length a = length b ->
  normA = None \/ normA = Some (computeNorm a) ->
  normB = None \/ normB = Some (computeNorm b) ->
  cosineDistance a b normA normB = cosineDistance a b None None.
Proof.
  intros Hlen HA HB. destruct (combine_fst_snd a b Hlen) as [Ha Hb].
  unfold cosineDistance.
  rewrite (cosine_loop_parts true true), Ha, Hb.
  destruct HA as [-> | ->], HB as [-> | ->]; simpl.
  - rewrite (cosine_loop_parts true true), Ha, Hb. reflexivity.
  - rewrite (cosine_loop_parts true false), Ha. reflexivity.
  - rewrite (cosine_loop_parts false true), Hb. reflexivity.
  - rewrite (cosine_loop_parts false false). reflexivity.
Qed.

Lemma omap_get_of_elem {V : Type} (key : string) (v : V) (m : list (string * V)) :
  NoDup (OMap.keys m) -> (key, v) ∈ m -> OMap.get key m = Some v.
Proof.
  induction m as [|[k0 v0] m IH]; intros Hnd Hin; [inversion Hin|].
  simpl in *. apply NoDup_cons in Hnd as [Hnin Hnd].
  apply elem_of_cons in Hin as [E|Hin].
  - inversion E. subst. now rewrite String.eqb_refl.
  - destruct (String.eqb k0 key) eqn:E; [|auto].
    apply String.eqb_eq in E. subst k0. exfalso. apply Hnin.
    apply omap_keys_elem. eauto.
Qed.

(** X22: the norms cached when a document is added change no distance: on
    a store a program can hold, under each metric, the distance of every
    result of [search] is the distance of the query to the vector of the
    stored document of that id as the metric computes it without any norm
    handed in, and the similarity is derived from that distance. *)
Theorem search_distances_ignore_the_cache
    (s : VectorStore) (q : list R) (k : Z) (minSimilarity : R)
    (results : list SearchResult) :
  reachable s ->
  search q k minSimilarity s = Ok results ->
  forall r, r ∈ results ->
    exists doc,
      get (sr_id r) s = Some doc /\
      sr_distance r = calculateDistance (distance s) q (doc_vector doc) None None /\
      sr_similarity r = similarityOf (distance s) (sr_distance r).
Proof.
  intros Hr Hsearch r Hin.
  assert (Hdim : Z.of_nat (length q) = dimensions s).
  { unfold search in Hsearch.
    destruct (Z.eqb_spec (Z.of_nat (length q)) (dimensions s)); [assumption | discriminate]. }
  rewrite (search_eq s q k minSimilarity Hdim) in Hsearch. injection Hsearch as <-.
  unfold slice0 in Hin.
  apply (fun H => elem_of_sublist _ _ _ H (sublist_take _ _)) in Hin.
  rewrite <- array_sort_perm in Hin.
  unfold candidates in Hin. apply list_elem_of_In, filter_In in Hin as [Hin _].
  apply list_elem_of_In, list_elem_of_fmap in Hin as (sd & -> & Hsd).
  apply list_elem_of_fmap in Hsd as ([key d] & -> & Hkd). simpl.
  apply reachable_store_ok in Hr as [Hall Hnd].
  rewrite Forall_forall in Hall. destruct (Hall _ Hkd) as (Hk & Hlen & Hnorm).
  simpl in Hk, Hlen, Hnorm. subst key.
  exists {| doc_id := sd_id d; doc_content := sd_content d;
            doc_vector := sd_vector d; doc_metadata := sd_metadata d |}.
  split; [unfold get; now rewrite (omap_get_of_elem _ _ _ Hnd Hkd)|].
  split; [|reflexivity]. simpl.
  destruct (distance s); simpl in *; try reflexivity.
  rewrite Hnorm. apply cosineDistance_cached; [lia | auto | auto].
Qed.
End CachedNormFacts.

(** ** The memory: a session within its time to live *)

Section LiveSessionFacts.
Context `{bm25 : BM25} `{fusion : HybridSearch} `{json : Json}.
Implicit Types (w : World) (self : RAGMemory) (e : Entry).

(** X23: a session whose entry is in the registry and idle for no longer
    than the TTL (one hour to the millisecond included) is served from the
    registry: the cache access returns its store and its messages as they
    are, [getMessages] its messages, [getStats] their number and the size
    of the store; only [lastAccess] is set to the clock, and the static
    data are neither read nor written. *)
Theorem live_session_is_served_from_the_registry self w e :
  ragStores w !! storeKey self = Some e ->
  (clock w - lastAccess e <= STORE_TTL)%Z ->
  getStore self w
  = (Ok (store e, messages e),
     set_ragStores
       (<[storeKey self := with_lastAccess (clock w) e]> (sweep (clock w) (ragStores w))) w) /\
  fst (getMessages self w) = Ok (messages e) /\
  fst (getStats self w)
  = Ok (Z.of_nat (length (messages e)), size (store e), cfg_dimensions (config self)) /\
  staticData (snd (getStore self w)) = staticData w.
Proof.
  intros Hl Hage. pose proof (resolved_live self w e Hl Hage) as Hres.
  unfold getMessages, getStats, bind. rewrite getStore_eq, Hres. auto.
Qed.

Lemma append_cancel (prefix a b : string) : (prefix ++ a = prefix ++ b)%string -> a = b.
Proof.
  induction prefix as [|c prefix IH]; simpl; intros H; [exact H|].
  injection H as H. exact (IH H).
Qed.

(** X24: two memories made for the same workflow and different session ids
    work on different entries of the registry and on different keys of the
    static data. *)
Theorem sessions_have_their_own_keys (config1 config2 : RAGConfig)
    (provider1 provider2 : LLMProvider) (context : option ExecuteFunctions) :
  cfg_sessionId config1 <> cfg_sessionId config2 ->
  storeKey (new_RAGMemory config1 provider1 context)
  <> storeKey (new_RAGMemory config2 provider2 context) /\
  staticKey (new_RAGMemory config1 provider1 context)
  <> staticKey (new_RAGMemory config2 provider2 context).
Proof.
  intros Hne. split; intros E; apply Hne.
  - unfold new_RAGMemory in E. simpl in E.
    apply append_cancel in E. exact (append_cancel "__" _ _ E).
  - unfold staticKey, new_RAGMemory in E. simpl in E.
    exact (append_cancel "rag_" _ _ E).
Qed.
End LiveSessionFacts.

(** ** The further properties on the sample data *)

Section StoreSamples.
#[local] Existing Instance NoKeywords.
Local Open Scope R_scope.

Lemma search_store_ab :
  search [1] 1 0 store_ab =
    Ok [ {| sr_id := "b"; sr_content := "b";
            sr_distance := - (0 + 1 * 2); sr_similarity := - - (0 + 1 * 2);
            sr_metadata := None |} ].
Proof.
  unfold search. simpl. unfold search_step. simpl.
  unfold dotProductDistance. simpl.
  destruct (Rlt_dec (- - (0 + 1 * 1)) 0) as [H|_]; [exfalso; lra|].
  simpl.
  destruct (Rlt_dec (- - (0 + 1 * 2)) 0) as [H|_]; [exfalso; lra|].
  simpl. unfold by_distance. simpl.
  destruct (Rlt_dec 0 (- (0 + 1 * 1) - - (0 + 1 * 2))) as [_|H]; [|exfalso; apply H; lra].
  unfold slice0. simpl. reflexivity.
Qed.

Lemma add_new_id_appends_witness :
  exists s',
    add (sample_doc "c" 3) store_ab = (Ok tt, s') /\
    size s' = 3%Z /\
    OMap.keys (documents s') = ["a"; "b"; "c"]%string.
Proof.
  destruct (add_new_id_appends (sample_doc "c" 3) store_ab) as (s' & H1 & H2 & H3 & _).
  - reflexivity.
  - reflexivity.
  - exists s'. split; [exact H1|]. split; [rewrite H2; reflexivity | rewrite H3; reflexivity].
Defined.

Lemma remove_forgets_the_document_witness :
  exists s',
    remove "a" store_ab = (Ok true, s') /\ get "a" s' = None /\ size s' = 1%Z.
Proof.
  destruct (remove_forgets_the_document store_ab "a" store_ab_reachable)
    as (s' & H1 & H2 & H3 & _).
  exists s'. split; [exact H1|]. split; [exact H2 | rewrite H3; reflexivity].
Defined.

Lemma reachable_documents_well_formed_witness :
  doc_id (sample_doc "a" 1) = "a"%string /\
  Z.of_nat (length (doc_vector (sample_doc "a" 1))) = dimensions store_ab.
Proof.
  apply (reachable_documents_well_formed store_ab "a" (sample_doc "a" 1) store_ab_reachable).
  reflexivity.
Defined.

Lemma addMany_keeps_what_it_added_witness :
  size (snd (addMany
               [sample_doc "c" 3;
                {| doc_id := "d"; doc_content := "d"; doc_vector := [3; 4];
                   doc_metadata := None |};
                sample_doc "e" 5]
               store_ab)) = 3%Z.
Proof.
  destruct (addMany_keeps_what_it_added
              [sample_doc "c" 3]
              {| doc_id := "d"; doc_content := "d"; doc_vector := [3; 4];
                 doc_metadata := None |}
              [sample_doc "e" 5] store_ab) as (_ & H & _).
  - repeat constructor.
  - simpl. lia.
  - simpl app in H. rewrite H. reflexivity.
Defined.

Lemma import_succeeds_iff_all_fit_witness :
  exists s : @VectorStore NoKeywords,
    import {| ex_dimensions := 1; ex_distance := Dot;
              ex_documents := [sample_doc "a" 1] |} = Ok s /\
    dimensions s = 1%Z.
Proof.
  destruct (import_succeeds_iff_all_fit
              {| ex_dimensions := 1; ex_distance := Dot;
                 ex_documents := [sample_doc "a" 1] |}) as [Hall _].
  destruct Hall as (s & H1 & H2 & _).
  - repeat constructor.
  - exists s. split; [exact H1 | exact H2].
Defined.

Lemma search_returns_stored_documents_witness :
  exists doc,
    OMap.get "b" (documents store_ab) = Some doc /\ sd_content doc = "b"%string.
Proof.
  destruct (search_returns_stored_documents store_ab [1] 1 0 _ store_ab_reachable
              search_store_ab) as [_ H].
  destruct (H _ (list_elem_of_here _ _)) as (_ & doc & Hget & Hr).
  exists doc. split; [exact Hget|].
  apply (f_equal sr_content) in Hr. simpl in Hr. symmetry. exact Hr.
Defined.


Lemma distance_symmetric_witness :
  calculateDistance Euclidean [1; 2] [3; 4] None None
  = calculateDistance Euclidean [3; 4] [1; 2] None None.
Proof. apply distance_symmetric. reflexivity. Defined.

Lemma search_edge_cases_witness :
  search [1; 2] 1 0 store_ab = Throw (QueryDimensionMismatch 1 2) /\
  search [1] 1 0 (snd (clear store_ab)) = Ok [].
Proof.
  destruct (search_edge_cases store_ab [1; 2] 1 0) as [H _].
  destruct (search_edge_cases store_ab [1] 1 0) as [_ H'].
  split; [apply H; simpl; lia | apply H'; reflexivity].
Defined.

Lemma hybridSearch_refuses_missing_arguments_witness :
  @hybridSearch NoKeywords (FusionSpec.instance 0)
    {| hs_mode := ModeHybrid; hs_k := 3; hs_queryVector := None;
       hs_keywords := Some "hello"%string; hs_alpha := None; hs_fusionMethod := None |}
    store_ab
  = (Throw (QueryVectorRequired ModeHybrid), store_ab).
Proof.
  destruct (@hybridSearch_refuses_missing_arguments NoKeywords (FusionSpec.instance 0)
              store_ab 3 None (Some "hello"%string) None None) as [H _].
  apply H. discriminate.
Defined.

Lemma configureBM25_commutes_with_add_witness :
  configureBM25 ["content"%string] (snd (add (sample_doc "c" 3) store_ab))
  = add (sample_doc "c" 3) (snd (configureBM25 ["content"%string] store_ab)) /\
  OMap.keys (documents (snd (add (sample_doc "c" 3)
                               (snd (configureBM25 ["content"%string] store_ab)))))
  = ["a"; "b"; "c"]%string.
Proof.
  destruct (configureBM25_commutes_with_add ["content"%string] (sample_doc "c" 3) store_ab)
    as (H1 & H2 & _).
  - reflexivity.
  - reflexivity.
  - split; [rewrite H1, H2; reflexivity | rewrite H2; reflexivity].
Defined.

Lemma search_distances_ignore_the_cache_witness :
  exists doc,
    get "b" store_ab = Some doc /\
    - (0 + 1 * 2) = calculateDistance Dot [1] (doc_vector doc) None None.
Proof.
  destruct (search_distances_ignore_the_cache store_ab [1] 1 0 _ store_ab_reachable
              search_store_ab _ (list_elem_of_here _ _)) as (doc & Hget & Hd & _).
  exists doc. split; [exact Hget | exact Hd].
Defined.
End StoreSamples.

Section SessionSamples.
#[local] Existing Instance NoKeywords.
#[local] Existing Instance SampleJson.
Local Open Scope R_scope.

Lemma resolved_at_1000 (self : RAGMemory) :
  storeKey self = storeKey memory_plain ->
  resolved_entry self (world_at 1000)
  = {| store := @fresh_store NoKeywords memory_plain; messages := [hello]; lastAccess := 0 |}.
Proof.
  intros Hkey. apply resolved_live.
  - rewrite Hkey. apply lookup_singleton_eq.
  - simpl. unfold STORE_TTL. lia.
Qed.

Lemma addMessage_stores_the_message_witness :
  fst (addMessage memory_embedding hello (world_at 1000)) = Ok tt /\
  messages <$> (ragStores (snd (addMessage memory_embedding hello (world_at 1000)))
                  !! storeKey memory_embedding) = Some [hello; hello] /\
  trace (snd (addMessage memory_embedding hello (world_at 1000))) = [EmbedCall ["hello"%string]].
Proof.
  destruct (addMessage_stores_the_message memory_embedding hello (world_at 1000)
              (fun texts => Ok (map (fun _ => [1]) texts)) [1] [])
    as (H1 & H2 & _ & H4 & _).
  - reflexivity.
  - reflexivity.
  - reflexivity.
  - rewrite (resolved_at_1000 memory_embedding eq_refl). reflexivity.
  - split; [exact H1|]. split; [|exact H4].
    rewrite H2, (resolved_at_1000 memory_embedding eq_refl). reflexivity.
Defined.



Lemma sessions_do_not_interfere_witness :
  ragStores (snd (addMessage memory_other hello (world_at 1000))) !! storeKey memory_plain
  = Some {| store := @fresh_store NoKeywords memory_plain; messages := [hello];
            lastAccess := 0 |}.
Proof.
  destruct (@sessions_do_not_interfere NoKeywords (FusionSpec.instance 0) SampleJson
              memory_other (world_at 1000) (storeKey memory_plain)
              {| store := @fresh_store NoKeywords memory_plain; messages := [hello];
                 lastAccess := 0 |}
              hello [] "hi"%string None) as (H & _).
  - vm_compute. discriminate.
  - apply lookup_singleton_eq.
  - simpl. unfold STORE_TTL. lia.
  - exact H.
Defined.

Lemma getContext_empty_index_witness :
  fst (@getContext NoKeywords (FusionSpec.instance 0) SampleJson
         memory_embedding "hi" None (world_at 1000))
  = Ok {| ctx_messages := [hello]; relevantHistory := [] |}.
Proof.
  rewrite (@getContext_empty_index NoKeywords (FusionSpec.instance 0) SampleJson
             memory_embedding "hi" None (world_at 1000)
             (fun texts => Ok (map (fun _ => [1]) texts)) [[1]]).
  - simpl. rewrite (resolved_at_1000 memory_embedding eq_refl). reflexivity.
  - reflexivity.
  - reflexivity.
  - rewrite (resolved_at_1000 memory_embedding eq_refl). reflexivity.
Defined.

Lemma getContext_listed :
  fst (@getContext ListedKeywords (FusionSpec.instance 0) SampleJson
         memory_keyword "hello" None world_listed)
  = Ok context_listed /\
  (match fst (@keywordSearch ListedKeywords "hello" 10 store_listed) with
   | Ok hits => length hits
   | Throw _ => 0%nat
   end) = 2%nat.
Proof.
  split; [|reflexivity].
  unfold getContext, bind. rewrite getStore_eq.
  rewrite (resolved_live memory_keyword world_listed
             {| store := store_listed; messages := [hello]; lastAccess := 0 |});
    [|apply lookup_singleton_eq | simpl; unfold STORE_TTL; lia].
  unfold embed, bind, log, modify, liftResult, on_store, gets, threshold. simpl.
  rewrite lookup_alter_eq, lookup_insert_eq. simpl.
  destruct (Req_dec_T (1 / 2) 0) as [E|_]; [exfalso; lra|].
  simpl.
  destruct (Rle_dec (1 / 2) 1) as [_|H]; [|exfalso; apply H; lra].
  destruct (Rle_dec (1 / 2) (1 / 4)) as [H|_]; [exfalso; lra|].
  reflexivity.
Qed.

Lemma getContext_respects_threshold_witness :
  Forall (fun h => 1 / 2 <= h_similarity h) (relevantHistory context_listed) /\
  length (relevantHistory context_listed) = 1%nat.
Proof.
  destruct (@getContext_respects_threshold ListedKeywords (FusionSpec.instance 0) SampleJson
              memory_keyword "hello" None world_listed context_listed
              (proj1 getContext_listed))
    as (_ & H & _).
  split; [|reflexivity].
  apply H. unfold threshold. simpl.
  destruct (Req_dec_T (1 / 2) 0) as [E|_]; [exfalso; lra | reflexivity].
Defined.
End SessionSamples.

Section SavedSessionSamples.
#[local] Existing Instance NoKeywords.
#[local] Existing Instance SessionJson.
Local Open Scope R_scope.

Lemma store_hello_reachable : reachable store_hello.
Proof. apply reach_add, reach_configureBM25, reach_new. Qed.

Lemma resolved_session :
  resolved_entry memory_persistent world_session
  = {| store := store_hello; messages := [hello]; lastAccess := 0 |}.
Proof.
  apply resolved_live; [apply lookup_singleton_eq|].
  simpl. unfold STORE_TTL. lia.
Qed.

Lemma saved_session_is_restored_witness :
  exists restored,
    fst (getStore memory_persistent
           {| ragStores := ∅;
              staticData := staticData (snd (saveToStaticData memory_persistent world_session));
              clock := 5000000; entropy := []; trace := [] |})
    = Ok (restored, [hello]) /\
    documents restored = documents store_hello.
Proof.
  exists (snd (configureBM25 ["content"%string] store_hello)).
  split; [|reflexivity].
  rewrite (saved_session_is_restored memory_persistent world_session
             {| ragStores := ∅;
                staticData := staticData (snd (saveToStaticData memory_persistent world_session));
                clock := 5000000; entropy := []; trace := [] |}).
  - rewrite resolved_session. reflexivity.
  - reflexivity.
  - rewrite resolved_session. apply reachable_store_ok, store_hello_reachable.
  - rewrite resolved_session. reflexivity.
  - reflexivity.
  - rewrite sweep_lookup. simpl. rewrite lookup_empty. reflexivity.
Defined.
End SavedSessionSamples.

Section LiveSessionSamples.
#[local] Existing Instance NoKeywords.
#[local] Existing Instance SampleJson.

Lemma live_session_is_served_from_the_registry_witness :
  fst (getMessages memory_plain (world_at 3600000)) = Ok [hello] /\
  fst (getStats memory_plain (world_at 3600000)) = Ok (1%Z, 0%Z, 1%Z).
Proof.
  destruct (live_session_is_served_from_the_registry memory_plain (world_at 3600000)
              {| store := @fresh_store NoKeywords memory_plain; messages := [hello];
                 lastAccess := 0 |}) as (_ & H1 & H2 & _).
  - apply lookup_singleton_eq.
  - simpl. unfold STORE_TTL. lia.
  - split; [exact H1 | exact H2].
Defined.

Lemma sessions_have_their_own_keys_witness :
  storeKey memory_plain <> storeKey memory_other /\
  staticKey memory_plain <> staticKey memory_other.
Proof.
  apply (sessions_have_their_own_keys (session_config false)
           {| cfg_sessionId := "t"; cfg_dimensions := 1;
              cfg_maxContextMessages := None; cfg_minSimilarity := None;
              cfg_searchMode := None; cfg_persistToStaticData := None |}
           no_embedder no_embedder None).
  discriminate.
Defined.
Lemma addMessages_stops_at_first_failure_witness :
  addMessages memory_plain [system_note; hello; hello; hello] (world_at 1000)
  = addMessage memory_plain hello
      (snd (addMessages memory_plain [system_note] (world_at 1000))) /\
  fst (addMessages memory_plain [system_note; hello; hello; hello] (world_at 1000))
  = Throw EmbeddingsUnsupported.
Proof.
  assert (Hok : fst (addMessages memory_plain [system_note] (world_at 1000)) = Ok tt).
  { simpl. unfold bind.
    rewrite (addMessage_skipped_eq memory_plain system_note (world_at 1000) eq_refl).
    reflexivity. }
  assert (Hthrow : fst (addMessage memory_plain hello
                          (snd (addMessages memory_plain [system_note] (world_at 1000))))
                   = Throw EmbeddingsUnsupported).
  { unfold addMessage at 1, bind at 1. rewrite getStore_eq. reflexivity. }
  destruct (addMessages_stops_at_first_failure memory_plain [system_note] (world_at 1000))
    as (_ & H & _).
  destruct (H Hok hello [hello; hello]) as [_ H'].
  specialize (H' _ Hthrow). simpl app in H'.
  split; [exact H' | rewrite H'; exact Hthrow].
Defined.
End LiveSessionSamples.
